(** * Video-preview plugin: a shallow embedding and its properties

    The repository holds two variants of one Obsidian plugin:
    - [VideoPlugin] (the structural variant): walks the anchor elements
      of the rendered fragment, resolves metadata and an optional channel
      icon, and replaces each anchor by a node built with the DOM API;
    - [MyPlugin] (the textual variant, [main.ts]): scans the markup of
      the fragment with a global regular expression and rewrites it with
      [String.prototype.replace].

    JavaScript strings are sequences of UTF-16 code units, values coming
    out of [response.json()] are JSON trees, and the outside world (the
    network, the console, notices, the settings store) is an explicit
    state threaded through a small state-and-exception monad. *)

From Stdlib Require Import String Ascii NArith ZArith Bool Arith Lia List.
Import ListNotations.

Set Implicit Arguments.
Set Warnings "-register-all".

(** ** JavaScript strings *)

Module JsString.

(** A string is its list of UTF-16 code units. *)
Definition jsstring := list N.

(** A source literal (ASCII only in this program). *)
Definition lit (s : string) : jsstring :=
  map N_of_ascii (list_ascii_of_string s).

Arguments lit : simpl never.

Definition chr (a : ascii) : N := N_of_ascii a.

Fixpoint eqb (a b : jsstring) : bool :=
  match a, b with
  | [], [] => true
  | x :: a', y :: b' => N.eqb x y && eqb a' b'
  | _, _ => false
  end.

Fixpoint starts_with (p s : jsstring) : bool :=
  match p, s with
  | [], _ => true
  | x :: p', y :: s' => N.eqb x y && starts_with p' s'
  | _ :: _, [] => false
  end.

(** [indexOf]-style search: the text before the first occurrence of
    [p] in [s] and the text after it. *)
Fixpoint split_first (p s : jsstring) : option (jsstring * jsstring) :=
  if starts_with p s then Some ([], skipn (length p) s)
  else match s with
       | [] => None
       | c :: s' =>
           match split_first p s' with
           | Some (before, after) => Some (c :: before, after)
           | None => None
           end
       end.

Definition is_empty (s : jsstring) : bool :=
  match s with [] => true | _ => false end.

Definition is_empty_list {A} (l : list A) : bool :=
  match l with [] => true | _ => false end.

End JsString.
Import JsString.

(** ** Regular expressions, as the engine runs them

    A backtracking matcher in continuation-passing style, in the manner
    of the language definition: alternatives are tried left to right,
    quantifiers are greedy, and an iteration of a quantifier that
    consumes nothing is rejected. The matcher returns what the
    continuation returns, so that [exec] can report where the first
    match (in priority order) ends. *)

Module Regex.

Inductive regex : Type :=
| Eps
| Chr (c : N)
| Class (p : N -> bool)
| Seq (r1 r2 : regex)
| Alt (r1 r2 : regex)
| Opt (r : regex)
| Star (r : regex).

(** [r+] is one mandatory iteration followed by [r*]. *)
Definition Plus (r : regex) : regex := Seq r (Star r).

(** A literal run of characters. *)
Fixpoint Str (s : jsstring) : regex :=
  match s with
  | [] => Eps
  | c :: s' => Seq (Chr c) (Str s')
  end.

(** The class [\s]: WhiteSpace and LineTerminator code points. *)
Definition is_space (c : N) : bool :=
  ((9 <=? c) && (c <=? 13) || (c =? 32) || (c =? 160) || (c =? 5760)
   || ((8192 <=? c) && (c <=? 8202)) || (c =? 8232) || (c =? 8233)
   || (c =? 8239) || (c =? 8287) || (c =? 12288) || (c =? 65279))%N.

(** The class [\S]. *)
Definition not_space (c : N) : bool := negb (is_space c).

Definition cont := jsstring -> option jsstring.

Definition orelse (a b : option jsstring) : option jsstring :=
  match a with Some x => Some x | None => b end.

(** Continue only when the iteration consumed something. *)
Definition progress (s : jsstring) (k : cont) : cont :=
  fun s' => if (length s' <? length s)%nat then k s' else None.

Fixpoint star_loop (mr : cont -> cont) (k : cont) (n : nat) (s : jsstring)
  : option jsstring :=
  match n with
  | O => k s
  | S n' => orelse (mr (progress s (star_loop mr k n')) s) (k s)
  end.

Fixpoint run (r : regex) (k : cont) (s : jsstring) {struct r}
  : option jsstring :=
  match r with
  | Eps => k s
  | Chr c =>
      match s with
      | x :: s' => if (x =? c)%N then k s' else None
      | [] => None
      end
  | Class p =>
      match s with
      | x :: s' => if p x then k s' else None
      | [] => None
      end
  | Seq r1 r2 => run r1 (run r2 k) s
  | Alt r1 r2 => orelse (run r1 k s) (run r2 k s)
  | Opt r1 => orelse (run r1 (progress s k) s) (k s)
  | Star r1 => star_loop (run r1) k (length s) s
  end.

(** A match attempt at the start of [s]: the text left after the match. *)
Definition match_here (r : regex) (s : jsstring) : option jsstring :=
  run r (fun rest => Some rest) s.

(** [exec] from the start of [s]: the first position at which the
    pattern matches; the result is the text skipped, the matched text
    and the text that follows. *)
Fixpoint exec (r : regex) (s : jsstring)
  : option (jsstring * jsstring * jsstring) :=
  match match_here r s with
  | Some rest => Some ([], firstn (length s - length rest) s, rest)
  | None =>
      match s with
      | [] => None
      | c :: s' =>
          match exec r s' with
          | Some (skipped, matched, rest) => Some (c :: skipped, matched, rest)
          | None => None
          end
      end
  end.

(** [RegExp.prototype.test] for a pattern without the global flag. *)
Definition test (r : regex) (s : jsstring) : bool :=
  match exec r s with Some _ => true | None => false end.

(** [String.prototype.match] with a global pattern: every match, left
    to right, each search resuming where the previous match ended (one
    unit further after an empty match). [None] stands for [null]. *)
Fixpoint match_all_from (r : regex) (fuel : nat) (s : jsstring)
  : list jsstring :=
  match fuel with
  | O => []
  | S fuel' =>
      match exec r s with
      | None => []
      | Some (_, matched, rest) =>
          matched ::
          match matched with
          | [] => match rest with
                  | [] => []
                  | _ :: rest' => match_all_from r fuel' rest'
                  end
          | _ :: _ => match_all_from r fuel' rest
          end
      end
  end.

Definition match_all (r : regex) (s : jsstring) : option (list jsstring) :=
  match match_all_from r (S (length s)) s with
  | [] => None
  | ms => Some ms
  end.

(** The language of a pattern, for stating what the matcher accepts. *)
Inductive star (P : jsstring -> Prop) : jsstring -> Prop :=
| star_nil : star P []
| star_app s1 s2 : P s1 -> star P s2 -> star P (s1 ++ s2).

Fixpoint lang (r : regex) (s : jsstring) : Prop :=
  match r with
  | Eps => s = []
  | Chr c => s = [c]
  | Class p => exists c, s = [c] /\ p c = true
  | Seq r1 r2 => exists s1 s2, s = s1 ++ s2 /\ lang r1 s1 /\ lang r2 s2
  | Alt r1 r2 => lang r1 s \/ lang r2 s
  | Opt r1 => s = [] \/ lang r1 s
  | Star r1 => star (lang r1) s
  end.

End Regex.

(** ** Values of the language

    Numbers are IEEE doubles in the language; the program never computes
    with them, it only tests them for truth, compares a [length] with
    zero and splices them into request strings. Those primitives are
    taken as an interface, so that every statement below holds for any
    interpretation of numbers. *)

Module JsValue.

Class Numeric (number : Type) : Type := {
  (** [ToBoolean] on a number: false for [0], [-0] and [NaN]. *)
  num_truthy : number -> bool;
  (** [n > 0]. *)
  num_positive : number -> bool;
  (** [Number::toString]. *)
  num_toString : number -> jsstring;
  (** [StringToNumber(s) > 0]. *)
  str_positive : jsstring -> bool
}.

(** The exceptions this program can meet. A rejected [fetch] is kept
    apart from the other type errors, as [NetworkError]. *)
Inductive error : Type :=
| NetworkError   (* fetch rejected *)
| SyntaxError    (* response.json() rejected *)
| TypeError      (* property read on undefined or null, failed conversion *)
| URIError.      (* encodeURIComponent on an unpaired surrogate *)

Inductive result (A : Type) : Type :=
| Ok (a : A)
| Throw (e : error).
Arguments Ok {A} a.
Arguments Throw {A} e.

Definition rbind {A B} (r : result A) (f : A -> result B) : result B :=
  match r with
  | Ok a => f a
  | Throw e => Throw e
  end.

Section Values.
Context {number : Type} {numeric : Numeric number}.

(** What [JSON.parse] can produce, plus [undefined] (a missing
    property). An object is its list of own properties; a lookup takes
    the first binding of a key. *)
Inductive jsval : Type :=
| VUndefined
| VNull
| VBool (b : bool)
| VNum (n : number)
| VStr (s : jsstring)
| VArr (items : list jsval)
| VObj (fields : list (jsstring * jsval)).

(** [ToBoolean]. *)
Definition truthy (v : jsval) : bool :=
  match v with
  | VUndefined | VNull => false
  | VBool b => b
  | VNum n => num_truthy n
  | VStr s => negb (is_empty s)
  | VArr _ | VObj _ => true
  end.

Fixpoint own (k : jsstring) (fields : list (jsstring * jsval)) : option jsval :=
  match fields with
  | [] => None
  | (k', v) :: rest => if JsString.eqb k k' then Some v else own k rest
  end.

(** Property read [v.k] / [v[0]], for the property names this program
    reads other than [length]: none of them is defined on a built-in
    prototype, so only own properties (and index [0] of arrays and
    strings) can answer. Reading a property of [undefined] or [null]
    throws. *)
Definition get (v : jsval) (k : jsstring) : result jsval :=
  match v with
  | VUndefined | VNull => Throw TypeError
  | VObj fields =>
      Ok (match own k fields with Some x => x | None => VUndefined end)
  | VArr items =>
      Ok (if JsString.eqb k (lit "0")
          then match items with x :: _ => x | [] => VUndefined end
          else VUndefined)
  | VStr s =>
      Ok (if JsString.eqb k (lit "0")
          then match s with c :: _ => VStr [c] | [] => VUndefined end
          else VUndefined)
  | VBool _ | VNum _ => Ok VUndefined
  end.

Fixpoint join (parts : list jsstring) : jsstring :=
  match parts with
  | [] => []
  | [p] => p
  | p :: rest => p ++ lit "," ++ join rest
  end.

Fixpoint sequence {A} (rs : list (result A)) : result (list A) :=
  match rs with
  | [] => Ok []
  | r :: rest =>
      rbind r (fun a => rbind (sequence rest) (fun l => Ok (a :: l)))
  end.

(** [ToString], which is also what [+] with a string and a template
    literal apply. A parsed object has no callable own property: with
    an own [toString] key the conversion finds no method that yields a
    primitive and throws; without one it is [Object.prototype.toString].
    An array is joined with commas, [null] elements reading as empty. *)
Fixpoint toString (v : jsval) : result jsstring :=
  match v with
  | VUndefined => Ok (lit "undefined")
  | VNull => Ok (lit "null")
  | VBool true => Ok (lit "true")
  | VBool false => Ok (lit "false")
  | VNum n => Ok (num_toString n)
  | VStr s => Ok s
  | VArr items =>
      rbind
        (sequence
           (map (fun x => match x with
                          | VUndefined | VNull => Ok []
                          | _ => toString x
                          end) items))
        (fun parts => Ok (join parts))
  | VObj fields =>
      match own (lit "toString") fields with
      | Some _ => Throw TypeError
      | None => Ok (lit "[object Object]")
      end
  end.

(** [v > 0]. *)
Definition gt0 (v : jsval) : result bool :=
  match v with
  | VUndefined | VNull => Ok false
  | VBool b => Ok b
  | VNum n => Ok (num_positive n)
  | VStr s => Ok (str_positive s)
  | VArr _ | VObj _ => rbind (toString v) (fun s => Ok (str_positive s))
  end.

(** [v.length > 0]. *)
Definition length_gt0 (v : jsval) : result bool :=
  match v with
  | VUndefined | VNull => Throw TypeError
  | VArr items => Ok (negb (is_empty_list items))
  | VStr s => Ok (negb (is_empty s))
  | VBool _ | VNum _ => Ok false
  | VObj fields =>
      gt0 (match own (lit "length") fields with
           | Some x => x
           | None => VUndefined
           end)
  end.

End Values.
Arguments jsval number : clear implicits.

End JsValue.
Import JsValue.

(** ** URI encoding and scalar-value strings *)

Module Uri.

Definition in_range (lo hi c : N) : bool := ((lo <=? c) && (c <=? hi))%N.

(** The characters [encodeURIComponent] leaves alone: letters, digits
    and [- _ . ! ~ * ' ( )]. *)
Definition unreserved (c : N) : bool :=
  in_range 65 90 c || in_range 97 122 c || in_range 48 57 c
  || existsb (N.eqb c) (lit "-_.!~*'()").

Definition is_lead (c : N) : bool := in_range 55296 56319 c.
Definition is_trail (c : N) : bool := in_range 56320 57343 c.

Definition hex_digit (d : N) : N :=
  (if d <? 10 then 48 + d else 55 + d)%N.

Definition percent (byte : N) : jsstring :=
  [chr "%"; hex_digit ((byte / 16) mod 16); hex_digit (byte mod 16)].

Definition utf8 (cp : N) : list N :=
  (if cp <? 128 then [cp]
   else if cp <? 2048 then [192 + cp / 64; 128 + cp mod 64]
   else if cp <? 65536 then
     [224 + cp / 4096; 128 + (cp / 64) mod 64; 128 + cp mod 64]
   else
     [240 + (cp / 262144) mod 8; 128 + (cp / 4096) mod 64;
      128 + (cp / 64) mod 64; 128 + cp mod 64])%N.

Definition escape_code_point (cp : N) : jsstring :=
  flat_map percent (utf8 cp).

(** [encodeURIComponent]: UTF-8, percent-encoded, of every character
    outside the unreserved set; an unpaired surrogate is a [URIError]. *)
Fixpoint encodeURIComponent (s : jsstring) : result jsstring :=
  match s with
  | [] => Ok []
  | c :: rest =>
      if unreserved c then
        rbind (encodeURIComponent rest) (fun t => Ok (c :: t))
      else if is_trail c then Throw URIError
      else if is_lead c then
        match rest with
        | d :: rest' =>
            if is_trail d then
              rbind (encodeURIComponent rest')
                (fun t =>
                   Ok (escape_code_point
                         ((c - 55296) * 1024 + (d - 56320) + 65536)%N ++ t))
            else Throw URIError
        | [] => Throw URIError
        end
      else
        rbind (encodeURIComponent rest)
          (fun t => Ok (escape_code_point c ++ t))
  end.

(** Conversion to a scalar-value string (the type of [href] and [src]):
    unpaired surrogates become U+FFFD. *)
Fixpoint toUSVString (s : jsstring) : jsstring :=
  match s with
  | [] => []
  | c :: rest =>
      if is_trail c then 65533%N :: toUSVString rest
      else if is_lead c then
        match rest with
        | d :: rest' =>
            if is_trail d then c :: d :: toUSVString rest'
            else 65533%N :: toUSVString rest
        | [] => [65533%N]
        end
      else c :: toUSVString rest
  end.

(** How the receiver of a request URL reads a query parameter: the
    query runs from the first [?] to the first [#], its parameters are
    separated by [&], and a parameter is [name=value]. The value is
    returned as transmitted (not percent-decoded). *)
Fixpoint take_until (stop : N -> bool) (s : jsstring) : jsstring :=
  match s with
  | [] => []
  | c :: rest => if stop c then [] else c :: take_until stop rest
  end.

Fixpoint drop_until (stop : N -> bool) (s : jsstring) : jsstring :=
  match s with
  | [] => []
  | c :: rest => if stop c then rest else drop_until stop rest
  end.

Definition is_char (a : ascii) (c : N) : bool := N.eqb c (chr a).

Definition query_of (url : jsstring) : jsstring :=
  drop_until (is_char "?") (take_until (is_char "#") url).

Fixpoint split_on (sep : N -> bool) (s : jsstring) : list jsstring :=
  match s with
  | [] => [[]]
  | c :: rest =>
      if sep c then [] :: split_on sep rest
      else match split_on sep rest with
           | p :: ps => (c :: p) :: ps
           | [] => [[c]]
           end
  end.

Fixpoint find_param (name : jsstring) (params : list jsstring)
  : option jsstring :=
  match params with
  | [] => None
  | p :: rest =>
      if JsString.eqb (take_until (is_char "=") p) name
      then Some (drop_until (is_char "=") p)
      else find_param name rest
  end.

Definition query_param (name url : jsstring) : option jsstring :=
  find_param name (split_on (is_char "&") (query_of url)).

End Uri.

(** ** An interpretation of numbers for responses that hold none

    Concrete runs below use responses made of strings, arrays and
    objects. The only numeric primitive that such a run can reach is
    the comparison of a string with zero, which reads the string as a
    numeric literal (exactly, without dropping late digits): white
    space trimmed, then [Infinity], a radix-prefixed integer, or a
    signed decimal with optional fraction and exponent. A double is
    positive when the value read exceeds half the least subnormal. *)

Module Numberless.

Definition number : Type := Empty_set.

Definition digit (base c : N) : option N :=
  let v := (if Uri.in_range 48 57 c then Some (c - 48)
            else if Uri.in_range 97 102 c then Some (c - 87)
            else if Uri.in_range 65 70 c then Some (c - 55)
            else None)%N in
  match v with
  | Some d => if (d <? base)%N then Some d else None
  | None => None
  end.

Fixpoint digits (base acc : N) (s : jsstring) : option N :=
  match s with
  | [] => Some acc
  | c :: rest =>
      match digit base c with
      | Some d => digits base (acc * base + d)%N rest
      | None => None
      end
  end.

Fixpoint drop_space (s : jsstring) : jsstring :=
  match s with
  | c :: rest => if Regex.is_space c then drop_space rest else s
  | [] => []
  end.

Definition trim (s : jsstring) : jsstring :=
  rev (drop_space (rev (drop_space s))).

Definition is_e (c : N) : bool := Uri.is_char "e" c || Uri.is_char "E" c.

Fixpoint from (stop : N -> bool) (s : jsstring) : jsstring :=
  match s with
  | [] => []
  | c :: rest => if stop c then s else from stop rest
  end.

Definition unsigned_digits (s : jsstring) : option N :=
  match s with
  | [] => None
  | _ => digits 10 0 s
  end.

(** The exponent part: empty, or [e] with an optionally signed run of
    digits. *)
Definition exponent (s : jsstring) : option Z :=
  match s with
  | [] => Some 0%Z
  | _ :: c :: ds =>
      if Uri.is_char "-" c then option_map (fun n => (- Z.of_N n)%Z) (unsigned_digits ds)
      else if Uri.is_char "+" c then option_map Z.of_N (unsigned_digits ds)
      else option_map Z.of_N (unsigned_digits (c :: ds))
  | [_] => None
  end.

Definition unsigned_decimal_positive (s : jsstring) : bool :=
  let mantissa := Uri.take_until is_e s in
  let int_part := Uri.take_until (Uri.is_char ".") mantissa in
  let dotted := from (Uri.is_char ".") mantissa in
  let frac_part := tl dotted in
  let shaped :=
    match dotted with
    | [] => negb (is_empty int_part)
    | _ => negb (is_empty int_part && is_empty frac_part)
    end in
  match digits 10 0 (int_part ++ frac_part), exponent (from is_e s) with
  | Some m, Some e =>
      shaped &&
      let e' := (e - Z.of_nat (length frac_part))%Z in
      if (0 <=? e')%Z then (0 <? m)%N
      else (10 ^ Z.to_N (- e') <? m * 2 ^ 1075)%N
  | _, _ => false
  end.

Definition radix_positive (base : N) (ds : jsstring) : bool :=
  match ds, digits base 0 ds with
  | _ :: _, Some v => (0 <? v)%N
  | _, _ => false
  end.

Definition literal_positive (s : jsstring) : bool :=
  let t := trim s in
  if JsString.eqb t (lit "Infinity") || JsString.eqb t (lit "+Infinity") then true
  else
    match t with
    | z :: x :: ds =>
        if Uri.is_char "0" z && (Uri.is_char "x" x || Uri.is_char "X" x)
        then radix_positive 16 ds
        else if Uri.is_char "0" z && (Uri.is_char "o" x || Uri.is_char "O" x)
        then radix_positive 8 ds
        else if Uri.is_char "0" z && (Uri.is_char "b" x || Uri.is_char "B" x)
        then radix_positive 2 ds
        else if Uri.is_char "-" z then false
        else if Uri.is_char "+" z then unsigned_decimal_positive (x :: ds)
        else unsigned_decimal_positive t
    | _ => unsigned_decimal_positive t
    end.

#[global] Instance numeric : Numeric number := {|
  num_truthy := fun n : Empty_set => match n with end;
  num_positive := fun n : Empty_set => match n with end;
  num_toString := fun n : Empty_set => match n with end;
  str_positive := literal_positive
|}.

End Numberless.

(** ** The DOM fragment *)

Module Dom.

Inductive node : Type :=
| Text (data : jsstring)
| Element (tag : jsstring) (attrs : list (jsstring * jsstring))
          (children : list node).

Definition createElement (tag : jsstring) : node := Element tag [] [].

Fixpoint lookup_attr (name : jsstring) (attrs : list (jsstring * jsstring))
  : option jsstring :=
  match attrs with
  | [] => None
  | (k, v) :: rest => if JsString.eqb k name then Some v else lookup_attr name rest
  end.

Fixpoint update_attr (name value : jsstring)
         (attrs : list (jsstring * jsstring)) : list (jsstring * jsstring) :=
  match attrs with
  | [] => [(name, value)]
  | (k, v) :: rest =>
      if JsString.eqb k name then (k, value) :: rest
      else (k, v) :: update_attr name value rest
  end.

(** [el.getAttribute(name)]; [None] is [null]. *)
Definition getAttribute (name : jsstring) (n : node) : option jsstring :=
  match n with
  | Element _ attrs _ => lookup_attr name attrs
  | Text _ => None
  end.

Definition setAttribute (name value : jsstring) (n : node) : node :=
  match n with
  | Element tag attrs kids => Element tag (update_attr name value attrs) kids
  | Text d => Text d
  end.

(** [el.classList.add(c)], on an element that does not carry the
    class yet (the program adds one class to each fresh element). *)
Definition classList_add (c : jsstring) (n : node) : node :=
  match getAttribute (lit "class") n with
  | None => setAttribute (lit "class") c n
  | Some old => setAttribute (lit "class") (old ++ lit " " ++ c) n
  end.

Definition appendChild (child : node) (parent : node) : node :=
  match parent with
  | Element tag attrs kids => Element tag attrs (kids ++ [child])
  | Text d => Text d
  end.

(** [parent.insertBefore(child, ref)] where [ref] is the first child. *)
Definition insertFirst (child : node) (parent : node) : node :=
  match parent with
  | Element tag attrs kids => Element tag attrs (child :: kids)
  | Text d => Text d
  end.

(** [el.textContent = s] on a string: the children become one text
    node, or nothing when the string is empty. *)
Definition setTextContent (s : jsstring) (n : node) : node :=
  match n with
  | Element tag attrs _ =>
      Element tag attrs (match s with [] => [] | _ => [Text s] end)
  | Text d => Text d
  end.

Definition has_class (c : jsstring) (n : node) : bool :=
  match getAttribute (lit "class") n with
  | Some v => JsString.eqb v c
  | None => false
  end.

Definition is_tag (t : jsstring) (n : node) : bool :=
  match n with
  | Element tag _ _ => JsString.eqb tag t
  | Text _ => false
  end.

(** Some node of the tree rooted at [n] satisfies [p]. *)
Fixpoint contains (p : node -> bool) (n : node) : bool :=
  p n ||
  match n with
  | Text _ => false
  | Element _ _ kids => existsb (contains p) kids
  end.

(** *** Serialisation ([outerHTML]) *)

(** The double-quote character. *)
Definition quote : N := 34.

Definition escape (attribute_mode : bool) (s : jsstring) : jsstring :=
  flat_map
    (fun c =>
       if N.eqb c (chr "&") then lit "&amp;"
       else if N.eqb c 160 then lit "&nbsp;"
       else if N.eqb c (chr "<") then lit "&lt;"
       else if N.eqb c (chr ">") then lit "&gt;"
       else if attribute_mode && N.eqb c quote then lit "&quot;"
       else [c]) s.

Definition void_elements : list jsstring :=
  map lit ["area"; "base"; "br"; "col"; "embed"; "hr"; "img"; "input";
           "link"; "meta"; "source"; "track"; "wbr"]%string.

Definition serialize_attrs (attrs : list (jsstring * jsstring)) : jsstring :=
  flat_map
    (fun kv => lit " " ++ fst kv ++ lit "=" ++ [quote]
               ++ escape true (snd kv) ++ [quote]) attrs.

Fixpoint outerHTML (n : node) : jsstring :=
  match n with
  | Text d => escape false d
  | Element tag attrs kids =>
      lit "<" ++ tag ++ serialize_attrs attrs ++ lit ">" ++
      (if existsb (JsString.eqb tag) void_elements then []
       else flat_map outerHTML kids ++ lit "</" ++ tag ++ lit ">")
  end.

(** *** Assignments of a value to a DOM property *)

Section Assign.
Context {number : Type} {numeric : Numeric number}.

(** [el.src = v]: conversion to a scalar-value string. *)
Definition set_src (v : jsval number) (n : node) : result node :=
  rbind (toString v)
    (fun s => Ok (setAttribute (lit "src") (Uri.toUSVString s) n)).

(** [el.textContent = v], a nullable string: [undefined] and [null]
    read as the empty string. *)
Definition set_textContent (v : jsval number) (n : node) : result node :=
  match v with
  | VUndefined | VNull => Ok (setTextContent [] n)
  | _ => rbind (toString v) (fun s => Ok (setTextContent s n))
  end.

End Assign.

End Dom.

(** ** The host: network, console, notices and the settings store *)

(** The settings of the structural variant. *)
Record VideoPluginSettings : Type := {
  showThumbnail : bool;
  showChannelIcon : bool;
  apiKey : jsstring
}.

Module Host.
Section Host.
Context {number : Type} {numeric : Numeric number}.

(** A response that arrived; its body parses as JSON or does not. *)
Inductive response : Type :=
| Response (body : option (jsval number)).

(** What [fetch] does with a request: reject, or resolve. *)
Inductive outcome : Type :=
| Rejected
| Resolved (r : response).

(** The state of the outside world. The network answers a request
    knowing every request made before it; [saved] lists the calls to
    [saveData], oldest first. *)
Record world : Type := {
  network : list jsstring -> jsstring -> outcome;
  requests : list jsstring;
  console : list (jsstring * error);
  notices : list jsstring;
  saved : list VideoPluginSettings
}.

(** The persisted configuration: what [saveData] was last called with. *)
Definition persisted (w : world) : option VideoPluginSettings :=
  match rev (saved w) with
  | s :: _ => Some s
  | [] => None
  end.

Definition M (A : Type) : Type := world -> result A * world.

Definition ret {A} (a : A) : M A := fun w => (Ok a, w).

Definition bind {A B} (c : M A) (f : A -> M B) : M B :=
  fun w =>
    match c w with
    | (Ok a, w') => f a w'
    | (Throw e, w') => (Throw e, w')
    end.

Definition lift {A} (r : result A) : M A := fun w => (r, w).

(** [try { body } catch (error) { handler }]. *)
Definition try_catch {A} (body : M A) (handler : error -> M A) : M A :=
  fun w =>
    match body w with
    | (Ok a, w') => (Ok a, w')
    | (Throw e, w') => handler e w'
    end.

(** [await fetch(url)]. *)
Definition fetch (url : jsstring) : M response :=
  fun w =>
    let w' := {| network := network w;
                 requests := requests w ++ [url];
                 console := console w;
                 notices := notices w;
                 saved := saved w |} in
    match network w (requests w) url with
    | Rejected => (Throw NetworkError, w')
    | Resolved r => (Ok r, w')
    end.

(** [await response.json()]. *)
Definition json (r : response) : M (jsval number) :=
  match r with
  | Response (Some v) => ret v
  | Response None => lift (Throw SyntaxError)
  end.

(** [console.error(label, error)]. *)
Definition console_error (label : jsstring) (e : error) : M unit :=
  fun w =>
    (Ok tt, {| network := network w;
               requests := requests w;
               console := console w ++ [(label, e)];
               notices := notices w;
               saved := saved w |}).

(** [new Notice(text)]. *)
Definition Notice (text : jsstring) : M unit :=
  fun w =>
    (Ok tt, {| network := network w;
               requests := requests w;
               console := console w;
               notices := notices w ++ [text];
               saved := saved w |}).

(** [await this.saveData(settings)]. *)
Definition saveData (s : VideoPluginSettings) : M unit :=
  fun w =>
    (Ok tt, {| network := network w;
               requests := requests w;
               console := console w;
               notices := notices w;
               saved := saved w ++ [s] |}).

End Host.
Arguments world number : clear implicits.
Arguments M number A : clear implicits.
Arguments response number : clear implicits.
Arguments outcome number : clear implicits.

Declare Scope js_scope.
Delimit Scope js_scope with js.
Notation "x <- c ;; k" := (bind c (fun x => k))
  (at level 61, c at next level, right associativity) : js_scope.
Notation "c ;;; k" := (bind c (fun _ => k))
  (at level 61, right associativity) : js_scope.

End Host.
Import Host.
Open Scope js_scope.

(** ** The pattern both variants use

    [/https?:\/\/(www\.)?(youtube\.com|youtu\.be)\/\S+/], with the
    global flag in the textual variant. *)

Definition youtubeRegex : Regex.regex :=
  Regex.Seq (Regex.Str (lit "http"))
 (Regex.Seq (Regex.Opt (Regex.Chr (chr "s")))
 (Regex.Seq (Regex.Str (lit "://"))
 (Regex.Seq (Regex.Opt (Regex.Str (lit "www.")))
 (Regex.Seq (Regex.Alt (Regex.Str (lit "youtube.com"))
                       (Regex.Str (lit "youtu.be")))
 (Regex.Seq (Regex.Chr (chr "/"))
            (Regex.Plus (Regex.Class Regex.not_space))))))).

(** The request both variants send to the embed-info service:
    [`https://noembed.com/embed?url=${encodeURIComponent(url)}`]. *)
Definition embed_url (encoded : jsstring) : jsstring :=
  lit "https://noembed.com/embed?url=" ++ encoded.

(** ** The structural variant *)

Module VideoPlugin.

Definition DEFAULT_SETTINGS : VideoPluginSettings :=
  {| showThumbnail := true; showChannelIcon := true; apiKey := [] |}.

Definition isYouTubeUrl (url : jsstring) : bool :=
  Regex.test youtubeRegex url.

Section Plugin.
Context {number : Type} {numeric : Numeric number}.
Local Abbreviation jsval := (jsval number).
Local Abbreviation M := (M number).

(** The object [fetchVideoMetadata] returns. Its fields are whatever
    the response held, [undefined] included. *)
Record metadata : Type := {
  title : jsval;
  author_name : jsval;
  thumbnail_url : jsval;
  url : jsstring;
  channel_icon_url : jsval
}.

Variable settings : VideoPluginSettings.

Definition saveSettings : M unit :=
  if showChannelIcon settings && is_empty (apiKey settings) then
    Notice (lit "API Key is required when Channel Icon is enabled.")
  else
    saveData settings.

(** [data.items && data.items.length > 0] *)
Definition has_items (data : jsval) : result bool :=
  rbind (get data (lit "items"))
    (fun items => if truthy items then length_gt0 items else Ok false).

(** [data.items[0].snippet.channelId] *)
Definition first_channelId (data : jsval) : result jsval :=
  rbind (get data (lit "items")) (fun items =>
  rbind (get items (lit "0")) (fun first =>
  rbind (get first (lit "snippet")) (fun snippet =>
  get snippet (lit "channelId")))).

(** [data.items[0].snippet.thumbnails.default.url] *)
Definition first_thumbnail_url (data : jsval) : result jsval :=
  rbind (get data (lit "items")) (fun items =>
  rbind (get items (lit "0")) (fun first =>
  rbind (get first (lit "snippet")) (fun snippet =>
  rbind (get snippet (lit "thumbnails")) (fun thumbnails =>
  rbind (get thumbnails (lit "default")) (fun default =>
  get default (lit "url")))))).

Definition search_url (customUrl : jsstring) : jsstring :=
  lit "https://www.googleapis.com/youtube/v3/search?part=snippet&q="
  ++ customUrl ++ lit "&type=channel&key=" ++ apiKey settings.

Definition getChannelIdFromUrl (customUrl : jsval) : M jsval :=
  customUrl' <- lift (toString customUrl) ;;
  let url := search_url customUrl' in
  try_catch
    (response <- fetch url ;;
     data <- json response ;;
     has <- lift (has_items data) ;;
     if has then
       channelId <- lift (first_channelId data) ;;
       ret channelId
     else
       ret VNull)
    (fun error =>
       console_error (lit "Error fetching channel ID:") error ;;;
       ret VNull).

Definition channels_url (channelId : jsstring) : jsstring :=
  lit "https://www.googleapis.com/youtube/v3/channels?part=snippet&id="
  ++ channelId ++ lit "&key=" ++ apiKey settings.

Definition fetchChannelIcon (channelUrl : jsval) : M jsval :=
  returned <-
    try_catch
      (channelId <- getChannelIdFromUrl channelUrl ;;
       channelId' <- lift (toString channelId) ;;
       response <- fetch (channels_url channelId') ;;
       data <- json response ;;
       has <- lift (has_items data) ;;
       if has then
         icon <- lift (first_thumbnail_url data) ;;
         ret (Some icon)
       else
         ret None)
      (fun error =>
         console_error (lit "Error fetching channel icon:") error ;;;
         ret None) ;;
  match returned with
  | Some icon => ret icon
  | None => ret VNull
  end.

(** [None] is the final [return null], reached when the test on [data]
    fails and after the handler. *)
Definition fetchVideoMetadata (url : jsstring) : M (option metadata) :=
  try_catch
    (encoded <- lift (Uri.encodeURIComponent url) ;;
     response <- fetch (embed_url encoded) ;;
     data <- json response ;;
     if truthy data then
       channelIconUrl <-
         (if showChannelIcon settings then
            author_url <- lift (get data (lit "author_url")) ;;
            fetchChannelIcon author_url
          else ret VNull) ;;
       title <- lift (get data (lit "title")) ;;
       author_name <- lift (get data (lit "author_name")) ;;
       thumbnail_url <- lift (get data (lit "thumbnail_url")) ;;
       ret (Some {| title := title;
                    author_name := author_name;
                    thumbnail_url := thumbnail_url;
                    url := url;
                    channel_icon_url := channelIconUrl |})
     else
       ret None)
    (fun error =>
       console_error (lit "Error fetching video metadata:") error ;;;
       ret None).

Definition createPrettyLink (md : metadata) : result Dom.node :=
  let container := Dom.createElement (lit "a") in
  let container := Dom.classList_add (lit "video-metadata-container") container in
  let container :=
    Dom.setAttribute (lit "href") (Uri.toUSVString (url md)) container in
  let container := Dom.setAttribute (lit "target") (lit "_blank") container in
  let container :=
    Dom.setAttribute (lit "rel") (lit "noopener noreferrer") container in
  rbind
    (if showThumbnail settings then
       let thumbnailElement := Dom.createElement (lit "img") in
       let thumbnailElement :=
         Dom.classList_add (lit "video-thumbnail") thumbnailElement in
       rbind (Dom.set_src (thumbnail_url md) thumbnailElement)
         (fun thumbnailElement =>
            Ok (Dom.appendChild thumbnailElement container))
     else Ok container)
    (fun container =>
  let banner := Dom.createElement (lit "div") in
  let banner := Dom.classList_add (lit "banner") banner in
  let textContainer := Dom.createElement (lit "div") in
  let textContainer :=
    Dom.classList_add (lit "video-text-container") textContainer in
  let titleElement := Dom.createElement (lit "strong") in
  rbind (Dom.set_textContent (title md) titleElement) (fun titleElement =>
  let textContainer := Dom.appendChild titleElement textContainer in
  let authorNameElement := Dom.createElement (lit "span") in
  rbind (Dom.set_textContent (author_name md) authorNameElement)
    (fun authorNameElement =>
  let textContainer := Dom.appendChild authorNameElement textContainer in
  rbind
    (if truthy (channel_icon_url md) then
       let channelImage := Dom.createElement (lit "img") in
       let channelImage := Dom.classList_add (lit "channel-icon") channelImage in
       rbind (Dom.set_src (channel_icon_url md) channelImage)
         (fun channelImage => Ok (Dom.appendChild channelImage banner))
     else Ok banner)
    (fun banner =>
  let banner := Dom.appendChild textContainer banner in
  let container := Dom.appendChild banner container in
  Ok container)))).

(** The loop of [processMarkdown] over the anchors below a node, in
    document order. The list of anchors is taken before the loop, so an
    anchor nested in a replaced anchor is still visited (and resolved),
    its replacement landing in the detached subtree. A node is returned
    as it stands in the fragment after the pass. When an exception
    escapes, the pass stops and the partly rewritten fragment is not
    represented. *)
Fixpoint visit (n : Dom.node) : M Dom.node :=
  match n with
  | Dom.Text d => ret (Dom.Text d)
  | Dom.Element tag attrs kids =>
      let visit_all :=
        (fix visit_all (l : list Dom.node) : M (list Dom.node) :=
           match l with
           | [] => ret []
           | k :: l' =>
               k' <- visit k ;;
               l'' <- visit_all l' ;;
               ret (k' :: l'')
           end) in
      let descend :=
        (kids' <- visit_all kids ;;
         ret (Dom.Element tag attrs kids')) in
      if JsString.eqb tag (lit "a") then
        match Dom.lookup_attr (lit "href") attrs with
        | Some url =>
            if negb (is_empty url) && isYouTubeUrl url then
              metadata <- fetchVideoMetadata url ;;
              match metadata with
              | Some md =>
                  prettyLink <- lift (createPrettyLink md) ;;
                  visit_all kids ;;;
                  ret prettyLink
              | None => descend
              end
            else descend
        | None => descend
        end
      else descend
  end.

Fixpoint visit_all (l : list Dom.node) : M (list Dom.node) :=
  match l with
  | [] => ret []
  | k :: l' =>
      k' <- visit k ;;
      l'' <- visit_all l' ;;
      ret (k' :: l'')
  end.

(** [processMarkdown(element, context)]: the children of [element]
    after the pass ([querySelectorAll] selects descendants only). *)
Definition processMarkdown (children : list Dom.node) : M (list Dom.node) :=
  visit_all children.

End Plugin.
End VideoPlugin.

(** ** The textual variant ([main.ts]) *)

Module MyPlugin.

Record MyPluginSettings : Type := {
  showThumbnail : bool
}.

Definition DEFAULT_SETTINGS : MyPluginSettings :=
  {| showThumbnail := true |}.

(** [str.replace(pattern, replacement)] with a string pattern: the
    first occurrence is replaced; in the replacement, [$$] is a dollar
    sign, [$&] the matched text, [$`] the text before the match and
    [$'] the text after it (there are no captures, so any other use of
    [$] stands for itself). *)
Fixpoint substitution (before matched after template : jsstring) : jsstring :=
  match template with
  | [] => []
  | c :: rest =>
      if N.eqb c (chr "$") then
        match rest with
        | d :: rest' =>
            if N.eqb d (chr "$") then
              chr "$" :: substitution before matched after rest'
            else if N.eqb d (chr "&") then
              matched ++ substitution before matched after rest'
            else if N.eqb d (chr "`") then
              before ++ substitution before matched after rest'
            else if N.eqb d (chr "'") then
              after ++ substitution before matched after rest'
            else c :: substitution before matched after rest
        | [] => [c]
        end
      else c :: substitution before matched after rest
  end.

Definition replace (str pattern replacement : jsstring) : jsstring :=
  match split_first pattern str with
  | Some (before, after) =>
      before ++ substitution before pattern after replacement ++ after
  | None => str
  end.

Section Plugin.
Context {number : Type} {numeric : Numeric number}.
Local Abbreviation jsval := (jsval number).
Local Abbreviation M := (M number).

Record metadata : Type := {
  title : jsval;
  author_name : jsval;
  thumbnail_url : jsval
}.

Variable settings : MyPluginSettings.

(** [None] is the final [return null]. *)
Definition fetchVideoMetadata (url : jsstring) : M (option metadata) :=
  try_catch
    (encoded <- lift (Uri.encodeURIComponent url) ;;
     response <- fetch (embed_url encoded) ;;
     data <- json response ;;
     if truthy data then
       title <- lift (get data (lit "title")) ;;
       author_name <- lift (get data (lit "author_name")) ;;
       thumbnail_url <- lift (get data (lit "thumbnail_url")) ;;
       ret (Some {| title := title;
                    author_name := author_name;
                    thumbnail_url := thumbnail_url |})
     else
       ret None)
    (fun error =>
       console_error (lit "Error fetching video metadata:") error ;;;
       ret None).

Definition createPrettyLink (md : metadata) : result Dom.node :=
  let container := Dom.createElement (lit "div") in
  let container := Dom.classList_add (lit "video-metadata-container") container in
  let titleElement := Dom.createElement (lit "div") in
  let titleElement := Dom.classList_add (lit "video-title") titleElement in
  rbind (Dom.set_textContent (title md) titleElement)
    (fun titleElement =>
  let authorElement := Dom.createElement (lit "div") in
  let authorElement := Dom.classList_add (lit "video-author") authorElement in
  rbind (toString (author_name md)) (fun author =>
  let authorElement := Dom.setTextContent (lit "by " ++ author) authorElement in
  let container := Dom.appendChild titleElement container in
  let container := Dom.appendChild authorElement container in
  if showThumbnail settings then
    let thumbnailElement := Dom.createElement (lit "img") in
    let thumbnailElement :=
      Dom.classList_add (lit "video-thumbnail") thumbnailElement in
    rbind (Dom.set_src (thumbnail_url md) thumbnailElement)
      (fun thumbnailElement => Ok (Dom.insertFirst thumbnailElement container))
  else Ok container)).

(** The loop over the matches; [innerHTML] is the markup of the
    fragment, read and written back as a string at each replacement
    (the markup is kept as written: the re-serialisation by the HTML
    parser is not represented). *)
Fixpoint process_matches (matches : list jsstring) (innerHTML : jsstring)
  : M jsstring :=
  match matches with
  | [] => ret innerHTML
  | url :: rest =>
      metadata <- fetchVideoMetadata url ;;
      match metadata with
      | Some md =>
          prettyLink <- lift (createPrettyLink md) ;;
          process_matches rest
            (replace innerHTML url (Dom.outerHTML prettyLink))
      | None => process_matches rest innerHTML
      end
  end.

(** [processMarkdown(element, context)], on the markup of [element];
    the result is the markup after the pass. *)
Definition processMarkdown (innerHTML : jsstring) : M jsstring :=
  match Regex.match_all youtubeRegex innerHTML with
  | Some matches => process_matches matches innerHTML
  | None => ret innerHTML
  end.

End Plugin.
End MyPlugin.

(** ** Loading the settings, and the settings tab *)

(** What the data file can hold for the settings: any of the fields
    may be missing. *)
Record StoredSettings : Type := {
  stored_showThumbnail : option bool;
  stored_showChannelIcon : option bool;
  stored_apiKey : option jsstring
}.

Module Settings.

(** [Object.assign({}, defaults, data)]: the fields [data] holds win;
    [null] contributes nothing. *)
Definition assign (defaults : VideoPluginSettings)
  (data : option StoredSettings) : VideoPluginSettings :=
  match data with
  | None => defaults
  | Some d =>
      {| showThumbnail :=
           match stored_showThumbnail d with
           | Some b => b
           | None => showThumbnail defaults
           end;
         showChannelIcon :=
           match stored_showChannelIcon d with
           | Some b => b
           | None => showChannelIcon defaults
           end;
         apiKey :=
           match stored_apiKey d with
           | Some k => k
           | None => apiKey defaults
           end |}
  end.

(** The object [saveData] writes for the settings. *)
Definition stored_of (s : VideoPluginSettings) : StoredSettings :=
  {| stored_showThumbnail := Some (showThumbnail s);
     stored_showChannelIcon := Some (showChannelIcon s);
     stored_apiKey := Some (apiKey s) |}.

Section Settings.
Context {number : Type}.

(** [await this.loadData()]: what was last saved, [null] when nothing
    was. *)
Definition loadData : M number (option StoredSettings) :=
  fun w => (Ok (option_map stored_of (persisted w)), w).

(** [loadSettings()]; the result is the new [this.settings]. *)
Definition loadSettings : M number VideoPluginSettings :=
  data <- loadData ;;
  ret (assign VideoPlugin.DEFAULT_SETTINGS data).

End Settings.
End Settings.

(** The settings tab of the structural variant. *)
Module VideoPlugnSettings.

(** The plugin's settings in memory, and the [display] style of the
    API-key row: [None] while [apiKeySetting] is [null] (before
    [display()]). *)
Record tab : Type := {
  settings : VideoPluginSettings;
  apiKeySetting : option jsstring
}.

(** The constructor. *)
Definition create (s : VideoPluginSettings) : tab :=
  {| settings := s; apiKeySetting := None |}.

Definition toggleApiKeySetting (visible : bool) (t : tab) : tab :=
  match apiKeySetting t with
  | Some _ =>
      {| settings := settings t;
         apiKeySetting := Some (if visible then lit "block" else lit "none") |}
  | None => t
  end.

(** [display()]: the three rows are built, then the API-key row is
    shown or hidden after the channel-icon flag. *)
Definition display (t : tab) : tab :=
  toggleApiKeySetting (showChannelIcon (settings t))
    {| settings := settings t; apiKeySetting := Some [] |}.

(** A change the user makes in the tab. *)
Inductive change : Type :=
| Thumbnail (value : bool)
| ChannelIcon (value : bool)
| ApiKey (value : jsstring).

Section Tab.
Context {number : Type} {numeric : Numeric number}.

(** The [onChange] callbacks. *)
Definition onChange (c : change) (t : tab) : M number tab :=
  match c with
  | Thumbnail value =>
      let t :=
        {| settings := {| showThumbnail := value;
                          showChannelIcon := showChannelIcon (settings t);
                          apiKey := apiKey (settings t) |};
           apiKeySetting := apiKeySetting t |} in
      VideoPlugin.saveSettings (settings t) ;;;
      ret t
  | ChannelIcon value =>
      let t :=
        {| settings := {| showThumbnail := showThumbnail (settings t);
                          showChannelIcon := value;
                          apiKey := apiKey (settings t) |};
           apiKeySetting := apiKeySetting t |} in
      let t := toggleApiKeySetting value t in
      VideoPlugin.saveSettings (settings t) ;;;
      ret t
  | ApiKey value =>
      let t :=
        {| settings := {| showThumbnail := showThumbnail (settings t);
                          showChannelIcon := showChannelIcon (settings t);
                          apiKey := value |};
           apiKeySetting := apiKeySetting t |} in
      VideoPlugin.saveSettings (settings t) ;;;
      ret t
  end.

(** A session in the tab: changes one after the other, each callback
    finished before the next one starts. *)
Fixpoint session (changes : list change) (t : tab) : M number tab :=
  match changes with
  | [] => ret t
  | c :: rest =>
      t' <- onChange c t ;;
      session rest t'
  end.

End Tab.
End VideoPlugnSettings.

(** ** What the specification says a recognized URL is

    The classifier of the specification: the whole string is
    [scheme://[www.]host/path], anchored at its start, with a non-empty
    path free of white space. *)

Definition strip_prefix (p s : jsstring) : option jsstring :=
  if starts_with p s then Some (skipn (length p) s) else None.

Definition schemes : list jsstring := [lit "http"; lit "https"].
Definition www_prefixes : list jsstring := [[]; lit "www."].
Definition hosts : list jsstring := [lit "youtube.com"; lit "youtu.be"].

Definition spec_isVideoUrl (u : jsstring) : bool :=
  existsb (fun scheme =>
  existsb (fun www =>
  existsb (fun host =>
    match strip_prefix (scheme ++ lit "://" ++ www ++ host ++ lit "/") u with
    | Some path => negb (is_empty path) && forallb Regex.not_space path
    | None => false
    end) hosts) www_prefixes) schemes.

(** What the pattern looks for: a recognized URL head followed by one
    character that is not white space. *)
Definition video_url_head (s : jsstring) : Prop :=
  exists scheme www host c,
    s = scheme ++ lit "://" ++ www ++ host ++ lit "/" ++ [c]
    /\ In scheme schemes /\ In www www_prefixes /\ In host hosts
    /\ Regex.is_space c = false.

(** ** Vocabulary for the statements *)

(** The node holds a thumbnail image: an [img] of class
    [video-thumbnail] (the channel icon is an [img] of another class). *)
Definition is_thumbnail (n : Dom.node) : bool :=
  Dom.is_tag (lit "img") n && Dom.has_class (lit "video-thumbnail") n.

Definition has_thumbnail (n : Dom.node) : bool :=
  Dom.contains is_thumbnail n.

(** A world in which nothing has happened yet. *)
Definition fresh_world {number : Type}
  (net : list jsstring -> jsstring -> outcome number) : world number :=
  {| network := net; requests := []; console := []; notices := [];
     saved := [] |}.

(** A request to the embed-info service. *)
Definition is_embed_request (q : jsstring) : bool :=
  starts_with (lit "https://noembed.com/embed?url=") q.

(** A request to one of the two channel-directory endpoints. *)
Definition is_channel_request (q : jsstring) : bool :=
  starts_with (lit "https://www.googleapis.com/youtube/v3/") q.

(** The parsed body the embed-info service returns for [url] in the
    world [w]; [None] when the URL cannot be encoded, the request is
    rejected, or the body is not JSON. *)
Definition embed_body {number : Type} (w : world number) (url : jsstring)
  : option (jsval number) :=
  match Uri.encodeURIComponent url with
  | Ok encoded =>
      match network w (requests w) (embed_url encoded) with
      | Resolved (Response (Some data)) => Some data
      | _ => None
      end
  | Throw _ => None
  end.

(** Reading the first item out of a reply of the channel directory:
    the exception raised on the way (rejected request, body that is not
    JSON, property read on [undefined] or [null]), [Ok None] when the
    body holds no items, [Ok (Some v)] for the value extracted. *)
Definition first_item {number : Type} {numeric : Numeric number}
  (extract : jsval number -> result (jsval number))
  (reply : outcome number) : result (option (jsval number)) :=
  match reply with
  | Rejected => Throw NetworkError
  | Resolved (Response None) => Throw SyntaxError
  | Resolved (Response (Some data)) =>
      rbind (VideoPlugin.has_items data)
        (fun has =>
           if has then rbind (extract data) (fun v => Ok (Some v))
           else Ok None)
  end.

(** The string an assignment to [textContent] writes. *)
Definition text_of {number : Type} {numeric : Numeric number}
  (v : jsval number) : result jsstring :=
  match v with
  | VUndefined | VNull => Ok []
  | _ => toString v
  end.

(** *** Candidate links *)

(** The anchors [querySelectorAll("a")] selects at or below a node, in
    document order. *)
Fixpoint anchors (n : Dom.node) : list Dom.node :=
  match n with
  | Dom.Text _ => []
  | Dom.Element tag _ kids =>
      (if JsString.eqb tag (lit "a") then [n] else [])
      ++ flat_map anchors kids
  end.

(** An anchor the structural pass resolves: its [href] is present,
    non-empty and recognized. *)
Definition is_candidate (n : Dom.node) : bool :=
  match Dom.getAttribute (lit "href") n with
  | Some url => negb (is_empty url) && VideoPlugin.isYouTubeUrl url
  | None => false
  end.

Definition candidates (fragment : list Dom.node) : list Dom.node :=
  filter is_candidate (flat_map anchors fragment).

(** The embed-info request a resolution of [url] sends: none when the
    URL cannot be encoded. *)
Definition embed_requests (url : jsstring) : list jsstring :=
  match Uri.encodeURIComponent url with
  | Ok encoded => [embed_url encoded]
  | Throw _ => []
  end.

(** The [href] of an anchor, empty when it has none. *)
Definition href_of (n : Dom.node) : jsstring :=
  match Dom.getAttribute (lit "href") n with
  | Some url => url
  | None => []
  end.

(** What a structural pass may do to a node: a text node stays; an
    element keeps its tag and attributes, its children being treated
    likewise; a candidate anchor may be replaced by an anchor of class
    [video-metadata-container] with the same [href]. *)
Inductive kept_or_replaced : Dom.node -> Dom.node -> Prop :=
| kept_text d : kept_or_replaced (Dom.Text d) (Dom.Text d)
| kept_element tag attrs kids kids' :
    Forall2 kept_or_replaced kids kids' ->
    kept_or_replaced (Dom.Element tag attrs kids)
      (Dom.Element tag attrs kids')
| replaced n n' :
    Dom.is_tag (lit "a") n = true ->
    is_candidate n = true ->
    Dom.is_tag (lit "a") n' = true ->
    Dom.has_class (lit "video-metadata-container") n' = true ->
    Dom.getAttribute (lit "href") n' = Dom.getAttribute (lit "href") n ->
    kept_or_replaced n n'.

(** *** Places in a fragment *)

(** The node at a place; a place is the list of child indices that
    leads to the node from the fragment. *)
Fixpoint node_at (place : list nat) (fragment : list Dom.node)
  : option Dom.node :=
  match place with
  | [] => None
  | i :: rest =>
      match nth_error fragment i, rest with
      | Some n, [] => Some n
      | Some (Dom.Element _ _ kids), _ => node_at rest kids
      | _, _ => None
      end
  end.

(** An anchor the structural pass resolves. *)
Definition is_candidate_anchor (n : Dom.node) : bool :=
  Dom.is_tag (lit "a") n && is_candidate n.

(** No node above the place is an anchor the structural pass
    resolves. *)
Fixpoint outside_candidates (place : list nat) (fragment : list Dom.node)
  : bool :=
  match place with
  | [] => true
  | i :: rest =>
      match rest, nth_error fragment i with
      | [], _ => true
      | _, Some (Dom.Element tag attrs kids) =>
          negb (is_candidate_anchor (Dom.Element tag attrs kids))
          && outside_candidates rest kids
      | _, _ => true
      end
  end.

Section Before.
Context {number : Type} {numeric : Numeric number}.
Variable settings : VideoPluginSettings.

(** The part of a structural pass that comes before the node at a
    place outside candidates: at each level, the pass over the nodes
    that stand before the one the place goes through. *)
Fixpoint pass_before (place : list nat) (fragment : list Dom.node)
  : M number unit :=
  match place with
  | [] => ret tt
  | i :: rest =>
      VideoPlugin.visit_all settings (firstn i fragment) ;;;
      match nth_error fragment i with
      | Some (Dom.Element _ _ kids) => pass_before rest kids
      | _ => ret tt
      end
  end.

End Before.

(** The characters that end a query parameter. *)
Definition ends_parameter (c : N) : bool :=
  Uri.is_char "&" c || Uri.is_char "#" c.

(** *** Shapes of computations *)

(** A computation that never lets an exception escape. *)
Definition total {number : Type} {A} (c : M number A) : Prop :=
  forall w, exists a w', c w = (Ok a, w').

(** The world [w'] is [w] with requests and console entries appended:
    no notice shown, nothing saved, the network as it was. *)
Definition appends_to {number : Type} (w w' : world number) : Prop :=
  network w' = network w /\ notices w' = notices w /\ saved w' = saved w
  /\ (exists more, requests w' = requests w ++ more)
  /\ (exists logged, console w' = console w ++ logged).

Definition appends {number : Type} {A} (c : M number A) : Prop :=
  forall w, appends_to w (snd (c w)).

(** A computation that lets only the exceptions in [allowed] escape. *)
Definition raises_only {number : Type} {A} (allowed : error -> Prop)
  (c : M number A) : Prop :=
  forall (w : world number) e, fst (c w) = Throw e -> allowed e.

(** *** Worlds for concrete runs *)

Module Sample.

Definition jsval : Type := JsValue.jsval Numberless.number.
Definition world : Type := Host.world Numberless.number.

Definition str (s : string) : jsval := VStr (lit s).

Definition obj (fields : list (string * jsval)) : jsval :=
  VObj (map (fun kv => (lit (fst kv), snd kv)) fields).

(** The service's answer for a link it does not know. *)
Definition error_body : jsval :=
  obj [("error", str "no matching providers found");
       ("url", str "https://youtu.be/a")]%string.

Definition error_world : world :=
  fresh_world (fun _ _ => Resolved (Response (Some error_body))).

(** The service's answer for a video it knows. *)
Definition video_body : jsval :=
  obj [("title", str "A video");
       ("author_name", str "An author");
       ("author_url", str "https://www.youtube.com/@author");
       ("thumbnail_url", str "https://i.ytimg.com/vi/a/hqdefault.jpg")]%string.

Definition video_world : world :=
  fresh_world (fun _ _ => Resolved (Response (Some video_body))).

Definition icon_off : VideoPluginSettings :=
  {| showThumbnail := true; showChannelIcon := false; apiKey := lit "KEY" |}.

(** A directory that knows no channel: every answer is [{items: []}]. *)
Definition no_items_world : world :=
  fresh_world
    (fun _ _ => Resolved (Response (Some (obj [("items", VArr [])]%string)))).

(** Markup written with apostrophes for the double quotes. *)
Definition html (s : string) : jsstring :=
  map (fun c => if N.eqb c (chr "'") then Dom.quote else c) (lit s).

Definition titled (title : string) : jsval :=
  obj [("title", str title);
       ("author_name", str "An author");
       ("thumbnail_url", str "https://i.ytimg.com/vi/a/hqdefault.jpg")]%string.

(** A network that rejects the first request and answers the later
    ones. *)
Definition flaky_world : world :=
  fresh_world
    (fun history _ =>
       match history with
       | [] => Rejected
       | _ => Resolved (Response (Some video_body))
       end).

(** A video whose title quotes the link of another video. *)
Definition quoting_world : world :=
  fresh_world
    (fun _ request =>
       if JsString.eqb request
            (lit "https://noembed.com/embed?url=https%3A%2F%2Fyoutu.be%2Fa")
       then Resolved (Response (Some (titled "Watch https://youtu.be/b next")))
       else Resolved (Response (Some (titled "B")))).


(** A network that answers the first request and rejects the later
    ones. *)
Definition failing_later_world : world :=
  fresh_world
    (fun history _ =>
       match history with
       | [] => Resolved (Response (Some video_body))
       | _ => Rejected
       end).

(** A rendered link to another video. *)
Definition other_link : Dom.node :=
  Dom.Element (lit "a") [(lit "href", lit "https://youtu.be/b")]
    [Dom.Text (lit "https://youtu.be/b")].

(** A rendered link to a video. *)
Definition video_link : Dom.node :=
  Dom.Element (lit "a") [(lit "href", lit "https://youtu.be/a")]
    [Dom.Text (lit "https://youtu.be/a")].

(** A rendered paragraph with a link to another site. *)
Definition plain_paragraph : Dom.node :=
  Dom.Element (lit "p") []
    [Dom.Text (lit "see ");
     Dom.Element (lit "a") [(lit "href", lit "https://example.com/")]
       [Dom.Text (lit "this page")]].

(** The markup the textual pass leaves for a bare link to a video. *)
Definition replaced_markup : jsstring :=
  html "<div class='video-metadata-container'><img class='video-thumbnail' src='https://i.ytimg.com/vi/a/hqdefault.jpg'><div class='video-title'>A video</div><div class='video-author'>by An author</div></div>".

(** Success values of a run, for statements about concrete runs. *)
Definition value {A} (default : A) (run : result A * world) : A :=
  match fst run with
  | Ok a => a
  | Throw _ => default
  end.

End Sample.

(** *** Rendered nodes and settings *)

(** [node.textContent]: the text of the descendants, in document
    order. *)
Fixpoint textContent (n : Dom.node) : jsstring :=
  match n with
  | Dom.Text d => d
  | Dom.Element _ _ kids => flat_map textContent kids
  end.

(** The node holds a channel icon: an [img] of class [channel-icon]. *)
Definition is_channel_icon (n : Dom.node) : bool :=
  Dom.is_tag (lit "img") n && Dom.has_class (lit "channel-icon") n.

Definition has_channel_icon (n : Dom.node) : bool :=
  Dom.contains is_channel_icon n.

(** Settings [saveSettings] accepts: a channel icon comes with an API
    key. *)
Definition accepted (s : VideoPluginSettings) : bool :=
  negb (showChannelIcon s && is_empty (apiKey s)).

(** The notice [saveSettings] shows when it refuses. *)
Definition refusal : jsstring :=
  lit "API Key is required when Channel Icon is enabled.".

(** The settings a change in the tab asks for. *)
Definition changed (c : VideoPlugnSettings.change) (s : VideoPluginSettings)
  : VideoPluginSettings :=
  match c with
  | VideoPlugnSettings.Thumbnail value =>
      {| showThumbnail := value;
         showChannelIcon := showChannelIcon s;
         apiKey := apiKey s |}
  | VideoPlugnSettings.ChannelIcon value =>
      {| showThumbnail := showThumbnail s;
         showChannelIcon := value;
         apiKey := apiKey s |}
  | VideoPlugnSettings.ApiKey value =>
      {| showThumbnail := showThumbnail s;
         showChannelIcon := showChannelIcon s;
         apiKey := value |}
  end.

(** The settings a session in the tab goes through, one per change. *)
Fixpoint states (changes : list VideoPlugnSettings.change)
  (s : VideoPluginSettings) : list VideoPluginSettings :=
  match changes with
  | [] => []
  | c :: rest => changed c s :: states rest (changed c s)
  end.

(** More worlds for concrete runs. *)
Module Runs.
Import Sample.

(** A channel directory that knows the author. *)
Definition search_body : jsval :=
  obj [("items",
        VArr [obj [("snippet", obj [("channelId", str "UC1")])]])]%string.

Definition channels_body : jsval :=
  obj [("items",
        VArr [obj [("snippet",
                    obj [("thumbnails",
                          obj [("default",
                                obj [("url", str "https://yt3.ggpht.com/i.jpg")])])])]])]%string.

Definition directory_world : world :=
  fresh_world
    (fun _ request =>
       if starts_with (lit "https://noembed.com/") request then
         Resolved (Response (Some video_body))
       else if starts_with
                 (lit "https://www.googleapis.com/youtube/v3/search") request
       then Resolved (Response (Some search_body))
       else Resolved (Response (Some channels_body))).

(** A rendered paragraph with a link to a video. *)
Definition linking_paragraph : Dom.node :=
  Dom.Element (lit "p") [] [Dom.Text (lit "see "); video_link].

Definition icon_on : VideoPluginSettings :=
  {| showThumbnail := true; showChannelIcon := true; apiKey := lit "KEY" |}.

(** A response whose title cannot be converted to a string. *)
Definition unprintable_world : world :=
  fresh_world
    (fun _ _ =>
       Resolved (Response (Some
         (obj [("title", obj [("toString", str "x")]);
               ("author_name", str "An author")]%string)))).

(** The record [fetchVideoMetadata] returns in [video_world] with the
    channel icon off, and the node built from it. *)
Definition video_metadata : VideoPlugin.metadata :=
  {| VideoPlugin.title := str "A video";
     VideoPlugin.author_name := str "An author";
     VideoPlugin.thumbnail_url := str "https://i.ytimg.com/vi/a/hqdefault.jpg";
     VideoPlugin.url := lit "https://youtu.be/a";
     VideoPlugin.channel_icon_url := VNull |}.

Definition video_node : Dom.node :=
  value (Dom.Text []) (VideoPlugin.createPrettyLink icon_off video_metadata,
                       video_world).

(** The record [fetchVideoMetadata] returns in [directory_world] with
    the channel icon on, and the node built from it. *)
Definition icon_metadata : VideoPlugin.metadata :=
  {| VideoPlugin.title := str "A video";
     VideoPlugin.author_name := str "An author";
     VideoPlugin.thumbnail_url := str "https://i.ytimg.com/vi/a/hqdefault.jpg";
     VideoPlugin.url := lit "https://youtu.be/a";
     VideoPlugin.channel_icon_url := str "https://yt3.ggpht.com/i.jpg" |}.

Definition icon_node : Dom.node :=
  value (Dom.Text []) (VideoPlugin.createPrettyLink icon_on icon_metadata,
                       directory_world).

End Runs.

(** * Properties *)

(** ** Prefixes *)

Module StringFacts.

Lemma starts_with_app p : forall s, starts_with p (p ++ s) = true.
Proof.
  induction p as [| c p IH]; intro s; simpl; [reflexivity |].
  now rewrite N.eqb_refl, IH.
Qed.

Lemma starts_with_inv p : forall s,
  starts_with p s = true -> exists r, s = p ++ r.
Proof.
  induction p as [| c p IH]; intros s H; simpl in *.
  - now exists s.
  - destruct s as [| x s]; [discriminate |].
    apply andb_true_iff in H. destruct H as [Hx Hs].
    apply N.eqb_eq in Hx. subst. destruct (IH _ Hs) as (r & ->).
    now exists r.
Qed.

Lemma skipn_prefix (p r : jsstring) : skipn (length p) (p ++ r) = r.
Proof. induction p as [| c p IH]; [reflexivity | exact IH]. Qed.

Lemma strip_prefix_some p s rest :
  strip_prefix p s = Some rest -> s = p ++ rest.
Proof.
  unfold strip_prefix. destruct (starts_with p s) eqn:H; [| discriminate].
  apply starts_with_inv in H. destruct H as (r & ->).
  intros [= <-]. now rewrite skipn_prefix.
Qed.

(** [split_first] cuts the string at an occurrence of the pattern. *)
Lemma split_first_occurrence p : forall s before after,
  split_first p s = Some (before, after) -> s = before ++ p ++ after.
Proof.
  induction s as [| c s IH]; intros before after; simpl.
  - destruct p as [| x p]; simpl; [| discriminate].
    now intros [= <- <-].
  - destruct (starts_with p (c :: s)) eqn:Hp.
    + intros [= <- <-]. apply starts_with_inv in Hp. destruct Hp as (r & Hr).
      rewrite Hr, skipn_prefix. reflexivity.
    + destruct (split_first p s) as [[b a] |] eqn:Hs; [| discriminate].
      intros [= <- <-]. simpl. f_equal. now apply IH.
Qed.

(** The occurrence it cuts at is the first one. *)
Lemma split_first_leftmost p : forall s before after,
  split_first p s = Some (before, after) ->
  forall before' after', s = before' ++ p ++ after' ->
  (length before <= length before')%nat.
Proof.
  induction s as [| c s IH]; intros before after; simpl.
  - destruct (starts_with p []); [| discriminate].
    intros [= <- <-] before' after' _. simpl. lia.
  - destruct (starts_with p (c :: s)) eqn:Hp.
    + intros [= <- <-] before' after' _. simpl. lia.
    + destruct (split_first p s) as [[b a] |] eqn:Hs; [| discriminate].
      intros [= <- <-] before' after' Hocc.
      destruct before' as [| x before'].
      * simpl in Hocc. rewrite Hocc, starts_with_app in Hp. discriminate.
      * injection Hocc as _ Hocc. simpl.
        apply le_n_S. eapply IH; [reflexivity | exact Hocc].
Qed.

End StringFacts.

(** ** The matcher accepts the language of the pattern *)

Module RegexFacts.
Import Regex.

Lemma orelse_some a b : orelse a b <> None <-> a <> None \/ b <> None.
Proof.
  destruct a; simpl; split; intro H.
  - left; discriminate.
  - discriminate.
  - now right.
  - destruct H as [H | H]; [now elim H | exact H].
Qed.

Lemma progress_some s k s' :
  progress s k s' <> None <-> (length s' < length s)%nat /\ k s' <> None.
Proof.
  unfold progress. destruct (Nat.ltb_spec (length s') (length s)); split.
  - intro; now split.
  - now intros [_ ?].
  - intro H'; now elim H'.
  - intros [? _]; lia.
Qed.

Section Star.
Variable mr : cont -> cont.
Variable P : jsstring -> Prop.
Hypothesis mr_spec : forall k s,
  mr k s <> None <-> exists s1 s2, s = s1 ++ s2 /\ P s1 /\ k s2 <> None.

Lemma star_loop_sound k n : forall s,
  star_loop mr k n s <> None ->
  exists s1 s2, s = s1 ++ s2 /\ star P s1 /\ k s2 <> None.
Proof.
  induction n as [| n IH]; simpl; intros s H.
  - exists [], s. repeat split; [constructor | exact H].
  - apply orelse_some in H. destruct H as [H | H].
    + apply mr_spec in H. destruct H as (s1 & s2 & -> & Hp & Hk).
      apply progress_some in Hk. destruct Hk as [_ Hk].
      apply IH in Hk. destruct Hk as (t1 & t2 & -> & Hs & Hk).
      exists (s1 ++ t1), t2. rewrite app_assoc.
      repeat split; [now constructor | exact Hk].
    + exists [], s. repeat split; [constructor | exact H].
Qed.

Lemma star_loop_complete k s1 s2 :
  star P s1 -> k s2 <> None ->
  forall n, (length (s1 ++ s2) <= n)%nat -> star_loop mr k n (s1 ++ s2) <> None.
Proof.
  intros Hs Hk. induction Hs as [| p q Hp Hq IH]; intros n Hn.
  - simpl. destruct n; simpl; [exact Hk |].
    apply orelse_some. now right.
  - destruct p as [| c p].
    + simpl. now apply IH.
    + destruct n as [| n]; [simpl in Hn; lia |].
      simpl star_loop. apply orelse_some. left.
      apply mr_spec. exists (c :: p), (q ++ s2).
      split; [now rewrite <- app_assoc |]. split; [exact Hp |].
      apply progress_some. split.
      * simpl. rewrite !length_app. lia.
      * apply IH. simpl in Hn. rewrite !length_app in *. lia.
Qed.

End Star.

Theorem run_spec r : forall k s,
  run r k s <> None <->
  exists s1 s2, s = s1 ++ s2 /\ lang r s1 /\ k s2 <> None.
Proof.
  induction r as [| c | p | r1 IH1 r2 IH2 | r1 IH1 r2 IH2 | r1 IH1 | r1 IH1];
    intros k s; simpl.
  - split.
    + intro H. now exists [], s.
    + intros (s1 & s2 & -> & -> & H). exact H.
  - destruct s as [| x s].
    + split; [intro H; now elim H |].
      intros (s1 & s2 & E & -> & _). discriminate.
    + destruct (N.eqb_spec x c) as [-> | Hne]; split.
      * intro H. now exists [c], s.
      * intros (s1 & s2 & E & -> & H). now injection E as <-.
      * intro H; now elim H.
      * intros (s1 & s2 & E & -> & _). injection E as ? _. contradiction.
  - destruct s as [| x s].
    + split; [intro H; now elim H |].
      intros (s1 & s2 & E & (c & -> & _) & _). discriminate.
    + destruct (p x) eqn:Hp; split.
      * intro H. exists [x], s. repeat split; [now exists x | exact H].
      * intros (s1 & s2 & E & (c & -> & _) & H). now injection E as _ <-.
      * intro H; now elim H.
      * intros (s1 & s2 & E & (c & -> & Hc) & _). injection E as -> _.
        congruence.
  - rewrite IH1. split.
    + intros (s1 & s2 & -> & H1 & H2). apply IH2 in H2.
      destruct H2 as (t1 & t2 & -> & H2 & Hk).
      exists (s1 ++ t1), t2. rewrite app_assoc. repeat split; [| exact Hk].
      now exists s1, t1.
    + intros (s12 & s3 & -> & (s1 & s2 & -> & H1 & H2) & Hk).
      exists s1, (s2 ++ s3). rewrite app_assoc. repeat split; [exact H1 |].
      apply IH2. now exists s2, s3.
  - rewrite orelse_some, IH1, IH2. split.
    + intros [(s1 & s2 & E & H & Hk) | (s1 & s2 & E & H & Hk)];
        exists s1, s2; tauto.
    + intros (s1 & s2 & E & [H | H] & Hk); [left | right]; now exists s1, s2.
  - rewrite orelse_some, IH1. split.
    + intros [(s1 & s2 & E & H & Hk) | Hk].
      * apply progress_some in Hk. exists s1, s2. tauto.
      * now exists [], s; auto.
    + intros (s1 & s2 & -> & [-> | H] & Hk); [now right |].
      destruct s1 as [| c s1]; [now right |]. left.
      exists (c :: s1), s2. repeat split; [exact H |].
      apply progress_some. split; [| exact Hk].
      simpl. rewrite length_app. lia.
  - split.
    + apply star_loop_sound with (P := lang r1). exact IH1.
    + intros (s1 & s2 & -> & Hs & Hk).
      apply star_loop_complete with (P := lang r1); auto.
Qed.

Lemma match_here_spec r s :
  match_here r s <> None <-> exists s1 s2, s = s1 ++ s2 /\ lang r s1.
Proof.
  unfold match_here. rewrite run_spec. split.
  - intros (s1 & s2 & E & H & _). now exists s1, s2.
  - intros (s1 & s2 & E & H). exists s1, s2. repeat split; auto. discriminate.
Qed.

Lemma exec_spec r : forall s,
  exec r s <> None <->
  exists pre mid post, s = pre ++ mid ++ post /\ lang r mid.
Proof.
  induction s as [| c s IH].
  - simpl. destruct (match_here r []) eqn:E.
    + split; [intros _ | discriminate].
      assert (H : match_here r [] <> None) by congruence.
      apply match_here_spec in H. destruct H as (s1 & s2 & E' & H).
      now exists [], s1, s2.
    + split; [intro H; now elim H |].
      intros (pre & mid & post & E' & H).
      destruct pre; [| discriminate]. simpl in E'.
      assert (H' : match_here r [] <> None)
        by (apply match_here_spec; now exists mid, post).
      congruence.
  - simpl. destruct (match_here r (c :: s)) eqn:E.
    + split; [intros _ | discriminate].
      assert (H : match_here r (c :: s) <> None) by congruence.
      apply match_here_spec in H. destruct H as (s1 & s2 & E' & H).
      now exists [], s1, s2.
    + split.
      * intro H. assert (H2 : exec r s <> None).
        { intro E2. rewrite E2 in H. now elim H. }
        apply IH in H2. destruct H2 as (pre & mid & post & -> & Hl).
        now exists (c :: pre), mid, post.
      * intros (pre & mid & post & E' & H).
        destruct pre as [| x pre].
        -- simpl in E'.
           assert (H' : match_here r (c :: s) <> None)
             by (apply match_here_spec; now exists mid, post).
           congruence.
        -- injection E' as -> ->.
           assert (H2 : exec r (pre ++ mid ++ post) <> None)
             by (apply IH; now exists pre, mid, post).
           destruct (exec r (pre ++ mid ++ post)) as [[[sk m] rest] |];
             [discriminate | now elim H2].
Qed.

Theorem test_spec r s :
  test r s = true <->
  exists pre mid post, s = pre ++ mid ++ post /\ lang r mid.
Proof.
  rewrite <- exec_spec. unfold test.
  destruct (exec r s); split; try discriminate; auto;
    intro H; now elim H.
Qed.

Lemma lang_Str p : forall s, lang (Str p) s <-> s = p.
Proof.
  induction p as [| c p IH]; intro s; simpl.
  - tauto.
  - split.
    + intros (s1 & s2 & -> & -> & H). apply IH in H. now subst.
    + intros ->. exists [c], p. repeat split. now apply IH.
Qed.

Lemma lang_Plus_class p s :
  lang (Plus (Class p)) s -> exists c rest, s = c :: rest /\ p c = true.
Proof.
  simpl. intros (s1 & s2 & -> & (c & -> & Hc) & _). now exists c, s2.
Qed.

Lemma lang_Plus_class_one (p : N -> bool) c :
  p c = true -> lang (Plus (Class p)) [c].
Proof.
  intro H. simpl. exists [c], []. repeat split; [now exists c | constructor].
Qed.

End RegexFacts.

(** ** The URL classifier *)

Module Classifier.
Import Regex RegexFacts.

Lemma not_space_false c : not_space c = true <-> is_space c = false.
Proof. unfold not_space. destruct (is_space c); simpl; split; congruence. Qed.

Lemma lang_youtubeRegex_elim mid :
  lang youtubeRegex mid ->
  exists head rest, mid = head ++ rest /\ video_url_head head.
Proof.
  unfold youtubeRegex. cbn [lang].
  intros (a & s1 & -> & Ha & b & s2 & -> & Hb & c & s3 & -> & Hc
          & d & s4 & -> & Hd & e & s5 & -> & He & f & s6 & -> & Hf & Hg).
  apply lang_Str in Ha, Hc. apply lang_Plus_class in Hg.
  destruct Hg as (x & rest & -> & Hx). apply not_space_false in Hx.
  exists ((a ++ b) ++ lit "://" ++ d ++ e ++ lit "/" ++ [x]), rest.
  split.
  - subst a c f. repeat rewrite <- app_assoc. reflexivity.
  - exists (a ++ b), d, e, x. repeat split; [ | | | exact Hx].
    + subst a. destruct Hb as [-> | ->]; [left | right; left]; reflexivity.
    + destruct Hd as [-> | Hd]; [now left |].
      apply lang_Str in Hd. right; now left.
    + destruct He as [He | He]; apply lang_Str in He;
        [left | right; left]; now subst.
Qed.

Lemma lang_youtubeRegex_intro head :
  video_url_head head -> lang youtubeRegex head.
Proof.
  intros (scheme & www & host & c & -> & Hs & Hw & Hh & Hc).
  apply not_space_false in Hc.
  assert (Hs' : exists b, scheme = lit "http" ++ b /\ (b = [] \/ b = [chr "s"])).
  { destruct Hs as [<- | [<- | []]];
      [exists [] | exists [chr "s"]]; split; auto. }
  destruct Hs' as (b & -> & Hb).
  unfold youtubeRegex. cbn [lang].
  exists (lit "http"), (b ++ lit "://" ++ www ++ host ++ lit "/" ++ [c]).
  split; [now rewrite <- app_assoc |]. split; [now apply lang_Str |].
  exists b, (lit "://" ++ www ++ host ++ lit "/" ++ [c]).
  split; [reflexivity |]. split; [exact Hb |].
  exists (lit "://"), (www ++ host ++ lit "/" ++ [c]).
  split; [reflexivity |]. split; [now apply lang_Str |].
  exists www, (host ++ lit "/" ++ [c]).
  split; [reflexivity |]. split.
  { destruct Hw as [<- | [<- | []]]; [now left | right; now apply lang_Str]. }
  exists host, (lit "/" ++ [c]).
  split; [reflexivity |]. split.
  { destruct Hh as [<- | [<- | []]]; [left | right]; now apply lang_Str. }
  exists [chr "/"], [c].
  split; [reflexivity |]. split; [reflexivity |].
  now apply lang_Plus_class_one.
Qed.

(** Claim C2, as the code has it: the classifier answers [true] exactly
    for the strings that contain, at any position, [http] or [https],
    [://], an optional [www.], [youtube.com] or [youtu.be], a slash and
    one more character that is not white space. It is a total function:
    every string gets an answer. *)
Theorem isYouTubeUrl_iff_contains (u : jsstring) :
  VideoPlugin.isYouTubeUrl u = true <->
  exists pre head post, u = pre ++ head ++ post /\ video_url_head head.
Proof.
  unfold VideoPlugin.isYouTubeUrl. rewrite test_spec. split.
  - intros (pre & mid & post & -> & H).
    apply lang_youtubeRegex_elim in H. destruct H as (head & rest & -> & H).
    exists pre, head, (rest ++ post). now rewrite <- app_assoc.
  - intros (pre & head & post & -> & H).
    exists pre, head, post. split; [reflexivity |].
    now apply lang_youtubeRegex_intro.
Qed.

(** Claim C2 as stated fails: a string whose own host is another site
    and which merely embeds a recognized URL is classified [true],
    although it is not an anchored [scheme://[www.]host/path]. *)
Lemma isYouTubeUrl_embedded_url :
  VideoPlugin.isYouTubeUrl (lit "https://example.com/?u=https://youtu.be/x") = true
  /\ spec_isVideoUrl (lit "https://example.com/?u=https://youtu.be/x") = false.
Proof. split; vm_compute; reflexivity. Qed.

(** A host that merely contains the domain, in a string that embeds no
    recognized URL, is rejected; an anchored URL is accepted. *)
Example isYouTubeUrl_samples :
  VideoPlugin.isYouTubeUrl (lit "https://notyoutube.com/watch") = false
  /\ VideoPlugin.isYouTubeUrl (lit "https://youtube.com.example.org/watch") = false
  /\ VideoPlugin.isYouTubeUrl (lit "https://www.youtube.com/watch?v=abc#t=1") = true
  /\ VideoPlugin.isYouTubeUrl (lit "ftp://youtube.com/watch") = false
  /\ VideoPlugin.isYouTubeUrl (lit "https://youtu.be/") = false
  /\ VideoPlugin.isYouTubeUrl [] = false.
Proof. repeat split; vm_compute; reflexivity. Qed.

(** Every string the specification's anchored classifier accepts is
    accepted by the code. *)
Lemma spec_isVideoUrl_accepted u :
  spec_isVideoUrl u = true -> VideoPlugin.isYouTubeUrl u = true.
Proof.
  unfold spec_isVideoUrl. intro H.
  apply existsb_exists in H. destruct H as (scheme & Hscheme & H).
  apply existsb_exists in H. destruct H as (www & Hwww & H).
  apply existsb_exists in H. destruct H as (host & Hhost & H).
  destruct (strip_prefix (scheme ++ lit "://" ++ www ++ host ++ lit "/") u)
    as [path |] eqn:Hstrip; [| discriminate].
  apply StringFacts.strip_prefix_some in Hstrip.
  destruct path as [| c rest]; [discriminate |].
  simpl in H. apply andb_true_iff in H. destruct H as [Hc _].
  unfold VideoPlugin.isYouTubeUrl. apply test_spec.
  exists [], (scheme ++ lit "://" ++ www ++ host ++ lit "/" ++ [c]), rest.
  split.
  - rewrite Hstrip, app_nil_l, <- !app_assoc. reflexivity.
  - apply lang_youtubeRegex_intro.
    exists scheme, www, host, c. repeat split; auto.
    now apply not_space_false.
Qed.

End Classifier.

(** ** The monad *)

Module HostFacts.
Section HostFacts.
Context {number : Type} {numeric : Numeric number}.

Lemma total_ret {A} (a : A) : total (ret (number := number) a).
Proof. intro w. now exists a, w. Qed.

Lemma total_bind {A B} (c : M number A) (f : A -> M number B) :
  total c -> (forall a, total (f a)) -> total (bind c f).
Proof.
  intros Hc Hf w. unfold bind. destruct (Hc w) as (a & w1 & ->).
  apply Hf.
Qed.

Lemma total_console_error label e :
  total (console_error (number := number) label e).
Proof. intro w. unfold console_error. eauto. Qed.

(** A handler that cannot throw makes the whole [try] total. *)
Lemma total_try_catch {A} (body : M number A) handler :
  (forall e, total (handler e)) -> total (try_catch body handler).
Proof.
  intros Hh w. unfold try_catch. destruct (body w) as [[a | e] w1].
  - now exists a, w1.
  - apply Hh.
Qed.

End HostFacts.
End HostFacts.

(** ** Saving the settings *)

Module SettingsFacts.
Section SettingsFacts.
Context {number : Type} {numeric : Numeric number}.

(** Claim C4: [saveSettings] never throws and touches neither the
    network nor the console. When the channel icon is enabled and the
    API key is the empty string, [saveData] is not called (the persisted
    configuration stays what it was) and the notice is shown; in every
    other case [saveData] is called with the settings, which become the
    persisted configuration, and no notice is shown. *)
Theorem saveSettings_rejects_exactly_without_key
  (settings : VideoPluginSettings) (w : world number) :
  let w' := snd (VideoPlugin.saveSettings settings w) in
  fst (VideoPlugin.saveSettings settings w) = Ok tt
  /\ requests w' = requests w /\ console w' = console w
  /\ (showChannelIcon settings = true /\ apiKey settings = [] ->
      saved w' = saved w /\ persisted w' = persisted w
      /\ notices w' =
         notices w ++ [lit "API Key is required when Channel Icon is enabled."])
  /\ (~ (showChannelIcon settings = true /\ apiKey settings = []) ->
      saved w' = saved w ++ [settings] /\ persisted w' = Some settings
      /\ notices w' = notices w).
Proof.
  assert (Hlast : forall l (s : VideoPluginSettings),
             match rev (l ++ [s]) with x :: _ => Some x | [] => None end
             = Some s)
    by (intros; now rewrite rev_app_distr).
  unfold VideoPlugin.saveSettings, persisted.
  destruct (showChannelIcon settings) eqn:Hicon;
    destruct (apiKey settings) as [| c key] eqn:Hkey; simpl;
    (split; [reflexivity |]); (split; [reflexivity |]);
    (split; [reflexivity |]); split;
    try (intros [? ?]; discriminate);
    try (intro H; exfalso; apply H; now split);
    intros _; auto.
Qed.

End SettingsFacts.

(** Runs of claim C4: the default settings (icon on, no key) are
    refused; the same settings with the icon off are saved. *)
Lemma saveSettings_runs :
  (saved (snd (VideoPlugin.saveSettings VideoPlugin.DEFAULT_SETTINGS
                 Sample.video_world)) = []
   /\ notices (snd (VideoPlugin.saveSettings VideoPlugin.DEFAULT_SETTINGS
                      Sample.video_world))
      = [lit "API Key is required when Channel Icon is enabled."])
  /\ (persisted (snd (VideoPlugin.saveSettings Sample.icon_off
                        Sample.video_world)) = Some Sample.icon_off
      /\ notices (snd (VideoPlugin.saveSettings Sample.icon_off
                         Sample.video_world)) = []).
Proof.
  split.
  - destruct (saveSettings_rejects_exactly_without_key
                VideoPlugin.DEFAULT_SETTINGS Sample.video_world)
      as (_ & _ & _ & Hrefused & _).
    destruct Hrefused as (Hsaved & _ & Hnotice); [now split |].
    split; [exact Hsaved | exact Hnotice].
  - destruct (saveSettings_rejects_exactly_without_key
                Sample.icon_off Sample.video_world)
      as (_ & _ & _ & _ & Hsaved).
    destruct Hsaved as (_ & Hpersisted & Hnotice);
      [intros [Hicon _]; discriminate |].
    split; [exact Hpersisted | exact Hnotice].
Defined.

End SettingsFacts.

(** ** Metadata and channel-icon resolution *)

Module ResolverFacts.
Import HostFacts.

Section ResolverFacts.
Context {number : Type} {numeric : Numeric number}.
Local Abbreviation jsval := (jsval number).
Local Abbreviation world := (world number).

Lemma bind_lift {A B} (r : result A) (f : A -> M number B) w :
  bind (lift r) f w =
  match r with Ok a => f a w | Throw e => (Throw e, w) end.
Proof. now destruct r. Qed.

Lemma get_truthy (v : jsval) k : truthy v = true -> exists x, get v k = Ok x.
Proof. destruct v; simpl; try discriminate; eauto. Qed.

(** No request is both an embed-info request and a channel-directory
    request. *)
Lemma embed_request_not_channel q :
  is_embed_request q = true -> is_channel_request q = false.
Proof.
  intro H. apply StringFacts.starts_with_inv in H. destruct H as (r & ->).
  reflexivity.
Qed.

Variable settings : VideoPluginSettings.

Lemma fetchChannelIcon_total v :
  total (VideoPlugin.fetchChannelIcon settings v).
Proof.
  unfold VideoPlugin.fetchChannelIcon. apply total_bind.
  - apply total_try_catch. intro e. apply total_bind.
    + apply total_console_error.
    + intros _. apply total_ret.
  - intros [icon |]; apply total_ret.
Qed.

Lemma fetchVideoMetadata_total url :
  total (VideoPlugin.fetchVideoMetadata settings url).
Proof.
  apply total_try_catch. intro e. apply total_bind.
  - apply total_console_error.
  - intros _. apply total_ret.
Qed.

Lemma MyPlugin_fetchVideoMetadata_total url :
  total (MyPlugin.fetchVideoMetadata (number := number) url).
Proof.
  apply total_try_catch. intro e. apply total_bind.
  - apply total_console_error.
  - intros _. apply total_ret.
Qed.


Ltac caught :=
  unfold bind, console_error, ret; simpl;
  do 2 eexists; split; reflexivity.

(** What [fetchVideoMetadata] of the structural variant returns, by
    what the embed-info service answered. *)
Lemma fetchVideoMetadata_result url (w : world) :
  exists r w',
    VideoPlugin.fetchVideoMetadata settings url w = (Ok r, w')
    /\ match embed_body w url with
       | None => r = None
       | Some data =>
           if truthy data then
             exists md, r = Some md
               /\ get data (lit "title") = Ok (VideoPlugin.title md)
               /\ get data (lit "author_name") = Ok (VideoPlugin.author_name md)
               /\ get data (lit "thumbnail_url")
                  = Ok (VideoPlugin.thumbnail_url md)
               /\ VideoPlugin.url md = url
           else r = None
       end.
Proof.
  unfold VideoPlugin.fetchVideoMetadata, embed_body, try_catch.
  rewrite bind_lift.
  destruct (Uri.encodeURIComponent url) as [encoded | e]; [| caught].
  unfold bind at 1. unfold fetch at 1.
  destruct (network w (requests w) (embed_url encoded))
    as [| [[data |]]]; [caught | | caught].
  unfold json. unfold bind at 1. unfold ret at 1.
  destruct (truthy data) eqn:Ht; [| unfold ret; eauto].
  destruct (get_truthy data (lit "title") Ht) as (t & Hget_t).
  destruct (get_truthy data (lit "author_name") Ht) as (a & Hget_a).
  destruct (get_truthy data (lit "thumbnail_url") Ht) as (th & Hget_th).
  destruct (get_truthy data (lit "author_url") Ht) as (au & Hget_au).
  unfold bind at 1.
  match goal with
  | |- context [match ?c ?w0 with _ => _ end] =>
      assert (Hicon : exists icon w2, c w0 = (Ok icon, w2))
  end.
  { destruct (showChannelIcon settings).
    - rewrite bind_lift, Hget_au. apply fetchChannelIcon_total.
    - unfold ret. eauto. }
  destruct Hicon as (icon & w2 & ->).
  rewrite !bind_lift, Hget_t. rewrite !bind_lift, Hget_a.
  rewrite !bind_lift, Hget_th. unfold ret.
  do 2 eexists. split; [reflexivity |].
  eexists. split; [reflexivity |]. simpl. auto.
Qed.

(** The same for the textual variant. *)
Lemma MyPlugin_fetchVideoMetadata_result url (w : world) :
  exists r w',
    MyPlugin.fetchVideoMetadata url w = (Ok r, w')
    /\ match embed_body w url with
       | None => r = None
       | Some data =>
           if truthy data then
             exists md, r = Some md
               /\ get data (lit "title") = Ok (MyPlugin.title md)
               /\ get data (lit "author_name") = Ok (MyPlugin.author_name md)
               /\ get data (lit "thumbnail_url")
                  = Ok (MyPlugin.thumbnail_url md)
           else r = None
       end.
Proof.
  unfold MyPlugin.fetchVideoMetadata, embed_body, try_catch.
  rewrite bind_lift.
  destruct (Uri.encodeURIComponent url) as [encoded | e]; [| caught].
  unfold bind at 1. unfold fetch at 1.
  destruct (network w (requests w) (embed_url encoded))
    as [| [[data |]]]; [caught | | caught].
  unfold json. unfold bind at 1. unfold ret at 1.
  destruct (truthy data) eqn:Ht; [| unfold ret; eauto].
  destruct (get_truthy data (lit "title") Ht) as (t & Hget_t).
  destruct (get_truthy data (lit "author_name") Ht) as (a & Hget_a).
  destruct (get_truthy data (lit "thumbnail_url") Ht) as (th & Hget_th).
  rewrite !bind_lift, Hget_t. rewrite !bind_lift, Hget_a.
  rewrite !bind_lift, Hget_th. unfold ret.
  do 2 eexists. split; [reflexivity |].
  eexists. split; [reflexivity |]. simpl. auto.
Qed.


(** The identifier lookup on a value that converts to a string (a
    string converts to itself): one request, built by plain
    concatenation; an exception is caught, logged and answered [null];
    a body without items is answered [null] silently. *)
Lemma getChannelIdFromUrl_result (v : jsval) (customUrl : jsstring)
  (w : world) :
  toString v = Ok customUrl ->
  exists channelId w1,
    VideoPlugin.getChannelIdFromUrl settings v w = (Ok channelId, w1)
    /\ requests w1 = requests w ++ [VideoPlugin.search_url settings customUrl]
    /\ match first_item VideoPlugin.first_channelId
               (network w (requests w)
                  (VideoPlugin.search_url settings customUrl)) with
       | Throw e =>
           channelId = VNull
           /\ console w1 = console w ++ [(lit "Error fetching channel ID:", e)]
       | Ok None => channelId = VNull /\ console w1 = console w
       | Ok (Some id) => channelId = id /\ console w1 = console w
       end.
Proof.
  intro Hv.
  unfold VideoPlugin.getChannelIdFromUrl, first_item, try_catch.
  rewrite bind_lift, Hv.
  unfold bind at 1. unfold fetch at 1.
  destruct (network w (requests w) (VideoPlugin.search_url settings customUrl))
    as [| [[data |]]]; cbn [json];
    try (unfold bind, console_error, lift, ret; simpl;
         do 2 eexists; repeat split; reflexivity).
  unfold bind at 1. unfold ret at 1. rewrite bind_lift.
  destruct (VideoPlugin.has_items data) as [[|] | e]; cbn [rbind];
    try (unfold bind, console_error, lift, ret; simpl;
         do 2 eexists; repeat split; reflexivity).
  rewrite bind_lift.
  destruct (VideoPlugin.first_channelId data) as [id | e]; cbn [rbind];
    unfold bind, console_error, lift, ret; simpl;
    do 2 eexists; repeat split; reflexivity.
Qed.


(** Claim C6, as the code has it. On every author reference and every
    key, [fetchChannelIcon] returns normally. The identifier lookup
    sends the search request and always hands on an identifier ([null]
    after a failure or an empty result); it logs the exceptions it
    catches and is silent on an empty result. When the identifier
    cannot be converted to a string (the request URL is a template
    literal), no detail request is sent: the exception is logged and
    the result is [null]. Otherwise the detail fetch is issued with the
    identifier as a string, and what it answers decides the result: an
    exception raised on the way (rejected request, body that is not
    JSON, missing [snippet], [thumbnails] or [default]) is logged and
    gives [null]; a body without items gives [null] and logs nothing;
    otherwise the result is the [url] property found ([undefined] when
    it is missing). *)
Theorem fetchChannelIcon_never_throws (channelUrl : jsstring) (w : world) :
  exists channelId w1 icon w',
    VideoPlugin.getChannelIdFromUrl settings (VStr channelUrl) w
    = (Ok channelId, w1)
    /\ requests w1 = requests w ++ [VideoPlugin.search_url settings channelUrl]
    /\ match first_item VideoPlugin.first_channelId
               (network w (requests w)
                  (VideoPlugin.search_url settings channelUrl)) with
       | Throw e =>
           channelId = VNull
           /\ console w1 = console w ++ [(lit "Error fetching channel ID:", e)]
       | Ok None => channelId = VNull /\ console w1 = console w
       | Ok (Some id) => channelId = id /\ console w1 = console w
       end
    /\ VideoPlugin.fetchChannelIcon settings (VStr channelUrl) w
       = (Ok icon, w')
    /\ match toString channelId with
       | Throw e =>
           icon = VNull /\ requests w' = requests w1
           /\ console w' = console w1 ++ [(lit "Error fetching channel icon:", e)]
       | Ok id =>
           requests w' = requests w1 ++ [VideoPlugin.channels_url settings id]
           /\ match first_item VideoPlugin.first_thumbnail_url
                      (network w1 (requests w1)
                         (VideoPlugin.channels_url settings id)) with
              | Throw e =>
                  icon = VNull
                  /\ console w' =
                     console w1 ++ [(lit "Error fetching channel icon:", e)]
              | Ok None => icon = VNull /\ console w' = console w1
              | Ok (Some found) => icon = found /\ console w' = console w1
              end
       end.
Proof.
  destruct (getChannelIdFromUrl_result (VStr channelUrl) w eq_refl)
    as (channelId & w1 & Hid & Hreq & Hcase).
  exists channelId, w1.
  unfold VideoPlugin.fetchChannelIcon, try_catch.
  unfold first_item at 2.
  unfold bind at 1. unfold bind at 1. rewrite Hid.
  rewrite bind_lift.
  destruct (toString channelId) as [id | e];
    [| unfold bind, console_error, ret; simpl;
       do 2 eexists; repeat split; try reflexivity; assumption].
  unfold bind at 1. unfold fetch at 1.
  destruct (network w1 (requests w1) (VideoPlugin.channels_url settings id))
    as [| [[data |]]]; cbn [json];
    try (unfold bind, console_error, lift, ret; simpl;
         do 2 eexists; repeat split; try reflexivity; assumption).
  unfold bind at 1. unfold ret at 1. rewrite bind_lift.
  destruct (VideoPlugin.has_items data) as [[|] | e]; cbn [rbind];
    try (unfold bind, console_error, lift, ret; simpl;
         do 2 eexists; repeat split; try reflexivity; assumption).
  rewrite bind_lift.
  destruct (VideoPlugin.first_thumbnail_url data) as [found | e]; cbn [rbind];
    unfold bind, console_error, lift, ret; simpl;
    do 2 eexists; repeat split; try reflexivity; assumption.
Qed.


(** An invocation of the channel-icon resolver is visible from
    outside: it sends a request to the channel directory, or (when its
    argument cannot even be spliced into the request) logs its own
    failure. *)
Lemma fetchChannelIcon_leaves_trace (v : jsval) (w : world) :
  let w' := snd (VideoPlugin.fetchChannelIcon settings v w) in
  (exists q rest, requests w' = requests w ++ q :: rest
                  /\ is_channel_request q = true)
  \/ (exists e, console w' =
                console w ++ [(lit "Error fetching channel icon:", e)]).
Proof.
  destruct (toString v) as [customUrl | e] eqn:Hv.
  - left.
    destruct (getChannelIdFromUrl_result v w Hv)
      as (channelId & w1 & Hid & Hreq & _).
    unfold VideoPlugin.fetchChannelIcon, try_catch.
    unfold bind at 1. unfold bind at 1. rewrite Hid.
    assert (Hq : is_channel_request (VideoPlugin.search_url settings customUrl)
                 = true) by reflexivity.
    rewrite bind_lift.
    destruct (toString channelId) as [id | e'].
    + unfold bind at 1. unfold fetch at 1.
      exists (VideoPlugin.search_url settings customUrl),
             [VideoPlugin.channels_url settings id].
      split; [| exact Hq].
      destruct (network w1 (requests w1) (VideoPlugin.channels_url settings id))
        as [| [[data |]]]; cbn [json];
        try (unfold bind, console_error, lift, ret; simpl;
             rewrite Hreq, <- app_assoc; reflexivity).
      unfold bind at 1. unfold ret at 1. rewrite bind_lift.
      destruct (VideoPlugin.has_items data) as [[|] | e'']; cbn [rbind];
        try (unfold bind, console_error, lift, ret; simpl;
             rewrite Hreq, <- app_assoc; reflexivity).
      rewrite bind_lift.
      destruct (VideoPlugin.first_thumbnail_url data) as [found | e''];
        cbn [rbind]; unfold bind, console_error, lift, ret; simpl;
        rewrite Hreq, <- app_assoc; reflexivity.
    + exists (VideoPlugin.search_url settings customUrl), [].
      split; [| exact Hq].
      unfold bind, console_error, ret; simpl. exact Hreq.
  - right. exists e.
    unfold VideoPlugin.fetchChannelIcon, VideoPlugin.getChannelIdFromUrl,
      try_catch.
    unfold bind at 1. unfold bind at 1. rewrite bind_lift, Hv.
    unfold bind, console_error, ret; simpl. reflexivity.
Qed.

(** Claim C5. With the channel icon switched off, resolving metadata
    returns normally, sends at most the one embed-info request and no
    request to the channel directory, logs nothing but its own failure,
    and a record it returns has [channel_icon_url] equal to [null];
    the API key plays no part. *)
Theorem disabled_channel_icon_is_never_resolved (url : jsstring) (w : world) :
  showChannelIcon settings = false ->
  exists r w' added logged,
    VideoPlugin.fetchVideoMetadata settings url w = (Ok r, w')
    /\ requests w' = requests w ++ added
    /\ (added = [] \/ exists encoded, added = [embed_url encoded])
    /\ existsb is_channel_request added = false
    /\ console w' = console w ++ logged
    /\ Forall (fun entry => fst entry = lit "Error fetching video metadata:")
         logged
    /\ match r with
       | Some md => VideoPlugin.channel_icon_url md = VNull
       | None => True
       end.
Proof.
  intro Hoff.
  unfold VideoPlugin.fetchVideoMetadata, try_catch.
  rewrite bind_lift.
  destruct (Uri.encodeURIComponent url) as [encoded | e].
  - unfold bind at 1. unfold fetch at 1.
    destruct (network w (requests w) (embed_url encoded)) as [| [[data |]]].
    + unfold bind, console_error, ret; simpl.
      exists None. eexists. exists [embed_url encoded]. eexists.
      repeat split; eauto.
    + cbn [json]. unfold bind at 1. unfold ret at 1.
      destruct (truthy data) eqn:Ht.
      * destruct (get_truthy data (lit "title") Ht) as (t & Hget_t).
        destruct (get_truthy data (lit "author_name") Ht) as (a & Hget_a).
        destruct (get_truthy data (lit "thumbnail_url") Ht) as (th & Hget_th).
        rewrite Hoff. unfold bind at 1. unfold ret at 1.
        rewrite !bind_lift, Hget_t. rewrite !bind_lift, Hget_a.
        rewrite !bind_lift, Hget_th. unfold ret.
        eexists. eexists. exists [embed_url encoded], [].
        repeat split; eauto. now rewrite app_nil_r.
      * unfold ret. exists None. eexists. exists [embed_url encoded], [].
        repeat split; eauto. now rewrite app_nil_r.
    + unfold bind, console_error, lift, ret; simpl.
      exists None. eexists. exists [embed_url encoded]. eexists.
      repeat split; eauto.
  - unfold bind, console_error, ret; simpl.
    exists None. eexists. exists []. eexists.
    repeat split; eauto. now rewrite app_nil_r.
Qed.


(** Claim C1, as the code has it. In both variants
    [fetchVideoMetadata] returns normally; it returns [null] when the
    URL cannot be encoded, the request is rejected, the body is not
    JSON, or the parsed body is falsy; for any other body it returns a
    record whose [title], [author_name] and [thumbnail_url] are the
    body's properties of those names, whatever they are ([undefined]
    for a missing one): the fields are not validated. *)
Theorem fetchVideoMetadata_null_or_unvalidated_record
  (url : jsstring) (w : world) :
  (exists r w',
     VideoPlugin.fetchVideoMetadata settings url w = (Ok r, w')
     /\ match embed_body w url with
        | None => r = None
        | Some data =>
            if truthy data then
              exists md, r = Some md
                /\ get data (lit "title") = Ok (VideoPlugin.title md)
                /\ get data (lit "author_name")
                   = Ok (VideoPlugin.author_name md)
                /\ get data (lit "thumbnail_url")
                   = Ok (VideoPlugin.thumbnail_url md)
                /\ VideoPlugin.url md = url
            else r = None
        end)
  /\ (exists r w',
        MyPlugin.fetchVideoMetadata url w = (Ok r, w')
        /\ match embed_body w url with
           | None => r = None
           | Some data =>
               if truthy data then
                 exists md, r = Some md
                   /\ get data (lit "title") = Ok (MyPlugin.title md)
                   /\ get data (lit "author_name")
                      = Ok (MyPlugin.author_name md)
                   /\ get data (lit "thumbnail_url")
                      = Ok (MyPlugin.thumbnail_url md)
               else r = None
           end).
Proof.
  split.
  - apply fetchVideoMetadata_result.
  - apply MyPlugin_fetchVideoMetadata_result.
Qed.

End ResolverFacts.

(** Claim C1 as stated fails: the service answers a link it does not
    know with a JSON object that has none of the three fields, and both
    variants return a record whose three fields are [undefined]. *)
Lemma fetchVideoMetadata_returns_missing_fields :
  fst (VideoPlugin.fetchVideoMetadata VideoPlugin.DEFAULT_SETTINGS
         (lit "https://youtu.be/a") Sample.error_world)
  = Ok (Some {| VideoPlugin.title := VUndefined;
                VideoPlugin.author_name := VUndefined;
                VideoPlugin.thumbnail_url := VUndefined;
                VideoPlugin.url := lit "https://youtu.be/a";
                VideoPlugin.channel_icon_url := VNull |})
  /\ fst (MyPlugin.fetchVideoMetadata (lit "https://youtu.be/a")
            Sample.error_world)
     = Ok (Some {| MyPlugin.title := VUndefined;
                   MyPlugin.author_name := VUndefined;
                   MyPlugin.thumbnail_url := VUndefined |}).
Proof. split; vm_compute; reflexivity. Qed.

(** Claim C6 as stated fails on the log: when the directory knows no
    channel, both requests are answered without items, the result is
    [null], and nothing is logged. *)
Lemma fetchChannelIcon_silent_on_no_results :
  fst (VideoPlugin.fetchChannelIcon VideoPlugin.DEFAULT_SETTINGS
         (Sample.str "https://www.youtube.com/@author") Sample.no_items_world)
  = Ok VNull
  /\ console (snd (VideoPlugin.fetchChannelIcon VideoPlugin.DEFAULT_SETTINGS
                     (Sample.str "https://www.youtube.com/@author")
                     Sample.no_items_world))
     = []
  /\ requests (snd (VideoPlugin.fetchChannelIcon VideoPlugin.DEFAULT_SETTINGS
                      (Sample.str "https://www.youtube.com/@author")
                      Sample.no_items_world))
     = [lit "https://www.googleapis.com/youtube/v3/search?part=snippet&q=https://www.youtube.com/@author&type=channel&key=";
        lit "https://www.googleapis.com/youtube/v3/channels?part=snippet&id=null&key="].
Proof. repeat split; vm_compute; reflexivity. Qed.

(** A run of claim C5: icon off, a key present, a full answer. *)
Lemma disabled_channel_icon_run :
  showChannelIcon Sample.icon_off = false
  /\ exists r w' added logged,
       VideoPlugin.fetchVideoMetadata Sample.icon_off
         (lit "https://youtu.be/a") Sample.video_world = (Ok r, w')
       /\ requests w' = requests Sample.video_world ++ added
       /\ (added = [] \/ exists encoded, added = [embed_url encoded])
       /\ existsb is_channel_request added = false
       /\ console w' = console Sample.video_world ++ logged
       /\ Forall (fun entry => fst entry = lit "Error fetching video metadata:")
            logged
       /\ match r with
          | Some md => VideoPlugin.channel_icon_url md = VNull
          | None => True
          end.
Proof.
  split; [reflexivity |].
  apply (disabled_channel_icon_is_never_resolved Sample.icon_off
           (lit "https://youtu.be/a") Sample.video_world).
  reflexivity.
Defined.

End ResolverFacts.

(** ** The render builder *)

Module BuilderFacts.
Section BuilderFacts.
Context {number : Type} {numeric : Numeric number}.
Local Abbreviation jsval := (jsval number).

Lemma set_textContent_eq (v : jsval) tag attrs kids :
  Dom.set_textContent v (Dom.Element tag attrs kids) =
  rbind (text_of v)
    (fun s => Ok (Dom.Element tag attrs
                    (match s with [] => [] | _ => [Dom.Text s] end))).
Proof. destruct v; reflexivity. Qed.

Lemma text_of_throw (v : jsval) e : text_of v = Throw e -> toString v = Throw e.
Proof. destruct v; simpl; congruence. Qed.

Ltac conversion_failed :=
  match goal with
  | H : text_of _ = Throw _ |- _ => apply text_of_throw in H
  | _ => idtac
  end;
  simpl; auto 6.

Lemma VideoPlugin_createPrettyLink_thumbnail
  (settings : VideoPluginSettings) (md : VideoPlugin.metadata) :
  match VideoPlugin.createPrettyLink settings md with
  | Ok n => has_thumbnail n = showThumbnail settings
  | Throw e =>
      In (Throw e)
        (map toString
           [VideoPlugin.thumbnail_url md; VideoPlugin.title md;
            VideoPlugin.author_name md; VideoPlugin.channel_icon_url md])
  end.
Proof.
  unfold VideoPlugin.createPrettyLink, Dom.set_src, Dom.createElement.
  cbn [Dom.classList_add Dom.getAttribute Dom.lookup_attr Dom.setAttribute
       Dom.update_attr].
  rewrite !set_textContent_eq.
  destruct (showThumbnail settings);
    [destruct (toString (VideoPlugin.thumbnail_url md)) as [th | e] eqn:Hth;
     [| conversion_failed] |];
    cbn [rbind];
    (destruct (text_of (VideoPlugin.title md)) as [[| c t] | e] eqn:Ht;
     [| | conversion_failed]);
    cbn [rbind];
    (destruct (text_of (VideoPlugin.author_name md)) as [[| c' a] | e] eqn:Ha;
     [| | conversion_failed]);
    cbn [rbind];
    (destruct (truthy (VideoPlugin.channel_icon_url md));
     [destruct (toString (VideoPlugin.channel_icon_url md)) as [ic | e] eqn:Hic;
      [| conversion_failed] |]);
    vm_compute; reflexivity.
Qed.

Lemma MyPlugin_createPrettyLink_thumbnail
  (settings : MyPlugin.MyPluginSettings) (md : MyPlugin.metadata) :
  match MyPlugin.createPrettyLink settings md with
  | Ok n => has_thumbnail n = MyPlugin.showThumbnail settings
  | Throw e =>
      In (Throw e)
        (map toString
           [MyPlugin.thumbnail_url md; MyPlugin.title md;
            MyPlugin.author_name md])
  end.
Proof.
  unfold MyPlugin.createPrettyLink, Dom.set_src, Dom.createElement.
  cbn [Dom.classList_add Dom.getAttribute Dom.lookup_attr Dom.setAttribute
       Dom.update_attr].
  rewrite !set_textContent_eq.
  destruct (text_of (MyPlugin.title md)) as [[| c t] | e] eqn:Ht;
    [| | conversion_failed];
    cbn [rbind];
    (destruct (toString (MyPlugin.author_name md)) as [a | e] eqn:Ha;
     [| conversion_failed]);
    cbn [rbind];
    (destruct (MyPlugin.showThumbnail settings);
     [destruct (toString (MyPlugin.thumbnail_url md)) as [th | e] eqn:Hth;
      [| conversion_failed] |]);
    vm_compute; reflexivity.
Qed.

(** The node the structural variant builds is an anchor that carries
    the source URL as its [href] and holds no anchor inside. *)
Lemma VideoPlugin_createPrettyLink_shape
  (settings : VideoPluginSettings) (md : VideoPlugin.metadata) n :
  VideoPlugin.createPrettyLink settings md = Ok n ->
  exists kids,
    n = Dom.Element (lit "a")
          [(lit "class", lit "video-metadata-container");
           (lit "href", Uri.toUSVString (VideoPlugin.url md));
           (lit "target", lit "_blank");
           (lit "rel", lit "noopener noreferrer")] kids
    /\ flat_map anchors kids = [].
Proof.
  unfold VideoPlugin.createPrettyLink, Dom.set_src, Dom.createElement.
  cbn [Dom.classList_add Dom.getAttribute Dom.lookup_attr Dom.setAttribute
       Dom.update_attr].
  rewrite !set_textContent_eq.
  destruct (showThumbnail settings);
    [destruct (toString (VideoPlugin.thumbnail_url md)) as [th | e];
     [| discriminate] |];
    cbn [rbind];
    (destruct (text_of (VideoPlugin.title md)) as [[| c t] | e];
     [| | discriminate]);
    cbn [rbind];
    (destruct (text_of (VideoPlugin.author_name md)) as [[| c' a] | e];
     [| | discriminate]);
    cbn [rbind];
    (destruct (truthy (VideoPlugin.channel_icon_url md));
     [destruct (toString (VideoPlugin.channel_icon_url md)) as [ic | e];
      [| discriminate] |]);
    cbn [rbind]; intros [= <-]; eexists; (split; [reflexivity |]);
    vm_compute; reflexivity.
Qed.


(** Fields that convert to strings (strings, [null], [undefined],
    numbers, booleans) always give a node. *)
Lemma VideoPlugin_createPrettyLink_builds
  (settings : VideoPluginSettings) (md : VideoPlugin.metadata) :
  (forall v,
     In v [VideoPlugin.thumbnail_url md; VideoPlugin.title md;
           VideoPlugin.author_name md; VideoPlugin.channel_icon_url md] ->
     exists s, toString v = Ok s) ->
  exists n, VideoPlugin.createPrettyLink settings md = Ok n.
Proof.
  intro Hconv.
  pose proof (VideoPlugin_createPrettyLink_thumbnail settings md) as H.
  destruct (VideoPlugin.createPrettyLink settings md) as [n | e];
    [now exists n |].
  apply in_map_iff in H. destruct H as (v & Hthrow & Hin).
  destruct (Hconv v Hin) as (s & Hs). congruence.
Qed.

End BuilderFacts.
End BuilderFacts.

(** ** The enrichment pass *)

Module PipelineFacts.

(** Induction on a fragment, children included. *)
Lemma node_induction (P : Dom.node -> Prop) :
  (forall d, P (Dom.Text d)) ->
  (forall tag attrs kids, Forall P kids -> P (Dom.Element tag attrs kids)) ->
  forall n, P n.
Proof.
  intros Htext Helement. fix IH 1. intros [d | tag attrs kids].
  - apply Htext.
  - apply Helement.
    induction kids as [| k kids IHkids]; constructor; [apply IH | exact IHkids].
Qed.

Section PipelineFacts.
Context {number : Type} {numeric : Numeric number}.
Local Abbreviation world := (world number).
Variable settings : VideoPluginSettings.

Lemma visit_Element tag attrs kids :
  VideoPlugin.visit settings (Dom.Element tag attrs kids) =
  let descend :=
    (kids' <- VideoPlugin.visit_all settings kids ;;
     ret (Dom.Element tag attrs kids')) in
  if JsString.eqb tag (lit "a") then
    match Dom.lookup_attr (lit "href") attrs with
    | Some url =>
        if negb (is_empty url) && VideoPlugin.isYouTubeUrl url then
          metadata <- VideoPlugin.fetchVideoMetadata settings url ;;
          match metadata with
          | Some md =>
              prettyLink <- lift (VideoPlugin.createPrettyLink settings md) ;;
              VideoPlugin.visit_all settings kids ;;;
              ret prettyLink
          | None => descend
          end
        else descend
    | None => descend
    end
  else descend.
Proof. reflexivity. Qed.

Lemma filter_app_nil {A} (f : A -> bool) l1 l2 :
  filter f (l1 ++ l2) = [] -> filter f l1 = [] /\ filter f l2 = [].
Proof.
  rewrite filter_app. intro H. now apply app_eq_nil in H.
Qed.

Lemma visit_all_without_candidates kids :
  Forall (fun n => filter is_candidate (anchors n) = [] ->
                   forall w : world, VideoPlugin.visit settings n w = (Ok n, w))
    kids ->
  filter is_candidate (flat_map anchors kids) = [] ->
  forall w : world, VideoPlugin.visit_all settings kids w = (Ok kids, w).
Proof.
  induction 1 as [| k kids Hk _ IH]; intros Hnone w; [reflexivity |].
  simpl in Hnone. apply filter_app_nil in Hnone. destruct Hnone as [H1 H2].
  simpl. unfold bind. rewrite (Hk H1 w), (IH H2 w). reflexivity.
Qed.

Lemma visit_without_candidates n :
  filter is_candidate (anchors n) = [] ->
  forall w : world, VideoPlugin.visit settings n w = (Ok n, w).
Proof.
  induction n as [d | tag attrs kids IH] using node_induction;
    intros Hnone w; [reflexivity |].
  rewrite visit_Element. cbv zeta.
  cbn [anchors] in Hnone. apply filter_app_nil in Hnone.
  destruct Hnone as [Hself Hkids].
  assert (Hdescend :
            (kids' <- VideoPlugin.visit_all settings kids ;;
             ret (Dom.Element tag attrs kids')) w
            = (Ok (Dom.Element tag attrs kids), w)).
  { unfold bind. now rewrite (visit_all_without_candidates IH Hkids w). }
  destruct (JsString.eqb tag (lit "a")); [| exact Hdescend].
  destruct (Dom.lookup_attr (lit "href") attrs) as [url |] eqn:Hhref;
    [| exact Hdescend].
  destruct (negb (is_empty url) && VideoPlugin.isYouTubeUrl url) eqn:Hc;
    [| exact Hdescend].
  exfalso. simpl in Hself. unfold is_candidate in Hself. simpl in Hself.
  rewrite Hhref, Hc in Hself. discriminate.
Qed.


(** A candidate whose resolution yields [null] in the structural
    variant: the anchor stays, tag and attributes untouched, and the
    pass goes on below it from the world the resolution left. *)
Lemma failed_candidate_is_kept tag attrs kids url (w w1 : world) :
  JsString.eqb tag (lit "a") = true ->
  Dom.lookup_attr (lit "href") attrs = Some url ->
  negb (is_empty url) && VideoPlugin.isYouTubeUrl url = true ->
  VideoPlugin.fetchVideoMetadata settings url w = (Ok None, w1) ->
  VideoPlugin.visit settings (Dom.Element tag attrs kids) w
  = (kids' <- VideoPlugin.visit_all settings kids ;;
     ret (Dom.Element tag attrs kids')) w1.
Proof.
  intros Htag Hhref Hurl Hnull.
  rewrite visit_Element. cbv zeta. rewrite Htag, Hhref, Hurl.
  unfold bind at 1. now rewrite Hnull.
Qed.

(** With no candidate below it, the failed anchor is left exactly as it
    was, and the rest of the fragment is processed as usual, from the
    world the failed resolution left. *)
Lemma pass_continues_after_failed_candidate
  tag attrs kids url rest (w w1 : world) :
  JsString.eqb tag (lit "a") = true ->
  Dom.lookup_attr (lit "href") attrs = Some url ->
  negb (is_empty url) && VideoPlugin.isYouTubeUrl url = true ->
  VideoPlugin.fetchVideoMetadata settings url w = (Ok None, w1) ->
  filter is_candidate (flat_map anchors kids) = [] ->
  VideoPlugin.processMarkdown settings (Dom.Element tag attrs kids :: rest) w
  = (rest' <- VideoPlugin.processMarkdown settings rest ;;
     ret (Dom.Element tag attrs kids :: rest')) w1.
Proof.
  intros Htag Hhref Hurl Hnull Hkids.
  unfold VideoPlugin.processMarkdown. cbn [VideoPlugin.visit_all].
  unfold bind at 1.
  rewrite (failed_candidate_is_kept _ _ kids _ Htag Hhref Hurl Hnull).
  unfold bind at 1.
  rewrite visit_all_without_candidates; [reflexivity | | exact Hkids].
  apply Forall_forall. intros n _. apply visit_without_candidates.
Qed.

(** A second pass over a node the structural variant built: the node
    is resolved again; when the resolution yields metadata from which
    the same node is built, the content is what it was. *)
Lemma second_pass_with_same_metadata
  (md md' : VideoPlugin.metadata (number := number)) n (w w1 : world) :
  VideoPlugin.createPrettyLink settings md = Ok n ->
  negb (is_empty (Uri.toUSVString (VideoPlugin.url md)))
  && VideoPlugin.isYouTubeUrl (Uri.toUSVString (VideoPlugin.url md)) = true ->
  VideoPlugin.fetchVideoMetadata settings
    (Uri.toUSVString (VideoPlugin.url md)) w = (Ok (Some md'), w1) ->
  VideoPlugin.createPrettyLink settings md' = Ok n ->
  VideoPlugin.processMarkdown settings [n] w = (Ok [n], w1).
Proof.
  intros Hbuilt Hurl Hfetch Hrebuilt.
  destruct (BuilderFacts.VideoPlugin_createPrettyLink_shape _ _ Hbuilt)
    as (kids & Hn & Hkids).
  unfold VideoPlugin.processMarkdown. cbn [VideoPlugin.visit_all].
  unfold bind at 1. rewrite Hn at 1. rewrite visit_Element. cbv zeta.
  change (JsString.eqb (lit "a") (lit "a")) with true. cbv iota.
  change (Dom.lookup_attr (lit "href")
            [(lit "class", lit "video-metadata-container");
             (lit "href", Uri.toUSVString (VideoPlugin.url md));
             (lit "target", lit "_blank");
             (lit "rel", lit "noopener noreferrer")])
    with (Some (Uri.toUSVString (VideoPlugin.url md))).
  cbv iota. rewrite Hurl.
  unfold bind at 1. rewrite Hfetch.
  rewrite ResolverFacts.bind_lift, Hrebuilt.
  unfold bind at 1.
  rewrite visit_all_without_candidates;
    [reflexivity | | now rewrite Hkids].
  apply Forall_forall. intros k _. apply visit_without_candidates.
Qed.


End PipelineFacts.



(** Two links in sequence in the structural variant, the first
    resolving and the second failing: the first is replaced, the second
    stays as it was, in document order. *)
Example structural_failure_leaves_link :
  flat_map Dom.outerHTML
    (Sample.value []
       (VideoPlugin.processMarkdown Sample.icon_off
          [Sample.video_link; Dom.Text (lit " "); Sample.other_link]
          Sample.failing_later_world))
  = Sample.html "<a class='video-metadata-container' href='https://youtu.be/a' target='_blank' rel='noopener noreferrer'><img class='video-thumbnail' src='https://i.ytimg.com/vi/a/hqdefault.jpg'><div class='banner'><div class='video-text-container'><strong>A video</strong><span>An author</span></div></div></a> <a href='https://youtu.be/b'>https://youtu.be/b</a>"
  /\ notices (snd (VideoPlugin.processMarkdown Sample.icon_off
                     [Sample.video_link; Dom.Text (lit " "); Sample.other_link]
                     Sample.failing_later_world))
     = [].
Proof. split; vm_compute; reflexivity. Qed.

End PipelineFacts.

(** ** Request URLs *)

Module UriFacts.
Import Uri.

Lemma take_until_stop p c : forall s r,
  p c = true -> take_until p (s ++ c :: r) = take_until p s.
Proof.
  induction s as [| x s IH]; intros r Hc; simpl.
  - now rewrite Hc.
  - destruct (p x); [reflexivity |]. now rewrite IH.
Qed.

Lemma take_until_twice p q : forall s,
  take_until p (take_until q s) = take_until (fun c => p c || q c) s.
Proof.
  induction s as [| x s IH]; simpl; [reflexivity |].
  destruct (q x); simpl.
  - now rewrite orb_true_r.
  - rewrite orb_false_r. destruct (p x); [reflexivity |]. now rewrite IH.
Qed.

Lemma take_until_free p : forall s,
  forallb (fun c => negb (p c)) s = true -> take_until p s = s.
Proof.
  induction s as [| x s IH]; simpl; [reflexivity |].
  intro H. apply andb_true_iff in H. destruct H as [Hx Hs].
  destruct (p x); [discriminate |]. now rewrite IH.
Qed.

Lemma split_on_head sep : forall s,
  exists rest, split_on sep s = take_until sep s :: rest.
Proof.
  induction s as [| x s (rest & IH)]; simpl.
  - now exists [].
  - destruct (sep x); [now eexists |]. rewrite IH. now eexists.
Qed.

Lemma split_on_free sep : forall s,
  forallb (fun c => negb (sep c)) s = true -> split_on sep s = [s].
Proof.
  induction s as [| x s IH]; simpl; [reflexivity |].
  intro H. apply andb_true_iff in H. destruct H as [Hx Hs].
  destruct (sep x); [discriminate |]. now rewrite IH.
Qed.

Lemma split_on_prefix sep : forall pre s h t,
  forallb (fun c => negb (sep c)) pre = true ->
  split_on sep s = h :: t ->
  split_on sep (pre ++ s) = (pre ++ h) :: t.
Proof.
  induction pre as [| x pre IH]; intros s h t Hfree Hs; simpl; [exact Hs |].
  simpl in Hfree. apply andb_true_iff in Hfree. destruct Hfree as [Hx Hfree].
  destruct (sep x); [discriminate |]. now rewrite (IH s h t Hfree Hs).
Qed.

Lemma split_on_sep sep c s :
  sep c = true -> split_on sep (c :: s) = [] :: split_on sep s.
Proof. intro H. simpl. now rewrite H. Qed.

Lemma hex_digit_plain d : ends_parameter (hex_digit d) = false.
Proof.
  unfold ends_parameter, is_char, hex_digit.
  change (chr "&") with 38%N. change (chr "#") with 35%N.
  apply orb_false_iff. split; apply N.eqb_neq;
    destruct (N.ltb_spec d 10); lia.
Qed.

Lemma percent_plain b :
  forallb (fun c => negb (ends_parameter c)) (percent b) = true.
Proof.
  unfold percent. cbn [forallb]. rewrite !hex_digit_plain. reflexivity.
Qed.

Lemma escape_code_point_plain cp :
  forallb (fun c => negb (ends_parameter c)) (escape_code_point cp) = true.
Proof.
  unfold escape_code_point.
  induction (utf8 cp) as [| b bs IH]; [reflexivity |].
  cbn [flat_map]. now rewrite forallb_app, percent_plain, IH.
Qed.

Lemma unreserved_plain c : unreserved c = true -> ends_parameter c = false.
Proof.
  intro H. unfold ends_parameter, is_char.
  apply orb_false_iff. split; apply N.eqb_neq; intros ->;
    vm_compute in H; discriminate.
Qed.

(** An encoded component holds none of the characters that end a
    query parameter. *)
Lemma encodeURIComponent_plain : forall s t,
  encodeURIComponent s = Ok t ->
  forallb (fun c => negb (ends_parameter c)) t = true.
Proof.
  fix IH 1. intros [| c rest] t; simpl.
  - intros [= <-]. reflexivity.
  - destruct (unreserved c) eqn:Hu.
    + destruct (encodeURIComponent rest) as [t' |] eqn:E; simpl;
        [| discriminate].
      intros [= <-]. simpl. rewrite (unreserved_plain _ Hu). simpl.
      now apply (IH rest).
    + destruct (is_trail c); [discriminate |].
      destruct (is_lead c).
      * destruct rest as [| d rest']; [discriminate |].
        destruct (is_trail d); [| discriminate].
        destruct (encodeURIComponent rest') as [t' |] eqn:E; simpl;
          [| discriminate].
        intros [= <-]. rewrite forallb_app, escape_code_point_plain.
        now apply (IH rest').
      * destruct (encodeURIComponent rest) as [t' |] eqn:E; simpl;
          [| discriminate].
        intros [= <-]. rewrite forallb_app, escape_code_point_plain.
        now apply (IH rest).
Qed.

(** The receiver of an embed-info request reads the whole encoded
    component as the [url] parameter. *)
Lemma embed_url_parameter encoded :
  forallb (fun c => negb (ends_parameter c)) encoded = true ->
  query_param (lit "url") (embed_url encoded) = Some encoded.
Proof.
  intro H. unfold query_param, query_of.
  assert (Hhash : forallb (fun c => negb (is_char "#" c)) encoded = true).
  { eapply forallb_forall. intros c Hc.
    rewrite forallb_forall in H. specialize (H c Hc).
    unfold ends_parameter in H. destruct (is_char "#" c); [| reflexivity].
    now rewrite orb_true_r in H. }
  assert (Hamp : forallb (fun c => negb (is_char "&" c)) encoded = true).
  { eapply forallb_forall. intros c Hc.
    rewrite forallb_forall in H. specialize (H c Hc).
    unfold ends_parameter in H. now destruct (is_char "&" c). }
  change (take_until (is_char "#") (embed_url encoded))
    with (lit "https://noembed.com/embed?url="
          ++ take_until (is_char "#") encoded).
  rewrite (take_until_free _ _ Hhash).
  change (drop_until (is_char "?")
            (lit "https://noembed.com/embed?url=" ++ encoded))
    with (lit "url=" ++ encoded).
  rewrite split_on_free; [reflexivity |].
  rewrite forallb_app. now rewrite Hamp.
Qed.

(** The receiver of an identifier lookup reads as [q] what stands
    before the first [&] or [#] of the author reference. *)
Lemma search_url_parameter settings customUrl :
  query_param (lit "q") (VideoPlugin.search_url settings customUrl)
  = Some (take_until ends_parameter customUrl).
Proof.
  unfold query_param, query_of, VideoPlugin.search_url.
  change (take_until (is_char "#")
            (lit "https://www.googleapis.com/youtube/v3/search?part=snippet&q="
             ++ customUrl ++ lit "&type=channel&key=" ++ apiKey settings))
    with (lit "https://www.googleapis.com/youtube/v3/search?part=snippet&q="
          ++ take_until (is_char "#")
               (customUrl ++ lit "&type=channel&key=" ++ apiKey settings)).
  set (value := take_until (is_char "#")
                  (customUrl ++ lit "&type=channel&key=" ++ apiKey settings)).
  change (drop_until (is_char "?")
            (lit "https://www.googleapis.com/youtube/v3/search?part=snippet&q="
             ++ value))
    with (lit "part=snippet&q=" ++ value).
  destruct (split_on_head (is_char "&") value) as (rest & Hsplit).
  assert (Hparams :
            split_on (is_char "&") (lit "part=snippet&q=" ++ value)
            = (lit "part=snippet" ++ [])
              :: (lit "q=" ++ take_until (is_char "&") value) :: rest).
  { change (lit "part=snippet&q=" ++ value)
      with (lit "part=snippet" ++ chr "&" :: lit "q=" ++ value).
    apply split_on_prefix; [reflexivity |].
    rewrite split_on_sep by reflexivity. f_equal.
    now apply split_on_prefix. }
  rewrite Hparams.
  change (find_param (lit "q")
            ((lit "part=snippet" ++ [])
             :: (lit "q=" ++ take_until (is_char "&") value) :: rest))
    with (Some (take_until (is_char "&") value)).
  f_equal. unfold value. rewrite take_until_twice.
  change (lit "&type=channel&key=" ++ apiKey settings)
    with (chr "&" :: lit "type=channel&key=" ++ apiKey settings).
  now rewrite take_until_stop.
Qed.

End UriFacts.

(** ** What a computation may touch

    The resolvers and the passes only append to the requests and to the
    console: they show no notice, save nothing, and leave the network
    as it is. *)

Module FrameFacts.
Import HostFacts ResolverFacts PipelineFacts.

Section FrameFacts.
Context {number : Type} {numeric : Numeric number}.
Local Abbreviation jsval := (jsval number).
Local Abbreviation world := (world number).
Local Abbreviation M := (M number).

Lemma appends_to_refl (w : world) : appends_to w w.
Proof.
  repeat split; auto; exists []; now rewrite app_nil_r.
Qed.

Lemma appends_to_trans (w1 w2 w3 : world) :
  appends_to w1 w2 -> appends_to w2 w3 -> appends_to w1 w3.
Proof.
  intros (Hn & Ho & Hs & (m & Hr) & (l & Hc))
         (Hn' & Ho' & Hs' & (m' & Hr') & (l' & Hc')).
  repeat split; try congruence.
  - exists (m ++ m'). rewrite Hr', Hr. now rewrite app_assoc.
  - exists (l ++ l'). rewrite Hc', Hc. now rewrite app_assoc.
Qed.

Lemma appends_ret {A} (a : A) : appends (ret (number := number) a).
Proof. intro w. apply appends_to_refl. Qed.

Lemma appends_lift {A} (r : result A) : appends (lift (number := number) r).
Proof. intro w. apply appends_to_refl. Qed.

Lemma appends_bind {A B} (c : M A) (f : A -> M B) :
  appends c -> (forall a, appends (f a)) -> appends (bind c f).
Proof.
  intros Hc Hf w. unfold bind. specialize (Hc w).
  destruct (c w) as [[a | e] w1]; simpl in *; [| exact Hc].
  eapply appends_to_trans; [exact Hc | apply Hf].
Qed.

Lemma appends_try_catch {A} (body : M A) handler :
  appends body -> (forall e, appends (handler e)) ->
  appends (try_catch body handler).
Proof.
  intros Hb Hh w. unfold try_catch. specialize (Hb w).
  destruct (body w) as [[a | e] w1]; simpl in *; [exact Hb |].
  eapply appends_to_trans; [exact Hb | apply Hh].
Qed.

Lemma appends_fetch url : appends (fetch (number := number) url).
Proof.
  intro w. unfold fetch.
  destruct (network w (requests w) url); simpl;
    (repeat split; auto; [now exists [url] | exists []; now rewrite app_nil_r]).
Qed.

Lemma appends_json r : appends (json (number := number) r).
Proof. destruct r as [[v |]]; intro w; apply appends_to_refl. Qed.

Lemma appends_console_error label e :
  appends (console_error (number := number) label e).
Proof.
  intro w. unfold console_error. simpl.
  repeat split; auto; [exists []; now rewrite app_nil_r | now eexists].
Qed.

Ltac appends_step :=
  first
    [ apply appends_ret | apply appends_lift | apply appends_fetch
    | apply appends_json | apply appends_console_error
    | apply appends_bind | apply appends_try_catch
    | match goal with
      | |- appends (if ?b then _ else _) => destruct b
      | |- appends (match ?o with Some _ => _ | None => _ end) => destruct o
      end
    | intro ].

Variable settings : VideoPluginSettings.

Lemma appends_getChannelIdFromUrl v :
  appends (VideoPlugin.getChannelIdFromUrl settings v).
Proof. unfold VideoPlugin.getChannelIdFromUrl. repeat appends_step. Qed.

Lemma appends_fetchChannelIcon v :
  appends (VideoPlugin.fetchChannelIcon settings v).
Proof.
  unfold VideoPlugin.fetchChannelIcon.
  repeat first [apply appends_getChannelIdFromUrl | appends_step].
Qed.

Lemma appends_fetchVideoMetadata url :
  appends (VideoPlugin.fetchVideoMetadata settings url).
Proof.
  unfold VideoPlugin.fetchVideoMetadata.
  repeat first [apply appends_fetchChannelIcon | appends_step].
Qed.

Lemma appends_MyPlugin_fetchVideoMetadata url :
  appends (MyPlugin.fetchVideoMetadata (number := number) url).
Proof. unfold MyPlugin.fetchVideoMetadata. repeat appends_step. Qed.


Lemma appends_visit_all kids :
  Forall (fun n => appends (VideoPlugin.visit settings n)) kids ->
  appends (VideoPlugin.visit_all settings kids).
Proof.
  induction 1 as [| k kids Hk _ IH]; simpl; [apply appends_ret |].
  repeat first [exact Hk | exact IH | appends_step].
Qed.

Lemma appends_visit n : appends (VideoPlugin.visit settings n).
Proof.
  induction n as [d | tag attrs kids IH] using node_induction.
  - apply appends_ret.
  - rewrite visit_Element. cbv zeta.
    pose proof (appends_visit_all IH) as Hkids.
    destruct (JsString.eqb tag (lit "a"));
      [destruct (Dom.lookup_attr (lit "href") attrs) as [url |];
       [destruct (negb (is_empty url) && VideoPlugin.isYouTubeUrl url) |] |];
      repeat first [exact Hkids | apply appends_fetchVideoMetadata
                   | appends_step].
Qed.

(** The structural pass shows no notice and saves nothing. *)
Lemma appends_processMarkdown fragment :
  appends (VideoPlugin.processMarkdown settings fragment).
Proof.
  unfold VideoPlugin.processMarkdown. apply appends_visit_all.
  apply Forall_forall. intros n _. apply appends_visit.
Qed.

Lemma appends_process_matches textual matches : forall innerHTML,
  appends (MyPlugin.process_matches (number := number) textual matches
             innerHTML).
Proof.
  induction matches as [| url rest IH]; intro innerHTML; simpl.
  - apply appends_ret.
  - repeat first [apply IH | apply appends_MyPlugin_fetchVideoMetadata
                 | appends_step].
Qed.

(** The textual pass shows no notice and saves nothing. *)
Lemma appends_MyPlugin_processMarkdown textual innerHTML :
  appends (MyPlugin.processMarkdown (number := number) textual innerHTML).
Proof.
  unfold MyPlugin.processMarkdown.
  destruct (Regex.match_all youtubeRegex innerHTML).
  - apply appends_process_matches.
  - apply appends_ret.
Qed.

Lemma requests_after_fetch {A} url (K : response number -> M A) handler
  (w : world) :
  (forall r, appends (K r)) -> (forall e, appends (handler e)) ->
  exists more,
    requests (snd (try_catch (bind (fetch url) K) handler w))
    = requests w ++ url :: more.
Proof.
  intros HK Hh. unfold try_catch, bind at 1, fetch.
  destruct (network w (requests w) url) as [| r].
  - match goal with
    | |- context [handler ?e ?w1] =>
        destruct (Hh e w1) as (_ & _ & _ & (more & Hr) & _)
    end.
    exists more. rewrite Hr. simpl. now rewrite <- app_assoc.
  - match goal with
    | |- context [K r ?w1] =>
        pose proof (HK r w1) as (_ & _ & _ & (more & Hr) & _);
        destruct (K r w1) as [[a | e] w2]
    end; simpl in *.
    + exists more. rewrite Hr. now rewrite <- app_assoc.
    + destruct (Hh e w2) as (_ & _ & _ & (more' & Hr') & _).
      exists (more ++ more'). rewrite Hr', Hr.
      now rewrite <- !app_assoc.
Qed.

(** Claim C10. The identifier lookup sends the author reference as it
    is, between the two literal parts of the request; the receiver
    reads as the query value what stands before the first [&] or [#] of
    the reference, a proper prefix for a reference such as [R&B]. The
    embed-info lookup sends the URL encoded, and the receiver reads the
    whole encoded component. *)
Theorem lookup_sends_reference_unencoded
  (customUrl url : jsstring) (w : world) :
  requests (snd (VideoPlugin.getChannelIdFromUrl settings (VStr customUrl) w))
  = requests w
    ++ [lit "https://www.googleapis.com/youtube/v3/search?part=snippet&q="
        ++ customUrl ++ lit "&type=channel&key=" ++ apiKey settings]
  /\ Uri.query_param (lit "q") (VideoPlugin.search_url settings customUrl)
     = Some (Uri.take_until ends_parameter customUrl)
  /\ Uri.query_param (lit "q") (VideoPlugin.search_url settings (lit "R&B"))
     = Some (lit "R")
  /\ (forall encoded,
        Uri.encodeURIComponent url = Ok encoded ->
        (exists more,
           requests (snd (VideoPlugin.fetchVideoMetadata settings url w))
           = requests w
             ++ (lit "https://noembed.com/embed?url=" ++ encoded) :: more)
        /\ Uri.query_param (lit "url") (embed_url encoded) = Some encoded).
Proof.
  split.
  { destruct (getChannelIdFromUrl_result settings (VStr customUrl) w eq_refl)
      as (channelId & w1 & -> & Hreq & _). exact Hreq. }
  split; [apply UriFacts.search_url_parameter |].
  split; [apply UriFacts.search_url_parameter |].
  intros encoded Hencoded. split.
  - unfold VideoPlugin.fetchVideoMetadata.
    match goal with
    | |- context [try_catch (bind (lift _) ?f) ?h w] =>
        replace (try_catch (bind (lift (Uri.encodeURIComponent url)) f) h w)
          with (try_catch (f encoded) h w)
          by (unfold try_catch; now rewrite bind_lift, Hencoded)
    end.
    apply requests_after_fetch.
    + intro r.
      repeat first [apply appends_fetchChannelIcon | appends_step].
    + intro e. repeat appends_step.
  - apply UriFacts.embed_url_parameter.
    now apply UriFacts.encodeURIComponent_plain with (s := url).
Qed.

End FrameFacts.

(** A run of claim C10 on a link with a query string. *)
Lemma lookup_sends_reference_unencoded_run :
  Uri.encodeURIComponent (lit "https://youtu.be/a?t=1&list=x")
  = Ok (lit "https%3A%2F%2Fyoutu.be%2Fa%3Ft%3D1%26list%3Dx")
  /\ (exists more,
        requests (snd (VideoPlugin.fetchVideoMetadata Sample.icon_off
                         (lit "https://youtu.be/a?t=1&list=x")
                         Sample.video_world))
        = requests Sample.video_world
          ++ (lit "https://noembed.com/embed?url="
              ++ lit "https%3A%2F%2Fyoutu.be%2Fa%3Ft%3D1%26list%3Dx") :: more)
  /\ Uri.query_param (lit "url")
       (embed_url (lit "https%3A%2F%2Fyoutu.be%2Fa%3Ft%3D1%26list%3Dx"))
     = Some (lit "https%3A%2F%2Fyoutu.be%2Fa%3Ft%3D1%26list%3Dx").
Proof.
  split; [vm_compute; reflexivity |].
  apply (lookup_sends_reference_unencoded Sample.icon_off []
           (lit "https://youtu.be/a?t=1&list=x") Sample.video_world).
  vm_compute. reflexivity.
Defined.

End FrameFacts.

(** ** Substitution in the textual variant *)

Module TextualFacts.

(** [replace] rewrites the leftmost occurrence of the text it is given,
    wherever the match that produced that text stood. *)
Lemma replace_rewrites_leftmost str pattern replacement before after :
  split_first pattern str = Some (before, after) ->
  str = before ++ pattern ++ after
  /\ MyPlugin.replace str pattern replacement
     = before ++ MyPlugin.substitution before pattern after replacement
       ++ after
  /\ (forall before' after',
        str = before' ++ pattern ++ after' ->
        (length before <= length before')%nat).
Proof.
  intro Hsplit. split; [now apply StringFacts.split_first_occurrence |].
  split.
  - unfold MyPlugin.replace. now rewrite Hsplit.
  - now apply StringFacts.split_first_leftmost with (after := after).
Qed.

Section TextualFacts.
Context {number : Type} {numeric : Numeric number}.
Variable settings : MyPlugin.MyPluginSettings.

(** A candidate whose resolution yields [null] triggers no replacement
    of its own, and the loop goes on with the next match. *)
Lemma failed_match_is_skipped url rest innerHTML (w w1 : world number) :
  MyPlugin.fetchVideoMetadata url w = (Ok None, w1) ->
  MyPlugin.process_matches settings (url :: rest) innerHTML w
  = MyPlugin.process_matches settings rest innerHTML w1.
Proof.
  intro Hnull. cbn [MyPlugin.process_matches]. unfold bind at 1.
  now rewrite Hnull.
Qed.

End TextualFacts.
End TextualFacts.

(** ** The claims on the render builder and on substitution *)

Module ClaimFacts.

Section Builder.
Context {number : Type} {numeric : Numeric number}.

(** Claim C7, as the code has it. In both variants the node that
    [createPrettyLink] returns holds a thumbnail image exactly when
    [showThumbnail] is set, whatever [thumbnail_url] is; it returns
    no node only when a field it writes cannot be converted to a
    string. *)
Theorem createPrettyLink_thumbnail_iff_showThumbnail
  (settings : VideoPluginSettings) (textual : MyPlugin.MyPluginSettings)
  (md : VideoPlugin.metadata (number := number))
  (md' : MyPlugin.metadata (number := number)) :
  match VideoPlugin.createPrettyLink settings md with
  | Ok n => has_thumbnail n = showThumbnail settings
  | Throw e =>
      In (Throw e)
        (map toString
           [VideoPlugin.thumbnail_url md; VideoPlugin.title md;
            VideoPlugin.author_name md; VideoPlugin.channel_icon_url md])
  end
  /\ match MyPlugin.createPrettyLink textual md' with
     | Ok n => has_thumbnail n = MyPlugin.showThumbnail textual
     | Throw e =>
         In (Throw e)
           (map toString
              [MyPlugin.thumbnail_url md'; MyPlugin.title md';
               MyPlugin.author_name md'])
     end.
Proof.
  split.
  - apply BuilderFacts.VideoPlugin_createPrettyLink_thumbnail.
  - apply BuilderFacts.MyPlugin_createPrettyLink_thumbnail.
Qed.

End Builder.

(** Claim C7 as stated fails: with [showThumbnail] set and an empty
    [thumbnail_url], both variants build the thumbnail image, with an
    empty [src]. *)
Lemma thumbnail_built_for_empty_url :
  option_map (fun n => (has_thumbnail n, Dom.outerHTML n))
    (match VideoPlugin.createPrettyLink VideoPlugin.DEFAULT_SETTINGS
             {| VideoPlugin.title := Sample.str "A video";
                VideoPlugin.author_name := Sample.str "An author";
                VideoPlugin.thumbnail_url := VStr [];
                VideoPlugin.url := lit "https://youtu.be/a";
                VideoPlugin.channel_icon_url := VNull |} with
     | Ok n => Some n
     | Throw _ => None
     end)
  = Some (true,
          Sample.html "<a class='video-metadata-container' href='https://youtu.be/a' target='_blank' rel='noopener noreferrer'><img class='video-thumbnail' src=''><div class='banner'><div class='video-text-container'><strong>A video</strong><span>An author</span></div></div></a>")
  /\ option_map (fun n => (has_thumbnail n, Dom.outerHTML n))
       (match MyPlugin.createPrettyLink MyPlugin.DEFAULT_SETTINGS
                {| MyPlugin.title := Sample.str "A video";
                   MyPlugin.author_name := Sample.str "An author";
                   MyPlugin.thumbnail_url := VStr [] |} with
        | Ok n => Some n
        | Throw _ => None
        end)
     = Some (true,
             Sample.html "<div class='video-metadata-container'><img class='video-thumbnail' src=''><div class='video-title'>A video</div><div class='video-author'>by An author</div></div>").
Proof. split; vm_compute; reflexivity. Qed.

(** Claim C8 at a failing input of the textual variant: the same link
    twice, the first resolution failing and the second succeeding. The
    replacement searches the markup for the text of the link, finds the
    first occurrence, and rewrites it: the occurrence whose resolution
    failed is replaced and the one that resolved is left raw. *)
Lemma textual_failed_candidate_is_rewritten :
  Regex.match_all youtubeRegex (lit "https://youtu.be/a and https://youtu.be/a")
  = Some [lit "https://youtu.be/a"; lit "https://youtu.be/a"]
  /\ fst (MyPlugin.fetchVideoMetadata (lit "https://youtu.be/a")
            Sample.flaky_world)
     = Ok None
  /\ fst (MyPlugin.processMarkdown MyPlugin.DEFAULT_SETTINGS
            (lit "https://youtu.be/a and https://youtu.be/a")
            Sample.flaky_world)
     = Ok (Sample.replaced_markup ++ lit " and https://youtu.be/a").
Proof. repeat split; vm_compute; reflexivity. Qed.

(** Claim C9 at a failing input of the textual variant: two links, the
    title of the first video quoting the second link. The second
    replacement lands inside the markup produced for the first link, and
    the occurrence that was matched stays raw. *)
Lemma textual_replace_rewrites_produced_output :
  Regex.match_all youtubeRegex (lit "https://youtu.be/a https://youtu.be/b")
  = Some [lit "https://youtu.be/a"; lit "https://youtu.be/b"]
  /\ fst (MyPlugin.processMarkdown MyPlugin.DEFAULT_SETTINGS
            (lit "https://youtu.be/a https://youtu.be/b")
            Sample.quoting_world)
     = Ok (Sample.html "<div class='video-metadata-container'><img class='video-thumbnail' src='https://i.ytimg.com/vi/a/hqdefault.jpg'><div class='video-title'>Watch <div class='video-metadata-container'><img class='video-thumbnail' src='https://i.ytimg.com/vi/a/hqdefault.jpg'><div class='video-title'>B</div><div class='video-author'>by An author</div></div> next</div><div class='video-author'>by An author</div></div> https://youtu.be/b").
Proof. repeat split; vm_compute; reflexivity. Qed.

End ClaimFacts.

(** ** The scan of the textual variant *)

Module ScanFacts.
Import Regex RegexFacts.

Lemma orelse_value a b x :
  orelse a b = Some x -> a = Some x \/ (a = None /\ b = Some x).
Proof. destruct a; simpl; intro H; [left | right]; auto. Qed.

Lemma progress_value s k s' x :
  progress s k s' = Some x -> (length s' < length s)%nat /\ k s' = Some x.
Proof.
  unfold progress. destruct (Nat.ltb_spec (length s') (length s));
    [auto | discriminate].
Qed.

(** What the matcher returns is what its continuation returned on the
    text left after a word of the language. *)
Lemma run_value r : forall k s x,
  run r k s = Some x ->
  exists s1 s2, s = s1 ++ s2 /\ lang r s1 /\ k s2 = Some x.
Proof.
  induction r as [| c | p | r1 IH1 r2 IH2 | r1 IH1 r2 IH2 | r1 IH1 | r1 IH1];
    intros k s x; simpl.
  - intro H. now exists [], s.
  - destruct s as [| y s]; [discriminate |].
    destruct (N.eqb_spec y c) as [-> | _]; [| discriminate].
    intro H. now exists [c], s.
  - destruct s as [| y s]; [discriminate |].
    destruct (p y) eqn:Hp; [| discriminate].
    intro H. exists [y], s. repeat split; [now exists y | exact H].
  - intro H. apply IH1 in H. destruct H as (s1 & s2 & -> & H1 & H).
    apply IH2 in H. destruct H as (t1 & t2 & -> & H2 & H).
    exists (s1 ++ t1), t2. rewrite app_assoc. repeat split; [| exact H].
    now exists s1, t1.
  - intro H. apply orelse_value in H. destruct H as [H | [_ H]].
    + apply IH1 in H. destruct H as (s1 & s2 & E & H1 & H).
      exists s1, s2. tauto.
    + apply IH2 in H. destruct H as (s1 & s2 & E & H1 & H).
      exists s1, s2. tauto.
  - intro H. apply orelse_value in H. destruct H as [H | [_ H]].
    + apply IH1 in H. destruct H as (s1 & s2 & E & H1 & H).
      apply progress_value in H. exists s1, s2. tauto.
    + exists [], s. auto.
  - generalize (length s) at 1. intro n. revert s.
    induction n as [| n IHn]; intros s; simpl.
    + intro H. exists [], s. repeat split; [constructor | exact H].
    + intro H. apply orelse_value in H. destruct H as [H | [_ H]].
      * apply IH1 in H. destruct H as (s1 & s2 & -> & H1 & H).
        apply progress_value in H. destruct H as [_ H].
        apply IHn in H. destruct H as (t1 & t2 & -> & H2 & H).
        exists (s1 ++ t1), t2. rewrite app_assoc.
        repeat split; [now constructor | exact H].
      * exists [], s. repeat split; [constructor | exact H].
Qed.

Lemma firstn_prefix (s1 rest : jsstring) :
  firstn (length (s1 ++ rest) - length rest) (s1 ++ rest) = s1.
Proof.
  rewrite length_app, Nat.add_sub.
  rewrite firstn_app, Nat.sub_diag, firstn_all. simpl. apply app_nil_r.
Qed.

(** [exec] cuts the text into what it skipped, a word of the language
    and what follows, the word being what a match attempt at that
    position takes. *)
Lemma exec_value r : forall s skipped matched rest,
  exec r s = Some (skipped, matched, rest) ->
  s = skipped ++ matched ++ rest /\ lang r matched
  /\ match_here r (matched ++ rest) = Some rest.
Proof.
  assert (Hhere : forall s rest,
             match_here r s = Some rest ->
             exists s1, s = s1 ++ rest /\ lang r s1).
  { intros s rest H. apply run_value in H.
    destruct H as (s1 & s2 & -> & Hl & [= ->]). now exists s1. }
  induction s as [| c s IH]; intros skipped matched rest; cbn [exec].
  - destruct (match_here r []) as [rest0 |] eqn:E; [| discriminate].
    intros [= <- <- <-]. destruct (Hhere _ _ E) as (s1 & Hs & Hl).
    destruct s1; [| discriminate]. simpl in Hs. subst rest0.
    simpl. auto.
  - destruct (match_here r (c :: s)) as [rest0 |] eqn:E.
    + intros [= <- <- <-]. destruct (Hhere _ _ E) as (s1 & Hs & Hl).
      change (match length rest0 with
              | O => S (length s)
              | S l => (length s - l)%nat
              end)
        with (length (c :: s) - length rest0)%nat.
      rewrite Hs in *. rewrite firstn_prefix. simpl. auto.
    + destruct (exec r s) as [[[sk m] rs] |] eqn:E2; [| discriminate].
      intros [= <- <- <-].
      destruct (IH _ _ _ eq_refl) as (-> & Hl & Hm). auto.
Qed.

(** Every match of a global scan stands in the text, is a word of the
    language, and is what a match attempt at its position takes. *)
Lemma match_all_from_value r : forall fuel s m,
  In m (match_all_from r fuel s) ->
  exists pre post,
    s = pre ++ m ++ post /\ lang r m /\ match_here r (m ++ post) = Some post.
Proof.
  induction fuel as [| fuel IH]; intros s m; simpl; [tauto |].
  destruct (exec r s) as [[[sk matched] rest] |] eqn:E; [| simpl; tauto].
  apply exec_value in E. destruct E as (-> & Hl & Hm).
  intros [<- | Hin].
  - now exists sk, rest.
  - destruct matched as [| c matched].
    + destruct rest as [| y rest]; [contradiction |].
      apply IH in Hin. destruct Hin as (pre & post & -> & Hl' & Hm').
      exists (sk ++ y :: pre), post. simpl.
      rewrite <- app_assoc. auto.
    + apply IH in Hin. destruct Hin as (pre & post & -> & Hl' & Hm').
      exists (sk ++ (c :: matched) ++ pre), post.
      rewrite <- !app_assoc. auto.
Qed.

(** A greedy run over a character class, with nothing to match after
    it, stops at the end of the text or in front of a character outside
    the class. *)
Lemma star_class_takes_all (p : N -> bool) : forall n s x,
  (length s <= n)%nat ->
  star_loop (run (Class p)) (fun rest => Some rest) n s = Some x ->
  x = [] \/ exists c x', x = c :: x' /\ p c = false.
Proof.
  assert (Hrun : forall k c s,
             run (Class p) k (c :: s) = if p c then k s else None)
    by reflexivity.
  induction n as [| n IH]; intros s x Hn; cbn [star_loop].
  - intros [= <-]. destruct s; [now left | simpl in Hn; lia].
  - destruct s as [| c s]; [intros [= <-]; now left |].
    rewrite Hrun. destruct (p c) eqn:Hp.
    + unfold progress. simpl length.
      destruct (Nat.ltb_spec (length s) (S (length s))); [| lia].
      destruct (star_loop (run (Class p)) (fun rest => Some rest) n s)
        as [y |] eqn:E.
      * simpl. intros [= ?]. subst y.
        apply (IH s x); [simpl in Hn; lia | exact E].
      * exfalso. destruct n; cbn [star_loop] in E; [discriminate |].
        destruct (run (Class p)
                    (progress s
                       (star_loop (run (Class p)) (fun rest => Some rest) n))
                    s); discriminate.
    + simpl. intros [= <-]. right. now exists c, s.
Qed.

Lemma seq_value r1 r2 k s x :
  run (Seq r1 r2) k s = Some x -> exists s2, run r2 k s2 = Some x.
Proof.
  simpl. intro H. apply run_value in H.
  destruct H as (_ & s2 & _ & _ & H). now exists s2.
Qed.

(** A match of the pattern runs to the end of the text or to the next
    white-space character. *)
Lemma youtubeRegex_match_extent s rest :
  match_here youtubeRegex s = Some rest ->
  rest = [] \/ exists c rest', rest = c :: rest' /\ is_space c = true.
Proof.
  unfold match_here, youtubeRegex. intro H.
  do 6 (apply seq_value in H; destruct H as (? & H)).
  apply seq_value in H. destruct H as (t & H).
  cbn [run] in H. apply star_class_takes_all in H; [| reflexivity].
  destruct H as [-> | (c & x' & -> & Hc)]; [now left |].
  right. exists c, x'. split; [reflexivity |].
  unfold not_space in Hc. now destruct (is_space c).
Qed.

Lemma star_class_forallb (p : N -> bool) s :
  star (lang (Class p)) s -> forallb p s = true.
Proof.
  induction 1 as [| s1 s2 (c & -> & Hc) _ IH]; [reflexivity |].
  simpl. now rewrite Hc.
Qed.

(** A word of the pattern is a recognized head followed by characters
    that are not white space. *)
Lemma lang_youtubeRegex_word m :
  lang youtubeRegex m ->
  exists scheme www host path,
    m = scheme ++ lit "://" ++ www ++ host ++ lit "/" ++ path
    /\ In scheme schemes /\ In www www_prefixes /\ In host hosts
    /\ path <> [] /\ forallb not_space path = true.
Proof.
  unfold youtubeRegex. cbn [lang].
  intros (a & s1 & -> & Ha & b & s2 & -> & Hb & c & s3 & -> & Hc
          & d & s4 & -> & Hd & e & s5 & -> & He & f & s6 & -> & Hf & Hg).
  apply lang_Str in Ha, Hc.
  unfold Plus in Hg. cbn [lang] in Hg.
  destruct Hg as (g1 & g2 & -> & (x & -> & Hx) & Hstar).
  apply star_class_forallb in Hstar.
  exists (a ++ b), d, e, (x :: g2).
  split; [subst a c f; repeat rewrite <- app_assoc; reflexivity |].
  split.
  { subst a. destruct Hb as [-> | ->]; [left | right; left]; reflexivity. }
  split.
  { destruct Hd as [-> | Hd]; [now left |].
    apply lang_Str in Hd. right; now left. }
  split.
  { destruct He as [He | He]; apply lang_Str in He;
      [left | right; left]; now subst. }
  split; [discriminate |]. simpl. now rewrite Hx.
Qed.

Lemma head_free_of_space scheme www host :
  In scheme schemes -> In www www_prefixes -> In host hosts ->
  forallb not_space (scheme ++ lit "://" ++ www ++ host ++ lit "/") = true.
Proof.
  intros [<- | [<- | []]] [<- | [<- | []]] [<- | [<- | []]]; reflexivity.
Qed.

(** The candidates of the textual scan. Every match stands in the
    markup, is itself classified as a video URL, holds no white space,
    and runs up to the next white-space character or to the end of the
    markup (so it takes along any markup that follows the link without a
    space). *)
Theorem scan_matches_run_to_white_space (innerHTML : jsstring) matches m :
  match_all youtubeRegex innerHTML = Some matches ->
  In m matches ->
  exists pre post,
    innerHTML = pre ++ m ++ post
    /\ VideoPlugin.isYouTubeUrl m = true
    /\ forallb not_space m = true
    /\ (post = []
        \/ exists c post', post = c :: post' /\ is_space c = true).
Proof.
  unfold match_all. intros Hall Hin.
  assert (Hin' : In m (match_all_from youtubeRegex (S (length innerHTML))
                         innerHTML)).
  { destruct (match_all_from youtubeRegex (S (length innerHTML)) innerHTML);
      [discriminate |]. now injection Hall as <-. }
  apply match_all_from_value in Hin'.
  destruct Hin' as (pre & post & -> & Hlang & Hhere).
  exists pre, post. split; [reflexivity |]. split.
  { unfold VideoPlugin.isYouTubeUrl. apply test_spec.
    exists [], m, []. now rewrite app_nil_r. }
  split.
  { apply lang_youtubeRegex_word in Hlang.
    destruct Hlang as (scheme & www & host & path & -> & Hs & Hw & Hh & _ & Hp).
    replace (scheme ++ lit "://" ++ www ++ host ++ lit "/" ++ path)
      with ((scheme ++ lit "://" ++ www ++ host ++ lit "/") ++ path)
      by (repeat rewrite <- app_assoc; reflexivity).
    now rewrite forallb_app, head_free_of_space, Hp. }
  now apply youtubeRegex_match_extent with (s := m ++ post).
Qed.

(** A run: a link at the end of a paragraph is matched together with
    the closing tag. *)
Lemma scan_matches_run :
  match_all youtubeRegex (lit "<p>see https://youtu.be/a</p> more")
  = Some [lit "https://youtu.be/a</p>"]
  /\ exists pre post,
       lit "<p>see https://youtu.be/a</p> more"
       = pre ++ lit "https://youtu.be/a</p>" ++ post
       /\ VideoPlugin.isYouTubeUrl (lit "https://youtu.be/a</p>") = true
       /\ forallb not_space (lit "https://youtu.be/a</p>") = true
       /\ (post = []
           \/ exists c post', post = c :: post' /\ is_space c = true).
Proof.
  split; [vm_compute; reflexivity |].
  apply (scan_matches_run_to_white_space
           (lit "<p>see https://youtu.be/a</p> more")
           (matches := [lit "https://youtu.be/a</p>"])).
  - vm_compute. reflexivity.
  - now left.
Defined.

(** The scan of the textual variant finds a candidate exactly in the
    markup that the classifier of the structural variant accepts. *)
Theorem scan_finds_nothing_iff_not_classified (innerHTML : jsstring) :
  match_all youtubeRegex innerHTML = None
  <-> VideoPlugin.isYouTubeUrl innerHTML = false.
Proof.
  unfold match_all, VideoPlugin.isYouTubeUrl, test.
  cbn [match_all_from].
  destruct (exec youtubeRegex innerHTML) as [[[skipped matched] rest] |];
    split; intro H; try reflexivity; discriminate.
Qed.

End ScanFacts.

(** ** The settings tab, and loading the settings *)

Module TabFacts.
Import VideoPlugnSettings.

Lemma persisted_last {number : Type} (w w' : world number) s :
  saved w' = saved w ++ [s] -> persisted w' = Some s.
Proof.
  intro H. unfold persisted. rewrite H, rev_app_distr. reflexivity.
Qed.

Lemma persisted_same {number : Type} (w w' : world number) :
  saved w' = saved w -> persisted w' = persisted w.
Proof. intro H. unfold persisted. now rewrite H. Qed.

Lemma settings_toggle visible t :
  settings (toggleApiKeySetting visible t) = settings t.
Proof. unfold toggleApiKeySetting. now destruct (apiKeySetting t). Qed.

Section TabFacts.
Context {number : Type} {numeric : Numeric number}.

(** What [saveSettings] does, in terms of [accepted]. *)
Lemma saveSettings_accepted (s : VideoPluginSettings) (w : world number) :
  exists w',
    VideoPlugin.saveSettings s w = (Ok tt, w')
    /\ network w' = network w
    /\ requests w' = requests w /\ console w' = console w
    /\ saved w' = saved w ++ (if accepted s then [s] else [])
    /\ notices w' = notices w ++ (if accepted s then [] else [refusal]).
Proof.
  unfold VideoPlugin.saveSettings, accepted.
  destruct (showChannelIcon s && is_empty (apiKey s)); simpl;
    eexists; (split; [reflexivity |]); simpl;
    rewrite ?app_nil_r; repeat split; reflexivity.
Qed.

(** One change: the settings in memory are changed whether or not
    they are saved. *)
Lemma onChange_result (c : change) (t : tab) (w : world number) :
  exists t' w',
    onChange c t w = (Ok t', w')
    /\ settings t' = changed c (settings t)
    /\ apiKeySetting t' =
       match c, apiKeySetting t with
       | ChannelIcon value, Some _ =>
           Some (if value then lit "block" else lit "none")
       | _, shown => shown
       end
    /\ network w' = network w
    /\ requests w' = requests w /\ console w' = console w
    /\ saved w' =
       saved w ++ (if accepted (changed c (settings t))
                   then [changed c (settings t)] else [])
    /\ notices w' =
       notices w ++ (if accepted (changed c (settings t))
                     then [] else [refusal]).
Proof.
  destruct c as [value | value | value]; unfold onChange; cbv zeta;
    rewrite ?settings_toggle; cbn [settings changed];
    match goal with
    | |- context [VideoPlugin.saveSettings ?s] =>
        destruct (saveSettings_accepted s w)
          as (w' & Hrun & Hnet & Hreq & Hcon & Hsaved & Hnot)
    end;
    unfold bind; rewrite Hrun; unfold ret;
    do 2 eexists; (split; [reflexivity |]);
    rewrite ?settings_toggle; cbn [settings apiKeySetting];
    repeat split; auto.
  unfold toggleApiKeySetting; cbn [apiKeySetting].
  destruct (apiKeySetting t); reflexivity.
Qed.

End TabFacts.
Section Sessions.
Context {number : Type} {numeric : Numeric number}.

(** A session in the settings tab never throws and touches neither
    the network nor the console. The settings in memory follow every
    change; of the settings the session goes through, exactly the
    accepted ones are saved, in order, and each refused one shows the
    notice once. *)
Theorem session_saves_accepted_states
  (changes : list change) (t : tab) (w : world number) :
  exists t' w',
    session changes t w = (Ok t', w')
    /\ settings t' = fold_left (fun s c => changed c s) changes (settings t)
    /\ network w' = network w
    /\ requests w' = requests w /\ console w' = console w
    /\ saved w' = saved w ++ filter accepted (states changes (settings t))
    /\ notices w' =
       notices w
       ++ map (fun _ => refusal)
            (filter (fun s => negb (accepted s)) (states changes (settings t))).
Proof.
  revert t w. induction changes as [| c rest IH]; intros t w.
  - exists t, w. cbn. rewrite !app_nil_r. repeat split; reflexivity.
  - destruct (onChange_result c t w)
      as (t1 & w1 & Hrun & Hset & _ & Hnet & Hreq & Hcon & Hsaved & Hnot).
    destruct (IH t1 w1)
      as (t' & w' & Hrun' & Hset' & Hnet' & Hreq' & Hcon' & Hsaved' & Hnot').
    exists t', w'. cbn [session]. unfold bind. rewrite Hrun.
    split; [exact Hrun' |].
    cbn [fold_left states filter map]. rewrite Hset in *.
    split; [exact Hset' |].
    split; [congruence |]. split; [congruence |]. split; [congruence |].
    rewrite Hsaved', Hsaved, Hnot', Hnot.
    destruct (accepted (changed c (settings t))); cbn [negb map];
      rewrite <- !app_assoc; split; reflexivity.
Qed.

(** Once the tab is displayed, the API-key row is shown exactly when
    the channel icon is enabled in memory, whatever changes follow. *)
Theorem api_key_row_follows_channel_icon
  (changes : list change) (t : tab) (w : world number) :
  exists t' w',
    session changes (display t) w = (Ok t', w')
    /\ apiKeySetting t' =
       Some (if showChannelIcon (settings t') then lit "block" else lit "none").
Proof.
  assert (Hkept : forall changes (t : tab) (w : world number),
             apiKeySetting t =
             Some (if showChannelIcon (settings t)
                   then lit "block" else lit "none") ->
             exists t' w',
               session changes t w = (Ok t', w')
               /\ apiKeySetting t' =
                  Some (if showChannelIcon (settings t')
                        then lit "block" else lit "none")).
  { clear. induction changes as [| c rest IH]; intros t w Hshown.
    - exists t, w. split; [reflexivity | exact Hshown].
    - destruct (onChange_result c t w)
        as (t1 & w1 & Hrun & Hset & Hrow & _).
      cbn [session]. unfold bind. rewrite Hrun. apply IH.
      rewrite Hrow, Hset, Hshown. destruct c; reflexivity. }
  apply Hkept. unfold display, toggleApiKeySetting. reflexivity.
Qed.

(** Before the tab is displayed there is no API-key row, and changes
    do not create one. *)
Lemma session_without_row (changes : list change) (t : tab) (w : world number) :
  apiKeySetting t = None ->
  exists t' w', session changes t w = (Ok t', w') /\ apiKeySetting t' = None.
Proof.
  revert t w. induction changes as [| c rest IH]; intros t w Hnone.
  - exists t, w. split; [reflexivity | exact Hnone].
  - destruct (onChange_result c t w) as (t1 & w1 & Hrun & _ & Hrow & _).
    cbn [session]. unfold bind. rewrite Hrun. apply IH.
    rewrite Hrow, Hnone. destruct c; reflexivity.
Qed.

End Sessions.

Lemma assign_stored_of defaults s :
  Settings.assign defaults (Some (Settings.stored_of s)) = s.
Proof. destruct s; reflexivity. Qed.

Section Loading.
Context {number : Type} {numeric : Numeric number}.

Lemma loadSettings_result (w : world number) :
  Settings.loadSettings w =
  (Ok (match persisted w with
       | Some s => s
       | None => VideoPlugin.DEFAULT_SETTINGS
       end), w).
Proof.
  unfold Settings.loadSettings, Settings.loadData, bind, ret.
  destruct (persisted w); cbn [option_map]; [| reflexivity].
  now rewrite assign_stored_of.
Qed.

(** Saving then loading: [loadSettings] gives back the settings
    [saveSettings] was called with when they are accepted; when they
    are refused it gives what it gave before the call. Loading changes
    nothing in the world. *)
Theorem loadSettings_after_saveSettings
  (s : VideoPluginSettings) (w : world number) :
  let w' := snd (VideoPlugin.saveSettings s w) in
  fst (Settings.loadSettings w') =
  (if accepted s then Ok s else fst (Settings.loadSettings w))
  /\ snd (Settings.loadSettings w') = w'.
Proof.
  destruct (saveSettings_accepted s w)
    as (w' & Hrun & _ & _ & _ & Hsaved & _).
  rewrite Hrun. cbn [snd]. rewrite !loadSettings_result. cbn [fst snd].
  split; [| reflexivity].
  destruct (accepted s).
  - now rewrite (persisted_last _ _ _ Hsaved).
  - rewrite app_nil_r in Hsaved. now rewrite (persisted_same _ _ Hsaved).
Qed.

(** On a first run (nothing stored) the settings loaded are the
    defaults, which [saveSettings] refuses: in the tab displayed for
    them, changes of the thumbnail setting alone are never saved, and
    each one shows the notice. *)
Theorem first_run_thumbnail_changes_are_refused
  (changes : list change) (w : world number) :
  saved w = [] ->
  Forall (fun c => exists value, c = Thumbnail value) changes ->
  exists loaded t' w',
    Settings.loadSettings w = (Ok loaded, w)
    /\ session changes (display (create loaded)) w = (Ok t', w')
    /\ saved w' = []
    /\ notices w' = notices w ++ repeat refusal (length changes).
Proof.
  intros Hfresh Hthumb.
  exists VideoPlugin.DEFAULT_SETTINGS.
  assert (Hload : Settings.loadSettings w = (Ok VideoPlugin.DEFAULT_SETTINGS, w)).
  { rewrite loadSettings_result. unfold persisted. now rewrite Hfresh. }
  assert (Hrefused : forall (t : tab) (w0 : world number),
             showChannelIcon (settings t) = true ->
             apiKey (settings t) = [] ->
             exists t' w',
               session changes t w0 = (Ok t', w')
               /\ saved w' = saved w0
               /\ notices w' = notices w0 ++ repeat refusal (length changes)).
  { clear Hfresh Hload.
    induction Hthumb as [| c rest (value & ->) _ IH]; intros t w0 Hicon Hkey.
    - exists t, w0. cbn. rewrite app_nil_r. auto.
    - destruct (onChange_result (Thumbnail value) t w0)
        as (t1 & w1 & Hrun & Hset & _ & _ & _ & _ & Hsaved & Hnot).
      assert (Hno : accepted (changed (Thumbnail value) (settings t)) = false).
      { unfold accepted. cbn. now rewrite Hicon, Hkey. }
      rewrite Hno, ?app_nil_r in *.
      destruct (IH t1 w1) as (t' & w' & Hrun' & Hsaved' & Hnot').
      { now rewrite Hset. }
      { now rewrite Hset. }
      exists t', w'. cbn [session]. unfold bind. rewrite Hrun.
      split; [exact Hrun' |]. split; [congruence |].
      rewrite Hnot', Hnot, <- app_assoc. reflexivity. }
  destruct (Hrefused (display (create VideoPlugin.DEFAULT_SETTINGS)) w
              eq_refl eq_refl)
    as (t' & w' & Hrun & Hsaved & Hnot).
  exists t', w'. repeat split; try assumption. congruence.
Qed.

End Loading.

(** A first run: two changes of the thumbnail setting, nothing
    saved. *)
Lemma first_run_thumbnail_changes_run :
  exists loaded t' w',
    Settings.loadSettings Sample.video_world = (Ok loaded, Sample.video_world)
    /\ session [Thumbnail false; Thumbnail true] (display (create loaded))
         Sample.video_world = (Ok t', w')
    /\ saved w' = []
    /\ notices w' = notices Sample.video_world ++ repeat refusal 2.
Proof.
  apply (first_run_thumbnail_changes_are_refused
           (changes := [Thumbnail false; Thumbnail true]) Sample.video_world).
  - reflexivity.
  - repeat constructor; eexists; reflexivity.
Defined.

End TabFacts.

(** ** The node built for a resolved link *)

Module RenderFacts.
Import Uri.

Lemma unreserved_not_surrogate c :
  unreserved c = true -> is_trail c = false /\ is_lead c = false.
Proof.
  unfold unreserved, is_trail, is_lead, in_range. intro H.
  assert (Hsmall : (c < 128)%N).
  { repeat (apply orb_true_iff in H; destruct H as [H | H]);
      try (apply andb_true_iff in H; destruct H as [_ H];
           apply N.leb_le in H; lia).
    all: try (apply N.eqb_eq in H; subst c; reflexivity).
    discriminate. }
  split; apply andb_false_iff; left; apply N.leb_gt; lia.
Qed.

(** A string [encodeURIComponent] accepts holds no unpaired surrogate:
    it is its own scalar-value string. *)
Lemma toUSVString_encodable : forall s t,
  encodeURIComponent s = Ok t -> toUSVString s = s.
Proof.
  assert (H : forall n s t, (length s <= n)%nat ->
                encodeURIComponent s = Ok t -> toUSVString s = s).
  { induction n as [| n IH]; intros s t Hlen.
    - destruct s; [reflexivity | simpl in Hlen; lia].
    - destruct s as [| c rest]; [reflexivity |].
      simpl in Hlen. cbn [encodeURIComponent toUSVString].
      destruct (unreserved c) eqn:Hun.
      + destruct (unreserved_not_surrogate c Hun) as [-> ->].
        destruct (encodeURIComponent rest) as [t' |] eqn:Hrest;
          [| discriminate].
        intros _. f_equal. apply (IH rest t'); [lia | exact Hrest].
      + destruct (is_trail c); [discriminate |].
        destruct (is_lead c).
        * destruct rest as [| d rest']; [discriminate |].
          destruct (is_trail d); [| discriminate].
          destruct (encodeURIComponent rest') as [t' |] eqn:Hrest;
            [| discriminate].
          intros _. do 2 f_equal.
          apply (IH rest' t'); [simpl in Hlen; lia | exact Hrest].
        * destruct (encodeURIComponent rest) as [t' |] eqn:Hrest;
            [| discriminate].
          intros _. f_equal. apply (IH rest t'); [lia | exact Hrest]. }
  intros s t. now apply (H (length s)).
Qed.

Section RenderFacts.
Context {number : Type} {numeric : Numeric number}.
Local Abbreviation jsval := (jsval number).
Local Abbreviation world := (world number).
Variable settings : VideoPluginSettings.

(** A record [fetchVideoMetadata] returns carries the URL it was asked
    for, and that URL could be encoded. *)
Lemma fetchVideoMetadata_some url (w w' : world) md :
  VideoPlugin.fetchVideoMetadata settings url w = (Ok (Some md), w') ->
  VideoPlugin.url md = url
  /\ exists encoded, encodeURIComponent url = Ok encoded.
Proof.
  intro Hrun.
  destruct (ResolverFacts.fetchVideoMetadata_result settings url w)
    as (r & w1 & Hrun' & Hcase).
  rewrite Hrun in Hrun'. injection Hrun' as <- <-.
  unfold embed_body in Hcase.
  destruct (encodeURIComponent url) as [encoded | e]; [| discriminate].
  split; [| now exists encoded].
  destruct (network w (requests w) (embed_url encoded)) as [| [[data |]]];
    try discriminate.
  destruct (truthy data); [| discriminate].
  destruct Hcase as (md' & [= <-] & _ & _ & _ & Hurl). exact Hurl.
Qed.

(** The node the structural variant builds for a resolved link is an
    anchor of class [video-metadata-container] whose [href] is the URL
    that was resolved, unchanged, and which opens in a new tab without
    opener or referrer. *)
Theorem replacement_links_to_resolved_url
  url (w w' : world) (md : VideoPlugin.metadata) n :
  VideoPlugin.fetchVideoMetadata settings url w = (Ok (Some md), w') ->
  VideoPlugin.createPrettyLink settings md = Ok n ->
  Dom.is_tag (lit "a") n = true
  /\ Dom.has_class (lit "video-metadata-container") n = true
  /\ Dom.getAttribute (lit "href") n = Some url
  /\ Dom.getAttribute (lit "target") n = Some (lit "_blank")
  /\ Dom.getAttribute (lit "rel") n = Some (lit "noopener noreferrer").
Proof.
  intros Hrun Hbuilt.
  destruct (fetchVideoMetadata_some _ _ Hrun) as (Hurl & encoded & Henc).
  destruct (BuilderFacts.VideoPlugin_createPrettyLink_shape _ _ Hbuilt)
    as (kids & -> & _).
  rewrite Hurl, (toUSVString_encodable _ Henc).
  repeat split; reflexivity.
Qed.

End RenderFacts.

(** A run: the link to a video the service knows. *)
Lemma replacement_links_to_resolved_url_run :
  Dom.is_tag (lit "a") Runs.video_node = true
  /\ Dom.has_class (lit "video-metadata-container") Runs.video_node = true
  /\ Dom.getAttribute (lit "href") Runs.video_node
     = Some (lit "https://youtu.be/a")
  /\ Dom.getAttribute (lit "target") Runs.video_node = Some (lit "_blank")
  /\ Dom.getAttribute (lit "rel") Runs.video_node
     = Some (lit "noopener noreferrer").
Proof.
  apply (replacement_links_to_resolved_url
           Sample.icon_off (lit "https://youtu.be/a") Sample.video_world
           (w' := snd (VideoPlugin.fetchVideoMetadata Sample.icon_off
                         (lit "https://youtu.be/a") Sample.video_world))
           (md := Runs.video_metadata)).
  - vm_compute. reflexivity.
  - vm_compute. reflexivity.
Defined.

Section Built.
Context {number : Type} {numeric : Numeric number}.
Local Abbreviation jsval := (jsval number).
Local Abbreviation world := (world number).

Lemma VideoPlugin_createPrettyLink_channel_icon
  (settings : VideoPluginSettings) (md : VideoPlugin.metadata) n :
  VideoPlugin.createPrettyLink settings md = Ok n ->
  has_channel_icon n = truthy (VideoPlugin.channel_icon_url md).
Proof.
  unfold VideoPlugin.createPrettyLink, Dom.set_src, Dom.createElement.
  cbn [Dom.classList_add Dom.getAttribute Dom.lookup_attr Dom.setAttribute
       Dom.update_attr].
  rewrite !BuilderFacts.set_textContent_eq.
  destruct (showThumbnail settings);
    [destruct (toString (VideoPlugin.thumbnail_url md)) as [th | e];
     [| discriminate] |];
    cbn [rbind];
    (destruct (text_of (VideoPlugin.title md)) as [[| c t] | e];
     [| | discriminate]);
    cbn [rbind];
    (destruct (text_of (VideoPlugin.author_name md)) as [[| c' a] | e];
     [| | discriminate]);
    cbn [rbind];
    (destruct (truthy (VideoPlugin.channel_icon_url md));
     [destruct (toString (VideoPlugin.channel_icon_url md)) as [ic | e];
      [| discriminate] |]);
    cbn [rbind]; intros [= <-]; vm_compute; reflexivity.
Qed.

Lemma fetchVideoMetadata_icon_off
  (settings : VideoPluginSettings) url (w w' : world) md :
  showChannelIcon settings = false ->
  VideoPlugin.fetchVideoMetadata settings url w = (Ok (Some md), w') ->
  VideoPlugin.channel_icon_url md = VNull.
Proof.
  intro Hoff.
  unfold VideoPlugin.fetchVideoMetadata, try_catch.
  rewrite ResolverFacts.bind_lift, Hoff.
  destruct (encodeURIComponent url) as [encoded | e];
    [| unfold bind, console_error, ret; simpl; discriminate].
  unfold bind at 1. unfold fetch at 1.
  destruct (network w (requests w) (embed_url encoded)) as [| [[data |]]];
    try (unfold bind, console_error, lift, ret; simpl; discriminate).
  unfold json. unfold bind at 1. unfold ret at 1.
  destruct (truthy data); [| unfold ret; discriminate].
  unfold bind at 1. unfold ret at 1.
  rewrite ResolverFacts.bind_lift.
  destruct (get data (lit "title")) as [t | e];
    [| unfold bind, console_error, ret; simpl; discriminate].
  rewrite ResolverFacts.bind_lift.
  destruct (get data (lit "author_name")) as [a | e];
    [| unfold bind, console_error, ret; simpl; discriminate].
  rewrite ResolverFacts.bind_lift.
  destruct (get data (lit "thumbnail_url")) as [th | e];
    [| unfold bind, console_error, ret; simpl; discriminate].
  unfold ret. intros [= <- _]. reflexivity.
Qed.

(** The node built for a resolved link holds a channel icon exactly
    when the record carries a truthy [channel_icon_url]; with the
    channel icon disabled in the settings it never holds one. *)
Theorem channel_icon_shown_iff_resolved
  (settings : VideoPluginSettings) url (w w' : world)
  (md : VideoPlugin.metadata) n :
  VideoPlugin.fetchVideoMetadata settings url w = (Ok (Some md), w') ->
  VideoPlugin.createPrettyLink settings md = Ok n ->
  has_channel_icon n = truthy (VideoPlugin.channel_icon_url md)
  /\ (showChannelIcon settings = false -> has_channel_icon n = false).
Proof.
  intros Hrun Hbuilt.
  pose proof (VideoPlugin_createPrettyLink_channel_icon _ _ Hbuilt) as Hicon.
  split; [exact Hicon |].
  intro Hoff. rewrite Hicon.
  now rewrite (fetchVideoMetadata_icon_off _ _ _ Hoff Hrun).
Qed.

(** The text a reader sees in the node built: the title followed by
    the author name in the structural variant, the title followed by
    [by ] and the author name in the textual variant; a [null] or
    missing title reads as nothing, and so does a [null] or missing
    author name in the structural variant only. The textual node holds
    no anchor. *)
Theorem replacement_shows_title_and_author
  (settings : VideoPluginSettings) (textual : MyPlugin.MyPluginSettings)
  (md : VideoPlugin.metadata) (md' : MyPlugin.metadata) :
  (forall n,
     VideoPlugin.createPrettyLink settings md = Ok n ->
     exists title author,
       text_of (VideoPlugin.title md) = Ok title
       /\ text_of (VideoPlugin.author_name md) = Ok author
       /\ textContent n = title ++ author)
  /\ (forall n,
        MyPlugin.createPrettyLink textual md' = Ok n ->
        exists title author,
          text_of (MyPlugin.title md') = Ok title
          /\ toString (MyPlugin.author_name md') = Ok author
          /\ textContent n = title ++ lit "by " ++ author
          /\ anchors n = []).
Proof.
  split; intro n.
  - unfold VideoPlugin.createPrettyLink, Dom.set_src, Dom.createElement.
    cbn [Dom.classList_add Dom.getAttribute Dom.lookup_attr Dom.setAttribute
         Dom.update_attr].
    rewrite !BuilderFacts.set_textContent_eq.
    destruct (showThumbnail settings);
      [destruct (toString (VideoPlugin.thumbnail_url md)) as [th | e];
       [| discriminate] |];
      cbn [rbind];
      (destruct (text_of (VideoPlugin.title md)) as [[| c t] | e];
       [| | discriminate]);
      cbn [rbind];
      (destruct (text_of (VideoPlugin.author_name md)) as [[| c' a] | e];
       [| | discriminate]);
      cbn [rbind];
      (destruct (truthy (VideoPlugin.channel_icon_url md));
       [destruct (toString (VideoPlugin.channel_icon_url md)) as [ic | e];
        [| discriminate] |]);
      cbn [rbind]; intros [= <-]; do 2 eexists;
      (split; [reflexivity |]); (split; [reflexivity |]);
      cbn; rewrite ?app_nil_r; reflexivity.
  - unfold MyPlugin.createPrettyLink, Dom.set_src, Dom.createElement.
    cbn [Dom.classList_add Dom.getAttribute Dom.lookup_attr Dom.setAttribute
         Dom.update_attr].
    rewrite !BuilderFacts.set_textContent_eq.
    destruct (text_of (MyPlugin.title md')) as [[| c t] | e];
      [| | discriminate];
      cbn [rbind];
      (destruct (toString (MyPlugin.author_name md')) as [a | e];
       [| discriminate]);
      cbn [rbind];
      (destruct (MyPlugin.showThumbnail textual);
       [destruct (toString (MyPlugin.thumbnail_url md')) as [th | e];
        [| discriminate] |]);
      cbn [rbind]; intros [= <-]; do 2 eexists;
      (split; [reflexivity |]); (split; [reflexivity |]);
      (split; [cbn; rewrite ?app_nil_r; reflexivity | vm_compute; reflexivity]).
Qed.

End Built.

(** A run: the channel directory knows the author, and the icon is
    shown. *)
Lemma channel_icon_shown_run :
  has_channel_icon Runs.icon_node
  = truthy (VideoPlugin.channel_icon_url Runs.icon_metadata)
  /\ (showChannelIcon Runs.icon_on = false ->
      has_channel_icon Runs.icon_node = false).
Proof.
  apply (channel_icon_shown_iff_resolved
           Runs.icon_on (lit "https://youtu.be/a") Runs.directory_world
           (w' := snd (VideoPlugin.fetchVideoMetadata Runs.icon_on
                         (lit "https://youtu.be/a") Runs.directory_world))
           (md := Runs.icon_metadata)).
  - vm_compute. reflexivity.
  - vm_compute. reflexivity.
Defined.

(** A run: the fields of the record are strings and [null]. *)
Lemma createPrettyLink_builds_run :
  exists n,
    VideoPlugin.createPrettyLink Sample.icon_off Runs.video_metadata = Ok n.
Proof.
  apply (BuilderFacts.VideoPlugin_createPrettyLink_builds
           Sample.icon_off Runs.video_metadata).
  intros v [<- | [<- | [<- | [<- | []]]]]; eexists; reflexivity.
Defined.

End RenderFacts.

(** ** What a resolution sends, and what a pass can raise *)

Module ResolutionFacts.
Import HostFacts ResolverFacts.

Section ResolutionFacts.
Context {number : Type} {numeric : Numeric number}.
Local Abbreviation jsval := (jsval number).
Local Abbreviation world := (world number).
Local Abbreviation M := (M number).
Variable settings : VideoPluginSettings.

(** The requests of one call to [fetchChannelIcon]: none when the
    author reference cannot be converted to a string, else the search
    request, followed by the channels request unless the identifier
    found cannot be converted to a string. *)
Lemma fetchChannelIcon_requests (v : jsval) (w : world) :
  exists icon w' added,
    VideoPlugin.fetchChannelIcon settings v w = (Ok icon, w')
    /\ requests w' = requests w ++ added
    /\ (added = []
        \/ exists reference,
             toString v = Ok reference
             /\ (added = [VideoPlugin.search_url settings reference]
                 \/ exists id,
                      added = [VideoPlugin.search_url settings reference;
                               VideoPlugin.channels_url settings id])).
Proof.
  destruct (toString v) as [customUrl | e] eqn:Hv.
  - destruct (getChannelIdFromUrl_result settings v w Hv)
      as (channelId & w1 & Hid & Hreq & _).
    unfold VideoPlugin.fetchChannelIcon, try_catch.
    unfold bind at 1. unfold bind at 1. rewrite Hid.
    rewrite bind_lift.
    destruct (toString channelId) as [id | e'].
    + unfold bind at 1. unfold fetch at 1.
      assert (Hadded :
        forall (w2 : world) added,
          requests w2 = (requests w1 ++ [VideoPlugin.channels_url settings id])
          -> added = [VideoPlugin.search_url settings customUrl;
                      VideoPlugin.channels_url settings id]
          -> requests w2 = requests w ++ added
             /\ (added = []
                 \/ exists reference,
                      Ok customUrl = Ok reference
                      /\ (added = [VideoPlugin.search_url settings reference]
                          \/ exists id0,
                               added =
                               [VideoPlugin.search_url settings reference;
                                VideoPlugin.channels_url settings id0]))).
      { intros w2 added Hw2 ->. split.
        - rewrite Hw2, Hreq, <- app_assoc. reflexivity.
        - right. exists customUrl. split; [reflexivity |]. right. now exists id. }
      destruct (network w1 (requests w1) (VideoPlugin.channels_url settings id))
        as [| [[data |]]]; cbn [json];
        try (unfold bind, console_error, lift, ret; simpl;
             do 3 eexists; split; [reflexivity |];
             apply Hadded; reflexivity).
      unfold bind at 1. unfold ret at 1. rewrite bind_lift.
      destruct (VideoPlugin.has_items data) as [[|] | e'']; cbn [rbind];
        try (unfold bind, console_error, lift, ret; simpl;
             do 3 eexists; split; [reflexivity |];
             apply Hadded; reflexivity).
      rewrite bind_lift.
      destruct (VideoPlugin.first_thumbnail_url data) as [found | e''];
        cbn [rbind]; unfold bind, console_error, lift, ret; simpl;
        do 3 eexists; (split; [reflexivity |]);
        apply Hadded; reflexivity.
    + unfold bind, console_error, ret; simpl.
      do 3 eexists. split; [reflexivity |]. split; [exact Hreq |].
      right. exists customUrl. split; [reflexivity |]. now left.
  - unfold VideoPlugin.fetchChannelIcon, VideoPlugin.getChannelIdFromUrl,
      try_catch.
    unfold bind at 1. unfold bind at 1. rewrite bind_lift, Hv.
    unfold bind, console_error, ret; simpl.
    exists VNull. do 2 eexists. split; [reflexivity |].
    split; [| now left]. simpl. now rewrite app_nil_r.
Qed.

(** One resolution sends at most three requests, in a fixed order:
    the embed-info request for the encoded URL, then (with the channel
    icon enabled) the search request, then the channels request. A URL
    that cannot be encoded sends nothing. *)
Theorem resolution_sends_requests_in_order (url : jsstring) (w : world) :
  exists r w' added,
    VideoPlugin.fetchVideoMetadata settings url w = (Ok r, w')
    /\ requests w' = requests w ++ added
    /\ ((added = [] /\ exists e, Uri.encodeURIComponent url = Throw e)
        \/ exists encoded,
             Uri.encodeURIComponent url = Ok encoded
             /\ (added = [embed_url encoded]
                 \/ (showChannelIcon settings = true
                     /\ exists reference,
                          added = [embed_url encoded;
                                   VideoPlugin.search_url settings reference]
                          \/ exists id,
                               added =
                               [embed_url encoded;
                                VideoPlugin.search_url settings reference;
                                VideoPlugin.channels_url settings id]))).
Proof.
  unfold VideoPlugin.fetchVideoMetadata, try_catch.
  rewrite bind_lift.
  destruct (Uri.encodeURIComponent url) as [encoded | e].
  2:{ unfold bind, console_error, ret; simpl.
      do 3 eexists. split; [reflexivity |]. simpl.
      split; [symmetry; apply app_nil_r |]. left. split; [reflexivity |].
      now exists e. }
  unfold bind at 1. unfold fetch at 1.
  assert (Hone : forall (w2 : world) added,
             requests w2 = requests w ++ [embed_url encoded] ->
             added = [embed_url encoded] ->
             requests w2 = requests w ++ added
             /\ ((added = [] /\ exists e, Ok encoded = Throw e :> result jsstring)
                 \/ exists encoded0,
                      Ok encoded = Ok encoded0
                      /\ (added = [embed_url encoded0]
                          \/ (showChannelIcon settings = true
                              /\ exists reference,
                                   added =
                                   [embed_url encoded0;
                                    VideoPlugin.search_url settings reference]
                                   \/ exists id,
                                        added =
                                        [embed_url encoded0;
                                         VideoPlugin.search_url settings
                                           reference;
                                         VideoPlugin.channels_url settings
                                           id])))).
  { intros w2 added Hw2 ->. split; [exact Hw2 |].
    right. exists encoded. split; [reflexivity |]. now left. }
  destruct (network w (requests w) (embed_url encoded)) as [| [[data |]]];
    try (unfold bind, console_error, lift, ret, json; simpl;
         do 3 eexists; split; [reflexivity |]; apply Hone; reflexivity).
  unfold json. unfold bind at 1. unfold ret at 1.
  destruct (truthy data) eqn:Ht;
    [| unfold ret; do 3 eexists; split; [reflexivity |];
       apply Hone; reflexivity].
  destruct (get_truthy data (lit "title") Ht) as (t & Hget_t).
  destruct (get_truthy data (lit "author_name") Ht) as (a & Hget_a).
  destruct (get_truthy data (lit "thumbnail_url") Ht) as (th & Hget_th).
  destruct (get_truthy data (lit "author_url") Ht) as (au & Hget_au).
  unfold bind at 1.
  destruct (showChannelIcon settings) eqn:Hicon.
  - rewrite bind_lift, Hget_au.
    match goal with
    | |- context [VideoPlugin.fetchChannelIcon settings au ?w1] =>
        destruct (fetchChannelIcon_requests au w1)
          as (icon & w2 & added & Hrun & Hreq & Hadded)
    end.
    rewrite Hrun.
    rewrite !bind_lift, Hget_t. rewrite !bind_lift, Hget_a.
    rewrite !bind_lift, Hget_th. unfold ret.
    exists (Some {| VideoPlugin.title := t;
                    VideoPlugin.author_name := a;
                    VideoPlugin.thumbnail_url := th;
                    VideoPlugin.url := url;
                    VideoPlugin.channel_icon_url := icon |}),
           w2, (embed_url encoded :: added).
    split; [reflexivity |].
    split; [rewrite Hreq; simpl; now rewrite <- app_assoc |].
    right. exists encoded. split; [reflexivity |].
    destruct Hadded as [-> | (reference & _ & [-> | (id & ->)])].
    + now left.
    + right. split; [reflexivity |]. exists reference. now left.
    + right. split; [reflexivity |]. exists reference. right. now exists id.
  - unfold ret at 1.
    rewrite !bind_lift, Hget_t. rewrite !bind_lift, Hget_a.
    rewrite !bind_lift, Hget_th. unfold ret.
    do 3 eexists. split; [reflexivity |]. apply Hone; reflexivity.
Qed.

(** With the channel icon enabled and a truthy response, the icon
    resolver is run on the [author_url] of the response ([undefined]
    when the response has none), after the embed-info request; the
    record carries what it returns. *)
Theorem channel_icon_is_resolved_from_author_url
  (url encoded : jsstring) (data : jsval) (w : world) :
  showChannelIcon settings = true ->
  Uri.encodeURIComponent url = Ok encoded ->
  network w (requests w) (embed_url encoded)
  = Resolved (Response (Some data)) ->
  truthy data = true ->
  exists author_url icon md w',
    get data (lit "author_url") = Ok author_url
    /\ VideoPlugin.fetchChannelIcon settings author_url
         (snd (fetch (embed_url encoded) w)) = (Ok icon, w')
    /\ VideoPlugin.fetchVideoMetadata settings url w = (Ok (Some md), w')
    /\ VideoPlugin.channel_icon_url md = icon.
Proof.
  intros Hicon Henc Hnet Ht.
  destruct (get_truthy data (lit "title") Ht) as (t & Hget_t).
  destruct (get_truthy data (lit "author_name") Ht) as (a & Hget_a).
  destruct (get_truthy data (lit "thumbnail_url") Ht) as (th & Hget_th).
  destruct (get_truthy data (lit "author_url") Ht) as (au & Hget_au).
  destruct (fetchChannelIcon_total settings au
              (snd (fetch (embed_url encoded) w))) as (icon & w' & Hrun).
  exists au, icon,
    {| VideoPlugin.title := t;
       VideoPlugin.author_name := a;
       VideoPlugin.thumbnail_url := th;
       VideoPlugin.url := url;
       VideoPlugin.channel_icon_url := icon |}, w'.
  split; [exact Hget_au |]. split; [exact Hrun |]. split; [| reflexivity].
  assert (Hfetch : fetch (embed_url encoded) w
                   = (Ok (Response (Some data)),
                      snd (fetch (embed_url encoded) w))).
  { unfold fetch. rewrite Hnet. reflexivity. }
  unfold VideoPlugin.fetchVideoMetadata, try_catch.
  rewrite bind_lift, Henc.
  unfold bind at 1. rewrite Hfetch.
  unfold json. unfold bind at 1. unfold ret at 1. rewrite Ht, Hicon.
  unfold bind at 1. rewrite bind_lift, Hget_au, Hrun.
  rewrite !bind_lift, Hget_t. rewrite !bind_lift, Hget_a.
  rewrite !bind_lift, Hget_th. reflexivity.
Qed.

Lemma encodeURIComponent_throws : forall s e,
  Uri.encodeURIComponent s = Throw e -> e = URIError.
Proof.
  assert (H : forall n s e, (length s <= n)%nat ->
                Uri.encodeURIComponent s = Throw e -> e = URIError).
  { induction n as [| n IH]; intros s e Hlen.
    - destruct s; [discriminate | simpl in Hlen; lia].
    - destruct s as [| c rest]; [discriminate |].
      simpl in Hlen. cbn [Uri.encodeURIComponent].
      destruct (Uri.unreserved c).
      + destruct (Uri.encodeURIComponent rest) as [t' | e'] eqn:Hrest;
          [discriminate |].
        intros [= <-]. apply (IH rest); [lia | exact Hrest].
      + destruct (Uri.is_trail c); [now intros [= <-] |].
        destruct (Uri.is_lead c).
        * destruct rest as [| d rest']; [now intros [= <-] |].
          destruct (Uri.is_trail d); [| now intros [= <-]].
          destruct (Uri.encodeURIComponent rest') as [t' | e'] eqn:Hrest;
            [discriminate |].
          intros [= <-]. apply (IH rest'); [simpl in Hlen; lia | exact Hrest].
        * destruct (Uri.encodeURIComponent rest) as [t' | e'] eqn:Hrest;
            [discriminate |].
          intros [= <-]. apply (IH rest); [lia | exact Hrest]. }
  intros s e. now apply (H (length s)).
Qed.

(** A URL that cannot be encoded (it holds an unpaired surrogate) is
    not sent anywhere: both variants log the [URIError] and return
    [null]. *)
Theorem unencodable_url_is_not_requested (url : jsstring) e (w : world) :
  Uri.encodeURIComponent url = Throw e ->
  e = URIError
  /\ (let run := VideoPlugin.fetchVideoMetadata settings url w in
      fst run = Ok None
      /\ requests (snd run) = requests w
      /\ console (snd run)
         = console w ++ [(lit "Error fetching video metadata:", URIError)])
  /\ (let run := MyPlugin.fetchVideoMetadata url w in
      fst run = Ok None
      /\ requests (snd run) = requests w
      /\ console (snd run)
         = console w ++ [(lit "Error fetching video metadata:", URIError)]).
Proof.
  intro Henc. pose proof (encodeURIComponent_throws _ Henc) as ->.
  split; [reflexivity |].
  unfold VideoPlugin.fetchVideoMetadata, MyPlugin.fetchVideoMetadata,
    try_catch.
  rewrite !bind_lift, Henc.
  unfold bind, console_error, ret; simpl. repeat split; reflexivity.
Qed.

(** A conversion to a string fails with a [TypeError] only. *)
Lemma toString_throws : forall (v : jsval) e,
  toString v = Throw e -> e = TypeError.
Proof.
  fix IH 1. intros v e.
  destruct v as [| | [|] | n | s | items | fields]; cbn [toString];
    try discriminate.
  - assert (Hitems : forall e',
              sequence
                (map (fun x : jsval =>
                        match x with
                        | VUndefined | VNull => Ok []
                        | _ => toString x
                        end) items) = Throw e' ->
              e' = TypeError).
    { induction items as [| x items IHitems]; intro e'; cbn [map sequence];
        [discriminate |].
      match goal with
      | |- rbind ?r _ = _ -> _ => destruct r as [part | e''] eqn:Hx
      end; cbn [rbind].
      - destruct (sequence _) as [parts | e''] eqn:Hs; cbn [rbind];
          [discriminate |].
        intros [= <-]. now apply IHitems.
      - intros [= <-].
        assert (Hthrow : toString x = Throw e'')
          by (destruct x; try discriminate; exact Hx).
        exact (IH x e'' Hthrow). }
    destruct (sequence _) as [parts | e'] eqn:Hs; cbn [rbind];
      [discriminate |].
    intros [= <-]. now apply Hitems.
  - destruct (own (lit "toString") fields); [| discriminate].
    now intros [= <-].
Qed.

Lemma VideoPlugin_createPrettyLink_throws (md : VideoPlugin.metadata) e :
  VideoPlugin.createPrettyLink settings md = Throw e -> e = TypeError.
Proof.
  intro Hthrow.
  pose proof (BuilderFacts.VideoPlugin_createPrettyLink_thumbnail settings md)
    as H.
  rewrite Hthrow in H. apply in_map_iff in H. destruct H as (v & Hv & _).
  now apply toString_throws with (v := v).
Qed.

Lemma MyPlugin_createPrettyLink_throws textual (md : MyPlugin.metadata) e :
  MyPlugin.createPrettyLink textual md = Throw e -> e = TypeError.
Proof.
  intro Hthrow.
  pose proof (BuilderFacts.MyPlugin_createPrettyLink_thumbnail textual md)
    as H.
  rewrite Hthrow in H. apply in_map_iff in H. destruct H as (v & Hv & _).
  now apply toString_throws with (v := v).
Qed.

Lemma raises_only_ret {A} allowed (a : A) :
  raises_only allowed (ret (number := number) a).
Proof. intros w e. discriminate. Qed.

Lemma raises_only_total {A} allowed (c : M A) :
  total c -> raises_only allowed c.
Proof.
  intros Htotal w e. destruct (Htotal w) as (a & w' & ->). discriminate.
Qed.

Lemma raises_only_lift {A} (allowed : error -> Prop) (r : result A) :
  (forall e, r = Throw e -> allowed e) ->
  raises_only allowed (lift (number := number) r).
Proof. intros Hr w e. apply Hr. Qed.

Lemma raises_only_bind {A B} allowed (c : M A) (f : A -> M B) :
  raises_only allowed c -> (forall a, raises_only allowed (f a)) ->
  raises_only allowed (bind c f).
Proof.
  intros Hc Hf w e. unfold bind.
  pose proof (Hc w) as Hcw.
  destruct (c w) as [[a | e'] w1].
  - apply Hf.
  - intros [= <-]. now apply Hcw.
Qed.

Lemma raises_only_visit_all allowed kids :
  Forall (fun n => raises_only allowed (VideoPlugin.visit settings n)) kids ->
  raises_only allowed (VideoPlugin.visit_all settings kids).
Proof.
  induction 1 as [| k kids Hk _ IH]; simpl; [apply raises_only_ret |].
  apply raises_only_bind; [exact Hk |]. intro k'.
  apply raises_only_bind; [exact IH |]. intro l. apply raises_only_ret.
Qed.

Lemma raises_only_visit n :
  raises_only (fun e => e = TypeError) (VideoPlugin.visit settings n).
Proof.
  induction n as [d | tag attrs kids IH] using PipelineFacts.node_induction.
  - apply raises_only_ret.
  - rewrite PipelineFacts.visit_Element. cbv zeta.
    pose proof (raises_only_visit_all IH) as Hkids.
    assert (Hdescend :
      raises_only (fun e => e = TypeError)
        (kids' <- VideoPlugin.visit_all settings kids ;;
         ret (Dom.Element tag attrs kids'))).
    { apply raises_only_bind; [exact Hkids |]. intro. apply raises_only_ret. }
    destruct (JsString.eqb tag (lit "a")); [| exact Hdescend].
    destruct (Dom.lookup_attr (lit "href") attrs) as [url |];
      [| exact Hdescend].
    destruct (negb (is_empty url) && VideoPlugin.isYouTubeUrl url);
      [| exact Hdescend].
    apply raises_only_bind.
    + apply raises_only_total, fetchVideoMetadata_total.
    + intros [md |]; [| exact Hdescend].
      apply raises_only_bind.
      * apply raises_only_lift. apply VideoPlugin_createPrettyLink_throws.
      * intro prettyLink. apply raises_only_bind; [exact Hkids |].
        intro. apply raises_only_ret.
Qed.

Lemma raises_only_process_matches textual matches : forall innerHTML,
  raises_only (fun e => e = TypeError)
    (MyPlugin.process_matches (number := number) textual matches innerHTML).
Proof.
  induction matches as [| url rest IH]; intro innerHTML; simpl.
  - apply raises_only_ret.
  - apply raises_only_bind.
    + apply raises_only_total, MyPlugin_fetchVideoMetadata_total.
    + intros [md |]; [| apply IH].
      apply raises_only_bind.
      * apply raises_only_lift. apply MyPlugin_createPrettyLink_throws.
      * intro prettyLink. apply IH.
Qed.

(** The only exception that can escape a pass, in either variant, is
    the [TypeError] of a response field that cannot be converted to a
    string while the node is built; failures of the network, of the
    JSON parser and of the URL encoding never escape. *)
Theorem pass_raises_only_TypeError
  (textual : MyPlugin.MyPluginSettings)
  (fragment : list Dom.node) (innerHTML : jsstring) (w : world) e :
  (fst (VideoPlugin.processMarkdown settings fragment w) = Throw e ->
   e = TypeError)
  /\ (fst (MyPlugin.processMarkdown textual innerHTML w) = Throw e ->
      e = TypeError).
Proof.
  split.
  - apply (raises_only_visit_all (allowed := fun e => e = TypeError)).
    apply Forall_forall. intros n _. apply raises_only_visit.
  - unfold MyPlugin.processMarkdown.
    destruct (Regex.match_all youtubeRegex innerHTML).
    + apply raises_only_process_matches.
    + discriminate.
Qed.

End ResolutionFacts.
(** A run: the channel directory knows the author. *)
Lemma channel_icon_is_resolved_run :
  exists author_url icon md w',
    get Sample.video_body (lit "author_url") = Ok author_url
    /\ VideoPlugin.fetchChannelIcon Runs.icon_on author_url
         (snd (fetch (embed_url (lit "https%3A%2F%2Fyoutu.be%2Fa"))
                 Runs.directory_world)) = (Ok icon, w')
    /\ VideoPlugin.fetchVideoMetadata Runs.icon_on (lit "https://youtu.be/a")
         Runs.directory_world = (Ok (Some md), w')
    /\ VideoPlugin.channel_icon_url md = icon.
Proof.
  apply (channel_icon_is_resolved_from_author_url
           Runs.icon_on (lit "https://youtu.be/a")
           (encoded := lit "https%3A%2F%2Fyoutu.be%2Fa")
           (data := Sample.video_body) Runs.directory_world);
    reflexivity.
Defined.

(** A run: a link that ends in a lone lead surrogate. *)
Lemma unencodable_url_run :
  URIError = URIError
  /\ (let run :=
        VideoPlugin.fetchVideoMetadata Sample.icon_off
          (lit "https://youtu.be/" ++ [55357%N]) Sample.video_world in
      fst run = Ok None
      /\ requests (snd run) = requests Sample.video_world
      /\ console (snd run)
         = console Sample.video_world
           ++ [(lit "Error fetching video metadata:", URIError)])
  /\ (let run :=
        MyPlugin.fetchVideoMetadata
          (lit "https://youtu.be/" ++ [55357%N]) Sample.video_world in
      fst run = Ok None
      /\ requests (snd run) = requests Sample.video_world
      /\ console (snd run)
         = console Sample.video_world
           ++ [(lit "Error fetching video metadata:", URIError)]).
Proof.
  apply (unencodable_url_is_not_requested
           Sample.icon_off (lit "https://youtu.be/" ++ [55357%N])
           Sample.video_world).
  reflexivity.
Defined.

(** A run in which the exception does escape: the title of the
    response is an object with a [toString] property. *)
Example pass_raises_TypeError_on_unprintable_title :
  fst (VideoPlugin.processMarkdown Sample.icon_off [Sample.video_link]
         Runs.unprintable_world) = Throw TypeError
  /\ fst (MyPlugin.processMarkdown MyPlugin.DEFAULT_SETTINGS
            (lit "https://youtu.be/a") Runs.unprintable_world)
     = Throw TypeError.
Proof. split; vm_compute; reflexivity. Qed.

End ResolutionFacts.

(** ** The requests of a pass, and what it does with a candidate *)

Module PassFacts.
Import HostFacts ResolverFacts PipelineFacts.

Section PassFacts.
Context {number : Type} {numeric : Numeric number}.
Local Abbreviation jsval := (jsval number).
Local Abbreviation world := (world number).
Local Abbreviation M := (M number).

(** Without the channel icon, a resolution sends the embed-info
    request and nothing else. *)
Lemma fetchVideoMetadata_embed_requests
  (settings : VideoPluginSettings) url (w : world) :
  showChannelIcon settings = false ->
  exists r w',
    VideoPlugin.fetchVideoMetadata settings url w = (Ok r, w')
    /\ requests w' = requests w ++ embed_requests url.
Proof.
  intro Hoff.
  unfold VideoPlugin.fetchVideoMetadata, embed_requests, try_catch.
  rewrite bind_lift, Hoff.
  destruct (Uri.encodeURIComponent url) as [encoded | e].
  2:{ unfold bind, console_error, ret; simpl.
      do 2 eexists. split; [reflexivity |]. simpl. now rewrite app_nil_r. }
  unfold bind at 1. unfold fetch at 1.
  destruct (network w (requests w) (embed_url encoded)) as [| [[data |]]];
    try (unfold bind, console_error, lift, ret, json; simpl;
         do 2 eexists; split; reflexivity).
  unfold json. unfold bind at 1. unfold ret at 1.
  destruct (truthy data) eqn:Ht;
    [| unfold ret; do 2 eexists; split; reflexivity].
  destruct (get_truthy data (lit "title") Ht) as (t & Hget_t).
  destruct (get_truthy data (lit "author_name") Ht) as (a & Hget_a).
  destruct (get_truthy data (lit "thumbnail_url") Ht) as (th & Hget_th).
  unfold bind at 1. unfold ret at 1.
  rewrite !bind_lift, Hget_t. rewrite !bind_lift, Hget_a.
  rewrite !bind_lift, Hget_th. unfold ret.
  do 2 eexists. split; reflexivity.
Qed.

Lemma MyPlugin_fetchVideoMetadata_embed_requests url (w : world) :
  exists r w',
    MyPlugin.fetchVideoMetadata url w = (Ok r, w')
    /\ requests w' = requests w ++ embed_requests url.
Proof.
  unfold MyPlugin.fetchVideoMetadata, embed_requests, try_catch.
  rewrite bind_lift.
  destruct (Uri.encodeURIComponent url) as [encoded | e].
  2:{ unfold bind, console_error, ret; simpl.
      do 2 eexists. split; [reflexivity |]. simpl. now rewrite app_nil_r. }
  unfold bind at 1. unfold fetch at 1.
  destruct (network w (requests w) (embed_url encoded)) as [| [[data |]]];
    try (unfold bind, console_error, lift, ret, json; simpl;
         do 2 eexists; split; reflexivity).
  unfold json. unfold bind at 1. unfold ret at 1.
  destruct (truthy data) eqn:Ht;
    [| unfold ret; do 2 eexists; split; reflexivity].
  destruct (get_truthy data (lit "title") Ht) as (t & Hget_t).
  destruct (get_truthy data (lit "author_name") Ht) as (a & Hget_a).
  destruct (get_truthy data (lit "thumbnail_url") Ht) as (th & Hget_th).
  rewrite !bind_lift, Hget_t. rewrite !bind_lift, Hget_a.
  rewrite !bind_lift, Hget_th. unfold ret.
  do 2 eexists. split; reflexivity.
Qed.

Section Structural.
Variable settings : VideoPluginSettings.
Hypothesis disabled : showChannelIcon settings = false.

Local Abbreviation sent :=
  (fun fragment =>
     flat_map (fun n => embed_requests (href_of n))
       (filter is_candidate (flat_map anchors fragment))).

Lemma visit_all_requests kids :
  Forall (fun n =>
            forall (w : world) n' w',
              VideoPlugin.visit settings n w = (Ok n', w') ->
              requests w' = requests w ++ sent [n]) kids ->
  forall (w : world) kids' w',
    VideoPlugin.visit_all settings kids w = (Ok kids', w') ->
    requests w' = requests w ++ sent kids.
Proof.
  induction 1 as [| k kids Hk _ IH]; intros w kids' w'.
  - intros [= <- <-]. simpl. now rewrite app_nil_r.
  - cbn [VideoPlugin.visit_all]. unfold bind at 1.
    destruct (VideoPlugin.visit settings k w) as [[k' | e] w1] eqn:Hrun;
      [| discriminate].
    unfold bind at 1.
    destruct (VideoPlugin.visit_all settings kids w1) as [[l | e] w2] eqn:Hrest;
      [| discriminate].
    intros [= <- <-].
    rewrite (IH _ _ _ Hrest), (Hk _ _ _ Hrun).
    cbn [flat_map]. rewrite app_nil_r, filter_app, flat_map_app, <- app_assoc.
    reflexivity.
Qed.

Lemma visit_requests n :
  forall (w : world) n' w',
    VideoPlugin.visit settings n w = (Ok n', w') ->
    requests w' = requests w ++ sent [n].
Proof.
  induction n as [d | tag attrs kids IH] using node_induction;
    intros w n' w'.
  - intros [= <- <-]. simpl. now rewrite app_nil_r.
  - pose proof (visit_all_requests IH) as Hkids.
    assert (Hdescend :
      forall (w1 : world),
        (kids' <- VideoPlugin.visit_all settings kids ;;
         ret (Dom.Element tag attrs kids')) w1 = (Ok n', w') ->
        requests w' = requests w1 ++ sent kids).
    { intro w1. unfold bind at 1.
      destruct (VideoPlugin.visit_all settings kids w1) as [[l | e] w2] eqn:Hrun;
        [| discriminate].
      intros [= <- <-]. exact (Hkids _ _ _ Hrun). }
    rewrite visit_Element. cbv zeta.
    cbn [flat_map anchors]. rewrite app_nil_r.
    destruct (JsString.eqb tag (lit "a")) eqn:Htag;
      [| cbn [app]; apply Hdescend].
    cbn [app filter].
    unfold is_candidate at 1. cbn [Dom.getAttribute].
    destruct (Dom.lookup_attr (lit "href") attrs) as [url |] eqn:Hhref;
      [| apply Hdescend].
    destruct (negb (is_empty url) && VideoPlugin.isYouTubeUrl url) eqn:Hurl;
      [| apply Hdescend].
    cbn [flat_map]. unfold href_of at 1. cbn [Dom.getAttribute].
    rewrite Hhref.
    destruct (fetchVideoMetadata_embed_requests settings url w disabled)
      as (r & w1 & Hrun & Hreq).
    unfold bind at 1. rewrite Hrun.
    destruct r as [md |].
    + rewrite bind_lift.
      destruct (VideoPlugin.createPrettyLink settings md) as [p | e];
        [| discriminate].
      unfold bind at 1.
      destruct (VideoPlugin.visit_all settings kids w1) as [[l | e] w2] eqn:Hk;
        [| discriminate].
      intros [= <- <-].
      rewrite (Hkids _ _ _ Hk), Hreq, <- app_assoc. reflexivity.
    + intro Hrest. rewrite (Hdescend _ Hrest), Hreq, <- app_assoc.
      reflexivity.
Qed.

(** With the channel icon disabled, a structural pass that completes
    has sent one embed-info request for each candidate link of the
    fragment, in document order (none for a link that cannot be
    encoded), and nothing else. *)
Theorem structural_pass_requests_candidates_in_order
  (fragment fragment' : list Dom.node) (w w' : world) :
  VideoPlugin.processMarkdown settings fragment w = (Ok fragment', w') ->
  requests w' =
  requests w
  ++ flat_map (fun n => embed_requests (href_of n)) (candidates fragment).
Proof.
  apply visit_all_requests.
  apply Forall_forall. intros n _. apply visit_requests.
Qed.

End Structural.

Lemma process_matches_requests textual matches :
  forall innerHTML (w : world) out w',
    MyPlugin.process_matches textual matches innerHTML w = (Ok out, w') ->
    requests w' = requests w ++ flat_map embed_requests matches.
Proof.
  induction matches as [| url rest IH]; intros innerHTML w out w'.
  - intros [= <- <-]. simpl. now rewrite app_nil_r.
  - cbn [MyPlugin.process_matches flat_map]. unfold bind at 1.
    destruct (MyPlugin_fetchVideoMetadata_embed_requests url w)
      as (r & w1 & Hrun & Hreq).
    rewrite Hrun. destruct r as [md |].
    + rewrite bind_lift.
      destruct (MyPlugin.createPrettyLink textual md) as [p | e];
        [| discriminate].
      intro Hrest. rewrite (IH _ _ _ _ Hrest), Hreq, <- app_assoc.
      reflexivity.
    + intro Hrest. rewrite (IH _ _ _ _ Hrest), Hreq, <- app_assoc.
      reflexivity.
Qed.

(** A textual pass that completes has sent one embed-info request for
    each match of the pattern in the markup it was given, in order
    (none for a match that cannot be encoded), and nothing else:
    the markup it rewrites on the way is not scanned again. *)
Theorem textual_pass_requests_matches_in_order
  textual (innerHTML out : jsstring) (w w' : world) :
  MyPlugin.processMarkdown textual innerHTML w = (Ok out, w') ->
  requests w' =
  requests w
  ++ flat_map embed_requests
       (match Regex.match_all youtubeRegex innerHTML with
        | Some matches => matches
        | None => []
        end).
Proof.
  unfold MyPlugin.processMarkdown.
  destruct (Regex.match_all youtubeRegex innerHTML) as [matches |].
  - apply process_matches_requests.
  - intros [= <- <-]. simpl. now rewrite app_nil_r.
Qed.

Section Untouched.
Variable settings : VideoPluginSettings.

Lemma visit_all_kept_or_replaced kids :
  Forall (fun n =>
            forall (w : world) n' w',
              VideoPlugin.visit settings n w = (Ok n', w') ->
              kept_or_replaced n n') kids ->
  forall (w : world) kids' w',
    VideoPlugin.visit_all settings kids w = (Ok kids', w') ->
    Forall2 kept_or_replaced kids kids'.
Proof.
  induction 1 as [| k kids Hk _ IH]; intros w kids' w'.
  - intros [= <- <-]. constructor.
  - cbn [VideoPlugin.visit_all]. unfold bind at 1.
    destruct (VideoPlugin.visit settings k w) as [[k' | e] w1] eqn:Hrun;
      [| discriminate].
    unfold bind at 1.
    destruct (VideoPlugin.visit_all settings kids w1) as [[l | e] w2] eqn:Hrest;
      [| discriminate].
    intros [= <- <-]. constructor; [exact (Hk _ _ _ Hrun) |].
    exact (IH _ _ _ Hrest).
Qed.

Lemma visit_kept_or_replaced n :
  forall (w : world) n' w',
    VideoPlugin.visit settings n w = (Ok n', w') -> kept_or_replaced n n'.
Proof.
  induction n as [d | tag attrs kids IH] using node_induction;
    intros w n' w'.
  - intros [= <- <-]. constructor.
  - pose proof (visit_all_kept_or_replaced IH) as Hkids.
    assert (Hdescend :
      forall (w1 : world),
        (kids' <- VideoPlugin.visit_all settings kids ;;
         ret (Dom.Element tag attrs kids')) w1 = (Ok n', w') ->
        kept_or_replaced (Dom.Element tag attrs kids) n').
    { intro w1. unfold bind at 1.
      destruct (VideoPlugin.visit_all settings kids w1) as [[l | e] w2] eqn:Hrun;
        [| discriminate].
      intros [= <- <-]. constructor. exact (Hkids _ _ _ Hrun). }
    rewrite visit_Element. cbv zeta.
    destruct (JsString.eqb tag (lit "a")) eqn:Htag; [| apply Hdescend].
    destruct (Dom.lookup_attr (lit "href") attrs) as [url |] eqn:Hhref;
      [| apply Hdescend].
    destruct (negb (is_empty url) && VideoPlugin.isYouTubeUrl url) eqn:Hurl;
      [| apply Hdescend].
    unfold bind at 1.
    destruct (VideoPlugin.fetchVideoMetadata settings url w)
      as [[[md |] | e] w1] eqn:Hfetch; [| apply Hdescend | discriminate].
    rewrite bind_lift.
    destruct (VideoPlugin.createPrettyLink settings md) as [p | e] eqn:Hbuilt;
      [| discriminate].
    unfold bind at 1.
    destruct (VideoPlugin.visit_all settings kids w1) as [[l | e] w2];
      [| discriminate].
    intros [= <- <-].
    destruct (RenderFacts.fetchVideoMetadata_some _ _ _ Hfetch)
      as (Hmd & encoded & Henc).
    destruct (BuilderFacts.VideoPlugin_createPrettyLink_shape _ _ Hbuilt)
      as (built & -> & _).
    apply replaced.
    + exact Htag.
    + unfold is_candidate. cbn [Dom.getAttribute]. now rewrite Hhref.
    + reflexivity.
    + reflexivity.
    + rewrite Hmd, (RenderFacts.toUSVString_encodable _ Henc).
      cbn [Dom.getAttribute]. now rewrite Hhref.
Qed.

(** A structural pass that completes leaves every text node and every
    element that is not a candidate anchor in place, with its tag and
    attributes; the only nodes it exchanges are candidate anchors, each
    for an anchor of class [video-metadata-container] with the same
    [href]. The fragment keeps its number of nodes at every level
    outside the replaced anchors. *)
Theorem structural_pass_replaces_candidates_only
  (fragment fragment' : list Dom.node) (w w' : world) :
  VideoPlugin.processMarkdown settings fragment w = (Ok fragment', w') ->
  Forall2 kept_or_replaced fragment fragment'.
Proof.
  apply visit_all_kept_or_replaced.
  apply Forall_forall. intros n _. apply visit_kept_or_replaced.
Qed.

End Untouched.

Section Places.
Variable settings : VideoPluginSettings.

(** The pass over a list, cut at one of its nodes. *)
Lemma visit_all_nth l : forall i n (w : world) l' w',
  VideoPlugin.visit_all settings l w = (Ok l', w') ->
  nth_error l i = Some n ->
  exists pre' w0 n' w1,
    VideoPlugin.visit_all settings (firstn i l) w = (Ok pre', w0)
    /\ VideoPlugin.visit settings n w0 = (Ok n', w1)
    /\ nth_error l' i = Some n'.
Proof.
  induction l as [| k l IH]; intros i n w l' w' Hrun Hnth.
  - destruct i; discriminate.
  - cbn [VideoPlugin.visit_all] in Hrun. unfold bind at 1 in Hrun.
    destruct (VideoPlugin.visit settings k w) as [[k' | e] wa] eqn:Hk;
      [| discriminate].
    unfold bind at 1 in Hrun.
    destruct (VideoPlugin.visit_all settings l wa) as [[l0 | e] wb] eqn:Hl;
      [| discriminate].
    injection Hrun as <- <-.
    destruct i as [| i].
    + injection Hnth as <-. exists [], w, k', wa.
      split; [reflexivity |]. split; [exact Hk | reflexivity].
    + cbn [nth_error] in Hnth.
      destruct (IH i n wa l0 wb Hl Hnth) as (pre' & w0 & n' & w1 & Hpre & Hn & Hn').
      exists (k' :: pre'), w0, n', w1.
      split; [| split; [exact Hn | exact Hn']].
      cbn [firstn VideoPlugin.visit_all]. unfold bind at 1. rewrite Hk.
      unfold bind at 1. now rewrite Hpre.
Qed.

(** An element that is not an anchor the pass resolves is only
    descended into. *)
Lemma visit_outside tag attrs kids :
  is_candidate_anchor (Dom.Element tag attrs kids) = false ->
  VideoPlugin.visit (number := number) settings (Dom.Element tag attrs kids)
  = (kids' <- VideoPlugin.visit_all settings kids ;;
     ret (Dom.Element tag attrs kids')).
Proof.
  unfold is_candidate_anchor, is_candidate.
  cbn [Dom.is_tag Dom.getAttribute]. intro Hout.
  rewrite visit_Element. cbv zeta.
  destruct (JsString.eqb tag (lit "a")); [| reflexivity].
  destruct (Dom.lookup_attr (lit "href") attrs) as [url |]; [| reflexivity].
  cbn [andb] in Hout. now rewrite Hout.
Qed.

(** A pass that completes has visited the node at a place outside
    candidates in the state the part of the pass before it left, and
    what the visit gave stands at that place. *)
Lemma pass_reaches place : forall fragment (w : world) fragment' w' n,
  VideoPlugin.visit_all settings fragment w = (Ok fragment', w') ->
  node_at place fragment = Some n ->
  outside_candidates place fragment = true ->
  exists w0 n' w1,
    pass_before settings place fragment w = (Ok tt, w0)
    /\ VideoPlugin.visit settings n w0 = (Ok n', w1)
    /\ node_at place fragment' = Some n'.
Proof.
  induction place as [| i rest IH]; intros fragment w fragment' w' n Hrun Hat Hout;
    [discriminate |].
  cbn [node_at] in Hat.
  destruct (nth_error fragment i) as [m |] eqn:Hnth; [| discriminate].
  destruct (@visit_all_nth fragment i m w fragment' w' Hrun Hnth)
    as (pre' & wa & m' & wb & Hpre & Hm & Hm').
  cbn [pass_before node_at]. unfold bind at 1. rewrite Hpre, Hnth, Hm'.
  destruct rest as [| j rest].
  - assert (Hmn : m = n) by (destruct m; now injection Hat). subst n.
    exists wa, m', wb.
    split; [now destruct m | split; [exact Hm | now destruct m']].
  - destruct m as [d | tag attrs kids]; [discriminate |].
    cbn [outside_candidates] in Hout. rewrite Hnth in Hout.
    apply andb_true_iff in Hout. destruct Hout as [Hm_out Hout].
    apply negb_true_iff in Hm_out.
    rewrite (@visit_outside tag attrs kids Hm_out) in Hm. unfold bind at 1 in Hm.
    destruct (VideoPlugin.visit_all settings kids wa) as [[kids' | e] wc] eqn:Hkids;
      [| discriminate].
    injection Hm as <- <-.
    exact (IH kids wa kids' wc n Hkids Hat Hout).
Qed.

(** A candidate anchor whose resolution returns a record is replaced,
    at its place, by the node built from that record, wherever it
    stands in the fragment outside other candidates. The resolution is
    the one run when the pass reaches the anchor, in the state the part
    of the pass before it left. *)
Theorem resolved_candidate_is_replaced_in_place
  place fragment fragment' tag attrs kids url
  (md : VideoPlugin.metadata) (w w0 w1 w' : world) :
  VideoPlugin.processMarkdown settings fragment w = (Ok fragment', w') ->
  node_at place fragment = Some (Dom.Element tag attrs kids) ->
  outside_candidates place fragment = true ->
  JsString.eqb tag (lit "a") = true ->
  Dom.lookup_attr (lit "href") attrs = Some url ->
  negb (is_empty url) && VideoPlugin.isYouTubeUrl url = true ->
  pass_before settings place fragment w = (Ok tt, w0) ->
  VideoPlugin.fetchVideoMetadata settings url w0 = (Ok (Some md), w1) ->
  exists n,
    VideoPlugin.createPrettyLink settings md = Ok n
    /\ node_at place fragment' = Some n.
Proof.
  intros Hrun Hat Hout Htag Hhref Hurl Hbefore Hfetch.
  destruct (@pass_reaches place fragment w fragment' w' _ Hrun Hat Hout)
    as (w0' & n' & w2 & Hbefore' & Hvisit & Hat').
  rewrite Hbefore in Hbefore'. injection Hbefore' as <-.
  rewrite visit_Element in Hvisit. cbv zeta in Hvisit.
  rewrite Htag, Hhref, Hurl in Hvisit.
  unfold bind at 1 in Hvisit. rewrite Hfetch in Hvisit.
  rewrite bind_lift in Hvisit.
  destruct (VideoPlugin.createPrettyLink settings md) as [p | e];
    [| discriminate].
  unfold bind at 1 in Hvisit.
  destruct (VideoPlugin.visit_all settings kids w1) as [[l | e] w3];
    [| discriminate].
  injection Hvisit as <- <-.
  exists p. split; [reflexivity | exact Hat'].
Qed.

(** A candidate anchor whose resolution returns [null] stays at its
    place with its tag and attributes, wherever it stands in the
    fragment outside other candidates; its children are treated as the
    pass treats any node, and with no candidate among them the anchor
    is exactly what it was. The resolution is the one run when the pass
    reaches the anchor, in the state the part of the pass before it
    left. *)
Theorem failed_candidate_is_left_in_place
  place fragment fragment' tag attrs kids url (w w0 w1 w' : world) :
  VideoPlugin.processMarkdown settings fragment w = (Ok fragment', w') ->
  node_at place fragment = Some (Dom.Element tag attrs kids) ->
  outside_candidates place fragment = true ->
  JsString.eqb tag (lit "a") = true ->
  Dom.lookup_attr (lit "href") attrs = Some url ->
  negb (is_empty url) && VideoPlugin.isYouTubeUrl url = true ->
  pass_before settings place fragment w = (Ok tt, w0) ->
  VideoPlugin.fetchVideoMetadata settings url w0 = (Ok None, w1) ->
  exists kids',
    node_at place fragment' = Some (Dom.Element tag attrs kids')
    /\ Forall2 kept_or_replaced kids kids'
    /\ (filter is_candidate (flat_map anchors kids) = [] -> kids' = kids).
Proof.
  intros Hrun Hat Hout Htag Hhref Hurl Hbefore Hfetch.
  destruct (@pass_reaches place fragment w fragment' w' _ Hrun Hat Hout)
    as (w0' & n' & w2 & Hbefore' & Hvisit & Hat').
  rewrite Hbefore in Hbefore'. injection Hbefore' as <-.
  rewrite (failed_candidate_is_kept settings _ _ kids _ Htag Hhref Hurl Hfetch)
    in Hvisit.
  unfold bind at 1 in Hvisit.
  destruct (VideoPlugin.visit_all settings kids w1) as [[kids' | e] w3] eqn:Hkids;
    [| discriminate].
  injection Hvisit as <- <-.
  exists kids'. split; [exact Hat' |]. split.
  - refine (@visit_all_kept_or_replaced settings kids _ w1 kids' w3 Hkids).
    apply Forall_forall. intros k _. apply visit_kept_or_replaced.
  - intro Hnone.
    rewrite visit_all_without_candidates in Hkids; [| | exact Hnone].
    + now injection Hkids as <- _.
    + apply Forall_forall. intros k _. apply visit_without_candidates.
Qed.

End Places.

End PassFacts.
(** A run: a link inside the second paragraph, in a world that
    answers. *)
Lemma resolved_candidate_in_place_run :
  exists n,
    VideoPlugin.createPrettyLink Sample.icon_off Runs.video_metadata = Ok n
    /\ node_at [1; 1]%nat
         (Sample.value []
            (VideoPlugin.processMarkdown Sample.icon_off
               [Sample.plain_paragraph; Runs.linking_paragraph]
               Sample.video_world))
       = Some n.
Proof.
  apply (@resolved_candidate_is_replaced_in_place _ _
           Sample.icon_off [1; 1]%nat
           [Sample.plain_paragraph; Runs.linking_paragraph]
           (Sample.value []
              (VideoPlugin.processMarkdown Sample.icon_off
                 [Sample.plain_paragraph; Runs.linking_paragraph]
                 Sample.video_world))
           (lit "a") [(lit "href", lit "https://youtu.be/a")]
           [Dom.Text (lit "https://youtu.be/a")] (lit "https://youtu.be/a")
           Runs.video_metadata
           Sample.video_world Sample.video_world
           (snd (VideoPlugin.fetchVideoMetadata Sample.icon_off
                   (lit "https://youtu.be/a") Sample.video_world))
           (snd (VideoPlugin.processMarkdown Sample.icon_off
                   [Sample.plain_paragraph; Runs.linking_paragraph]
                   Sample.video_world)));
    vm_compute; reflexivity.
Defined.

(** A run: the same content, the request rejected. *)
Lemma failed_candidate_in_place_run :
  exists kids',
    node_at [1; 1]%nat
      (Sample.value []
         (VideoPlugin.processMarkdown Sample.icon_off
            [Sample.plain_paragraph; Runs.linking_paragraph]
            Sample.flaky_world))
    = Some (Dom.Element (lit "a") [(lit "href", lit "https://youtu.be/a")]
              kids')
    /\ Forall2 kept_or_replaced [Dom.Text (lit "https://youtu.be/a")] kids'
    /\ (filter is_candidate
          (flat_map anchors [Dom.Text (lit "https://youtu.be/a")]) = [] ->
        kids' = [Dom.Text (lit "https://youtu.be/a")]).
Proof.
  apply (@failed_candidate_is_left_in_place _ _
           Sample.icon_off [1; 1]%nat
           [Sample.plain_paragraph; Runs.linking_paragraph]
           (Sample.value []
              (VideoPlugin.processMarkdown Sample.icon_off
                 [Sample.plain_paragraph; Runs.linking_paragraph]
                 Sample.flaky_world))
           (lit "a") [(lit "href", lit "https://youtu.be/a")]
           [Dom.Text (lit "https://youtu.be/a")] (lit "https://youtu.be/a")
           Sample.flaky_world Sample.flaky_world
           (snd (VideoPlugin.fetchVideoMetadata Sample.icon_off
                   (lit "https://youtu.be/a") Sample.flaky_world))
           (snd (VideoPlugin.processMarkdown Sample.icon_off
                   [Sample.plain_paragraph; Runs.linking_paragraph]
                   Sample.flaky_world)));
    vm_compute; reflexivity.
Defined.

(** A run: a second pass over the node built, the service answering
    as before. *)
Lemma second_pass_run :
  VideoPlugin.processMarkdown Sample.icon_off [Runs.video_node]
    Sample.video_world
  = (Ok [Runs.video_node],
     snd (VideoPlugin.fetchVideoMetadata Sample.icon_off
            (lit "https://youtu.be/a") Sample.video_world)).
Proof.
  apply (second_pass_with_same_metadata
           Sample.icon_off Runs.video_metadata
           (md' := Runs.video_metadata));
    vm_compute; reflexivity.
Defined.

(** A run: two links, the channel icon off. *)
Lemma structural_pass_requests_run :
  requests (snd (VideoPlugin.processMarkdown Sample.icon_off
                   [Sample.video_link; Sample.plain_paragraph;
                    Sample.other_link] Sample.video_world))
  = requests Sample.video_world
    ++ flat_map (fun n => embed_requests (href_of n))
         (candidates [Sample.video_link; Sample.plain_paragraph;
                      Sample.other_link]).
Proof.
  apply (structural_pass_requests_candidates_in_order
           Sample.icon_off eq_refl
           [Sample.video_link; Sample.plain_paragraph; Sample.other_link]
           Sample.video_world
           (fragment' := Sample.value []
              (VideoPlugin.processMarkdown Sample.icon_off
                 [Sample.video_link; Sample.plain_paragraph;
                  Sample.other_link] Sample.video_world))).
  vm_compute. reflexivity.
Defined.

(** A run: two links in a paragraph. *)
Lemma textual_pass_requests_run :
  requests (snd (MyPlugin.processMarkdown MyPlugin.DEFAULT_SETTINGS
                   (lit "https://youtu.be/a and https://youtu.be/b")
                   Sample.video_world))
  = requests Sample.video_world
    ++ flat_map embed_requests
         (match Regex.match_all youtubeRegex
                  (lit "https://youtu.be/a and https://youtu.be/b") with
          | Some matches => matches
          | None => []
          end).
Proof.
  apply (textual_pass_requests_matches_in_order
           MyPlugin.DEFAULT_SETTINGS
           (lit "https://youtu.be/a and https://youtu.be/b")
           (out := Sample.value []
              (MyPlugin.processMarkdown MyPlugin.DEFAULT_SETTINGS
                 (lit "https://youtu.be/a and https://youtu.be/b")
                 Sample.video_world))).
  vm_compute. reflexivity.
Defined.

(** A run: a link to a video, a paragraph and a link to another
    video. *)
Lemma structural_pass_replaces_run :
  Forall2 kept_or_replaced
    [Sample.video_link; Sample.plain_paragraph; Sample.other_link]
    (Sample.value []
       (VideoPlugin.processMarkdown Sample.icon_off
          [Sample.video_link; Sample.plain_paragraph; Sample.other_link]
          Sample.failing_later_world)).
Proof.
  apply (structural_pass_replaces_candidates_only
           Sample.icon_off
           [Sample.video_link; Sample.plain_paragraph; Sample.other_link]
           Sample.failing_later_world
           (w' := snd (VideoPlugin.processMarkdown Sample.icon_off
                         [Sample.video_link; Sample.plain_paragraph;
                          Sample.other_link] Sample.failing_later_world))).
  vm_compute. reflexivity.
Defined.

End PassFacts.

(** ** [String.replace] as the textual variant uses it *)

Module ReplaceFacts.

Lemma split_first_eq p s :
  split_first p s =
  if starts_with p s then Some ([], skipn (length p) s)
  else match s with
       | [] => None
       | c :: s' =>
           match split_first p s' with
           | Some (before, after) => Some (c :: before, after)
           | None => None
           end
       end.
Proof. destruct s; reflexivity. Qed.

(** [split_first] finds an occurrence whenever there is one. *)
Lemma split_first_complete p : forall before after,
  split_first p (before ++ p ++ after) <> None.
Proof.
  induction before as [| c before IH]; intros after; rewrite split_first_eq.
  - cbn [app]. now rewrite StringFacts.starts_with_app.
  - destruct (starts_with p ((c :: before) ++ p ++ after)); [discriminate |].
    cbn [app]. specialize (IH after).
    destruct (split_first p (before ++ p ++ after)) as [[b a] |];
      [discriminate | contradiction].
Qed.

(** A replacement text without dollar sign is inserted as it is. *)
Lemma substitution_verbatim before matched after : forall template,
  forallb (fun c => negb (N.eqb c (chr "$"))) template = true ->
  MyPlugin.substitution before matched after template = template.
Proof.
  induction template as [| c rest IH]; [reflexivity |].
  cbn [forallb MyPlugin.substitution]. intro H.
  apply andb_true_iff in H. destruct H as [Hc Hrest].
  apply negb_true_iff in Hc. rewrite Hc. now rewrite IH.
Qed.

(** [str.replace(pattern, replacement)] with a string pattern: when
    the pattern occurs in the string, its leftmost occurrence, and
    only that one, is replaced, by the replacement text with its
    dollar patterns expanded (by the replacement text itself when it
    holds no dollar sign); when it does not occur, the string is
    returned as it is. *)
Theorem replace_rewrites_first_occurrence_only
  (str pattern replacement : jsstring) :
  (exists before after,
     str = before ++ pattern ++ after
     /\ (forall before' after',
           str = before' ++ pattern ++ after' ->
           (length before <= length before')%nat)
     /\ MyPlugin.replace str pattern replacement
        = before ++ MyPlugin.substitution before pattern after replacement
          ++ after
     /\ (forallb (fun c => negb (N.eqb c (chr "$"))) replacement = true ->
         MyPlugin.replace str pattern replacement
         = before ++ replacement ++ after))
  \/ ((forall before after, str <> before ++ pattern ++ after)
      /\ MyPlugin.replace str pattern replacement = str).
Proof.
  unfold MyPlugin.replace.
  destruct (split_first pattern str) as [[before after] |] eqn:Hsplit.
  - left. exists before, after.
    split; [now apply StringFacts.split_first_occurrence |].
    split; [now apply StringFacts.split_first_leftmost with (after := after) |].
    split; [reflexivity |].
    intro Hplain. now rewrite substitution_verbatim.
  - right. split; [| reflexivity].
    intros before after ->. now apply (split_first_complete pattern before after).
Qed.

End ReplaceFacts.
